(** * System-Ya-Mbogi: the storage and security engine of [githubStorage.js]

    A shallow embedding of [src/utils/githubStorage.js] (classes
    [SecurityManager], [ContentValidator], [GitHubStorage]) and of the
    attachment check of the email form, together with the properties the
    specification states about them.

    Conventions of the embedding.
    - A JSON document is a [json] value; a JavaScript object is an
      insertion-ordered association list, because [JSON.stringify] (and with
      it every checksum) depends on the order of the keys.  A text is
      carried as the bytes of its UTF-8 encoding.  Numbers are integers;
      JavaScript computes on doubles, which is exact for the integers of
      magnitude below 2^53, and what it computes on any other number is left
      to the platform.
    - The library calls the code makes (CryptoJS digests, key derivation and
      ciphers, [Date] formatting and parsing) are the fields of the class
      [Platform]; everything the repository itself computes is a definition.
    - An [async] method is a function in the monad [M]: it threads the
      [world] (the remote repository and the fields of the singleton
      [GitHubStorage] instance) and ends with a value or a thrown exception.
      A thrown exception keeps the effects made before it, as in JavaScript.
    - The remote repository answers every request, and it answers by the
      state of the repository alone: with the file, the listing or 404 to a
      read, with 409 or 422 to a write it refuses.  The other answers of the
      service (403 for a token without permission or for the API quota, 5xx)
      and the time-outs and faults of the network are not part of the
      embedding, so a statement that a call returns reads: it returns when
      the remote answers.  Waiting ([setTimeout]) has no effect on the state
      and is dropped.
    - A call reads the clock once: the argument [now] is the value of
      [Date.now()], in milliseconds, for the whole call.  The random values
      a call draws are arguments too. *)

From Stdlib Require Import ZArith String Ascii List Lia Bool.
From Stdlib Require Strings.Byte.
From stdpp Require Import base option list strings gmap pretty sorting.

Set Warnings "-register-all".
Local Open Scope string_scope.
Local Open Scope Z_scope.

(** ** JSON values and JavaScript objects *)

Inductive json : Type :=
| JNull
| JBool (b : bool)
| JNum (n : Z)
| JStr (s : string)
| JArr (items : list json)
| JObj (fields : list (string * json)).

(** A JavaScript object literal: keys in insertion order. *)
Abbreviation object := (list (string * json)).

Module Obj.

(** [o[k]]; [None] is JavaScript's [undefined]. *)
Fixpoint get (k : string) (o : object) : option json :=
  match o with
  | [] => None
  | (k', v) :: rest => if decide (k' = k) then Some v else get k rest
  end.

(** [{...o, k: v}] and [o[k] = v]: an existing key keeps its position,
    a new key goes last. *)
Fixpoint set (k : string) (v : json) (o : object) : object :=
  match o with
  | [] => [(k, v)]
  | (k', v') :: rest =>
      if decide (k' = k) then (k, v) :: rest else (k', v') :: set k v rest
  end.

(** [delete o[k]]. *)
Fixpoint remove (k : string) (o : object) : object :=
  match o with
  | [] => []
  | (k', v') :: rest =>
      if decide (k' = k) then rest else (k', v') :: remove k rest
  end.

End Obj.

(** JavaScript truthiness of a value read from a document. *)
Definition truthy (v : option json) : bool :=
  match v with
  | None | Some JNull => false
  | Some (JBool b) => b
  | Some (JNum n) => negb (n =? 0)
  | Some (JStr s) => negb (String.eqb s "")
  | Some (JArr _) | Some (JObj _) => true
  end.

(** ** [JSON.stringify] *)

Definition dquote : ascii := "034"%char.
Definition backslash : ascii := "092"%char.

Definition hex_digit_lower (n : N) : ascii :=
  match n with
  | 0%N => "0" | 1%N => "1" | 2%N => "2" | 3%N => "3" | 4%N => "4"
  | 5%N => "5" | 6%N => "6" | 7%N => "7" | 8%N => "8" | 9%N => "9"
  | 10%N => "a" | 11%N => "b" | 12%N => "c" | 13%N => "d" | 14%N => "e"
  | _ => "f"
  end%char.

(** The escape of one character inside a JSON string literal. *)
Definition escape_char (c : ascii) : string :=
  let n := N_of_ascii c in
  if decide (c = dquote) then String backslash (String dquote "")
  else if decide (c = backslash) then String backslash (String backslash "")
  else if decide (n = 8%N) then String backslash "b"
  else if decide (n = 12%N) then String backslash "f"
  else if decide (n = 10%N) then String backslash "n"
  else if decide (n = 13%N) then String backslash "r"
  else if decide (n = 9%N) then String backslash "t"
  else if decide (n < 32)%N then
    String backslash
      (String "u" (String "0" (String "0"
        (String (hex_digit_lower (n / 16)) (String (hex_digit_lower (n mod 16)) "")))))
  else String c "".

Fixpoint escape (s : string) : string :=
  match s with
  | EmptyString => ""
  | String c rest => escape_char c +:+ escape rest
  end.

Definition quote (s : string) : string :=
  String dquote (escape s +:+ String dquote "").

Fixpoint join (sep : string) (parts : list string) : string :=
  match parts with
  | [] => ""
  | [p] => p
  | p :: rest => p +:+ sep +:+ join sep rest
  end.

Fixpoint JSON_stringify (v : json) : string :=
  match v with
  | JNull => "null"
  | JBool true => "true"
  | JBool false => "false"
  | JNum n => pretty n
  | JStr s => quote s
  | JArr items => "[" +:+ join "," (List.map JSON_stringify items) +:+ "]"
  | JObj fields =>
      "{" +:+ join ","
        (List.map (fun kv => quote (fst kv) +:+ ":" +:+ JSON_stringify (snd kv)) fields)
      +:+ "}"
  end.

(** ** Strings: [length], [includes], [endsWith] *)

(** The UTF-16 code units a byte of the UTF-8 encoding stands for: one for
    a byte that starts a character, two for the lead byte of a four-byte
    sequence (a character outside the basic plane, a surrogate pair in
    JavaScript), none for a continuation byte. *)
Definition utf16_units (c : ascii) : Z :=
  let n := N_of_ascii c in
  if decide (n < 128)%N then 1
  else if decide (n < 192)%N then 0
  else if decide (n < 240)%N then 1
  else 2.

(** [s.length] *)
Fixpoint js_length (s : string) : Z :=
  match s with
  | EmptyString => 0
  | String c rest => utf16_units c + js_length rest
  end.

(** [s.includes(sub)] *)
Definition includes (sub s : string) : bool :=
  match String.index 0 sub s with Some _ => true | None => false end.

(** [s.endsWith(suffix)] *)
Definition endsWith (suffix s : string) : bool :=
  String.prefix (String.rev suffix) (String.rev s).

(** ** The platform: library calls the repository relies on *)

Class Platform := {
  (** [CryptoJS.SHA256(s).toString()] *)
  SHA256 : string → string;
  (** [CryptoJS.PBKDF2(password, salt, {keySize: 512/32, iterations: 10000,
      hasher: SHA512})] on a salt of whole bytes: the bytes of the key. *)
  PBKDF2 : string → list Byte.byte → list Byte.byte;
  (** The same derivation when the stored salt text is not a sequence of
      hexadecimal byte pairs, so that [CryptoJS.enc.Hex.parse] yields some
      other word array. *)
  PBKDF2_malformed_salt : string → string → list Byte.byte;
  (** [CryptoJS.AES.encrypt(plaintext, passphrase).toString()]; the third
      argument is the random salt the library draws. *)
  AES_encrypt : string → string → list Byte.byte → string;
  (** [new Date(t).toISOString()] for a time value [t] in milliseconds. *)
  toISOString : Z → string;
  (** [new Date(text).getTime()]; [None] is [NaN]. *)
  Date_getTime : string → option Z;
  (** The version token the repository assigns to a file content. *)
  blob_sha : option json → string;
  (** [v + 1] and [Math.max(0, v - 1)] when [v] is not an integer of
      magnitude below 2^53 (another value, or a number on which the
      addition of doubles rounds), as the result is serialised. *)
  plus_one_coerced : option json → json;
  minus_one_clamped_coerced : option json → json
}.

(** Two more library calls, made by methods that read a share link or a
    country code. *)
Class Library := {
  (** [text.toLowerCase()] *)
  toLowerCase : string → string;
  (** [JSON.parse(CryptoJS.AES.decrypt(ciphertext, passphrase)
      .toString(CryptoJS.enc.Utf8))] for a ciphertext read from a document:
      the value, or the message of the exception. *)
  AES_decrypt_parse : option json → string → string + json
}.

(** ** Exceptions, results and the monad of [async] methods *)

Record exn := Exn { exn_name : string; message : string }.

Definition Error (msg : string) : exn := Exn "Error" msg.
Definition TypeError (msg : string) : exn := Exn "TypeError" msg.
Definition SyntaxError (msg : string) : exn := Exn "SyntaxError" msg.
Definition DOMException (msg : string) : exn := Exn "InvalidCharacterError" msg.

(** What [makeRequest] throws for a response that is not [ok]. *)
Definition GitHubApiError (status : Z) (errorMessage : string) : exn :=
  Error ("GitHub API error (" +:+ pretty status +:+ "): " +:+ errorMessage).

(** [error.message.includes('404')] *)
Definition is404 (e : exn) : bool := includes "404" (message e).

(** The outcome of a call: a value, a thrown exception, or no outcome at all
    (the recursion of [ensureDirectoryExists] did not end). *)
Inductive result (A : Type) : Type :=
| Ok (a : A)
| Throw (e : exn)
| Diverge.
Arguments Ok {A} a.
Arguments Throw {A} e.
Arguments Diverge {A}.

(** A file of the remote repository: its version token and its content.
    The content is the JSON document the base64 text decodes to; [None] is
    an empty file (a [.gitkeep] placeholder). *)
Record file := File { sha : string; content : option json }.

(** The remote repository and the state of the singleton: the two tables of
    [this.security] and the flag [this.initialized]. *)
Record world := World {
  repo : gmap string file;
  rateLimitCache : gmap string (list Z);
  blacklistedIPs : gset string;
  initialized : bool
}.

Definition M (A : Type) : Type := world → result A * world.

Definition ret {A} (a : A) : M A := fun w => (Ok a, w).
Definition throw {A} (e : exn) : M A := fun w => (Throw e, w).
Definition diverge {A} : M A := fun w => (Diverge, w).

Definition bind {A B} (m : M A) (k : A → M B) : M B :=
  fun w =>
    match m w with
    | (Ok a, w') => k a w'
    | (Throw e, w') => (Throw e, w')
    | (Diverge, w') => (Diverge, w')
    end.

(** [try { m } catch (error) { handler error }] *)
Definition try_catch {A} (m : M A) (handler : exn → M A) : M A :=
  fun w =>
    match m w with
    | (Throw e, w') => handler e w'
    | other => other
    end.

Notation "'let*' x ':=' m 'in' k" := (bind m (fun x => k))
  (at level 10, x pattern, m at level 100, k at level 200).
Notation "m ';;' k" := (bind m (fun _ => k))
  (at level 100, k at level 200, right associativity).

Definition get_world : M world := fun w => (Ok w, w).
Definition set_repo (r : gmap string file) : M unit :=
  fun w => (Ok tt, World r (rateLimitCache w) (blacklistedIPs w) (initialized w)).
Definition set_rateLimitCache (c : gmap string (list Z)) : M unit :=
  fun w => (Ok tt, World (repo w) c (blacklistedIPs w) (initialized w)).
Definition set_blacklistedIPs (s : gset string) : M unit :=
  fun w => (Ok tt, World (repo w) (rateLimitCache w) s (initialized w)).
Definition set_initialized (b : bool) : M unit :=
  fun w => (Ok tt, World (repo w) (rateLimitCache w) (blacklistedIPs w) b).

(** [for (const x of xs) { await f x }] *)
Fixpoint for_each {A} (f : A → M unit) (xs : list A) : M unit :=
  match xs with
  | [] => ret tt
  | x :: rest => f x ;; for_each f rest
  end.

(** [await Promise.all(xs.map(f))] for an [f] that only reads: the results in
    order, or the first exception. *)
Fixpoint map_all {A B} (f : A → M B) (xs : list A) : M (list B) :=
  match xs with
  | [] => ret []
  | x :: rest =>
      let* y := f x in
      let* ys := map_all f rest in
      ret (y :: ys)
  end.

(** ** The contents endpoint of the remote repository *)

(** One entry of a directory listing. *)
Record entry := Entry { name : string; is_dir : bool }.

Global Instance entry_eq_dec : EqDecision entry.
Proof. solve_decision. Defined.

(** [strip_prefix p s] is the rest of [s] after the prefix [p]. *)
Fixpoint strip_prefix (p s : string) : option string :=
  match p, s with
  | EmptyString, _ => Some s
  | String a p', String b s' => if decide (a = b) then strip_prefix p' s' else None
  | String _ _, EmptyString => None
  end.

(** The first path segment of a relative path, and whether more follows. *)
Fixpoint first_segment (s : string) : entry :=
  match s with
  | EmptyString => Entry "" false
  | String c rest =>
      if decide (c = "/"%char) then Entry "" true
      else let e := first_segment rest in Entry (String c (name e)) (is_dir e)
  end.

Definition entry_le (a b : entry) : Prop := String.le (name a) (name b).
Global Instance entry_le_dec : RelDecision entry_le.
Proof. intros a b. unfold entry_le. apply _. Defined.

(** The entries directly under the directory [path], by name. *)
Definition children (path : string) (r : gmap string file) : list entry :=
  merge_sort entry_le
    (remove_dups
      (omap (fun kf => first_segment <$> strip_prefix (path +:+ "/") (fst kf))
            (map_to_list r))).

Inductive response :=
| RFile (f : file)
| RDir (entries : list entry).

(** [makeRequest(`${baseUrl}/contents/${path}`)] *)
Definition GET (path : string) : M response :=
  fun w =>
    match repo w !! path with
    | Some f => (Ok (RFile f), w)
    | None =>
        match children path (repo w) with
        | [] => (Throw (GitHubApiError 404 "Not Found"), w)
        | entries => (Ok (RDir entries), w)
        end
    end.

(** [makeRequest(url, {method: 'PUT', body: {message, content, sha?}})]:
    creates the file, or replaces it when [sha] is its current token. *)
Definition PUT `{Platform} (path : string) (c : option json) (sha_sent : option string)
  : M unit :=
  fun w =>
    match repo w !! path, sha_sent with
    | Some f, Some s =>
        if decide (s = sha f)
        then set_repo (<[path := File (blob_sha c) c]> (repo w)) w
        else (Throw (GitHubApiError 409 (path +:+ " does not match " +:+ s)), w)
    | Some f, None =>
        (Throw (GitHubApiError 422 "Invalid request. sha was not supplied."), w)
    | None, Some s =>
        (Throw (GitHubApiError 422 "Invalid request. sha does not exist."), w)
    | None, None =>
        match children path (repo w) with
        | [] => set_repo (<[path := File (blob_sha c) c]> (repo w)) w
        | _ => (Throw (GitHubApiError 422 "Invalid request. path is a directory."), w)
        end
    end.

(** [makeRequest(url, {method: 'DELETE', body: {message, sha}})] *)
Definition DELETE (path : string) (sha_sent : option string) : M unit :=
  fun w =>
    match repo w !! path, sha_sent with
    | Some f, Some s =>
        if decide (s = sha f)
        then set_repo (delete path (repo w)) w
        else (Throw (GitHubApiError 409 (path +:+ " does not match " +:+ s)), w)
    | Some f, None =>
        (Throw (GitHubApiError 422 "Invalid request. sha was not supplied."), w)
    | None, _ => (Throw (GitHubApiError 404 "Not Found"), w)
    end.

(** ** [CryptoJS.enc.Hex] on whole bytes *)

Definition hex_value (c : ascii) : option N :=
  let n := N_of_ascii c in
  if decide (48 ≤ n ≤ 57)%N then Some (n - 48)%N
  else if decide (97 ≤ n ≤ 102)%N then Some (n - 87)%N
  else if decide (65 ≤ n ≤ 70)%N then Some (n - 55)%N
  else None.

(** [wordArray.toString(CryptoJS.enc.Hex)]: two lower-case digits a byte. *)
Fixpoint Hex_stringify (bytes : list Byte.byte) : string :=
  match bytes with
  | [] => ""
  | b :: rest =>
      let n := Byte.to_N b in
      String (hex_digit_lower (n / 16))
        (String (hex_digit_lower (n mod 16)) (Hex_stringify rest))
  end.

(** [CryptoJS.enc.Hex.parse(text)] when [text] is made of hexadecimal byte
    pairs; [None] for any other text. *)
Fixpoint Hex_parse (text : string) : option (list Byte.byte) :=
  match text with
  | EmptyString => Some []
  | String a (String b rest) =>
      match hex_value a, hex_value b with
      | Some hi, Some lo =>
          match Byte.of_N (16 * hi + lo), Hex_parse rest with
          | Some byte, Some bytes => Some (byte :: bytes)
          | _, _ => None
          end
      | _, _ => None
      end
  | String _ EmptyString => None
  end.

(** ** class SecurityManager *)

Module SecurityManager.

Record limit := Limit { max : Z; window : Z }.

(** [RATE_LIMITS[action]] *)
Definition RATE_LIMITS (action : string) : option limit :=
  if decide (action = "CREATE_FOLDER") then Some (Limit 5 3600000)
  else if decide (action = "CREATE_EMAIL") then Some (Limit 20 3600000)
  else if decide (action = "CREATE_VERSION") then Some (Limit 10 3600000)
  else if decide (action = "LIKE_ACTION") then Some (Limit 50 3600000)
  else if decide (action = "DOWNLOAD_ATTACHMENT") then Some (Limit 100 3600000)
  else None.

(** The methods the class declares, in the order of the source. *)
Definition declared_methods : list string :=
  [ "encryptContent"; "decryptContent"; "generateSecurePassword";
    "generateContentPassword"; "hashPassword"; "verifyPassword";
    "generateChecksum"; "checkRateLimit"; "generateShareableLink" ].

(** [charset[byte % charset.length]] for every random byte. *)
Definition pick (charset : string) (b : Byte.byte) : string :=
  match String.get (N.to_nat (Byte.to_N b mod N.of_nat (String.length charset))) charset with
  | Some c => String c ""
  | None => ""
  end.

Definition generateSecurePassword (randomBytes : list Byte.byte) : string :=
  let charset :=
    "abcdefghijklmnopqrstuvwxyzABCDEFGHIJKLMNOPQRSTUVWXYZ0123456789!@#$%^&*()_+-=[]{}|;:,.<>?" in
  join "" (List.map (pick charset) randomBytes).

Definition generateContentPassword (randomBytes : list Byte.byte) : string :=
  let charset :=
    "abcdefghijklmnopqrstuvwxyzABCDEFGHIJKLMNOPQRSTUVWXYZ0123456789!@#$%^&*" in
  join "" (List.map (pick charset) randomBytes).

Section WithPlatform.
Context `{Platform}.

Record hashed := Hashed { hash : string; salt : string }.

(** [hashPassword(password)]; [saltBytes] is the result of
    [CryptoJS.lib.WordArray.random(128/8)]. *)
Definition hashPassword (password : string) (saltBytes : list Byte.byte) : hashed :=
  let key := PBKDF2 password saltBytes in
  {| hash := Hex_stringify key; salt := Hex_stringify saltBytes |}.

(** [verifyPassword(password, storedHash, storedSalt)].  The stored values
    are read from a document and may be missing: [Hex.parse] of
    [undefined] or [null], and [storedHash.length] of [undefined] or
    [null], throw inside the [try], and the [catch] returns [false]. *)
Definition verifyPassword (password : string) (storedHash storedSalt : option json)
  : bool :=
  match storedSalt with
  | None | Some JNull => false
  | Some saltValue =>
      let key :=
        match saltValue with
        | JStr text =>
            match Hex_parse text with
            | Some saltBytes => PBKDF2 password saltBytes
            | None => PBKDF2_malformed_salt password text
            end
        | other => PBKDF2_malformed_salt password (JSON_stringify other)
        end in
      let computedHashStr := Hex_stringify key in
      match storedHash with
      | Some (JStr stored) => String.eqb computedHashStr stored
      | _ => false
      end
  end.

(** [generateChecksum(data)] *)
Definition generateChecksum (data : json) : string :=
  SHA256 (JSON_stringify data).

(** [await this.flagSuspiciousIP(ip, action)] inside [checkRateLimit],
    where [this] is the [SecurityManager]: the property is looked up among
    the methods of the class; [flagSuspiciousIP] is declared by
    [GitHubStorage] only, so the lookup gives [undefined] and the call
    throws. *)
Definition this_flagSuspiciousIP (ip action : string) : M unit :=
  if decide ("flagSuspiciousIP" ∈ declared_methods) then ret tt
  else throw (TypeError "this.flagSuspiciousIP is not a function").

(** [checkRateLimit(ip, action)]; [now] is the value of [Date.now()]. *)
Definition checkRateLimit (ip action : string) (now : Z) : M bool :=
  let* w := get_world in
  if decide (ip ∈ blacklistedIPs w) then ret false
  else
    let key := ip +:+ ":" +:+ action in
    let limit := RATE_LIMITS action in
    (match rateLimitCache w !! key with
     | Some _ => ret tt
     | None => set_rateLimitCache (<[key := []]> (rateLimitCache w))
     end) ;;
    let* w := get_world in
    let requests := default [] (rateLimitCache w !! key) in
    match limit with
    | None =>
        throw (TypeError (match requests with
                          | [] => "Cannot read properties of undefined (reading 'max')"
                          | _ => "Cannot read properties of undefined (reading 'window')"
                          end))
    | Some limit =>
        let recentRequests :=
          List.filter (fun time => bool_decide (now - time < window limit)) requests in
        if decide (max limit ≤ Z.of_nat (length recentRequests)) then
          this_flagSuspiciousIP ip action ;;
          ret false
        else
          set_rateLimitCache (<[key := (recentRequests ++ [now])%list]> (rateLimitCache w)) ;;
          ret true
    end.

(** [generateShareableLink(folderId, metadata)]; [now] is [Date.now()],
    [random] the text of [Math.random()], [aesSalt] the salt the cipher
    draws. *)
Definition generateShareableLink (folderId : string) (metadata : json)
    (now : Z) (random : string) (aesSalt : list Byte.byte) : string * string :=
  let token := String.substring 0 32 (SHA256 (folderId +:+ pretty now +:+ random)) in
  let encryptedData := AES_encrypt (JSON_stringify metadata) token aesSalt in
  (token, encryptedData).

End WithPlatform.

End SecurityManager.

(** ** Attachments: the form's check and class ContentValidator *)

(** An attachment as the form builds it: [{name, type, content, size}]. *)
Record attachment := Attachment {
  a_name : string;
  a_type : string;
  a_content : string;
  a_size : Z
}.

Definition json_of_attachment (a : attachment) : object :=
  [ ("name", JStr (a_name a)); ("type", JStr (a_type a));
    ("content", JStr (a_content a)); ("size", JNum (a_size a)) ].

(** The form data of an email: [{subject, body, attachments}]. *)
Record emailData := EmailData {
  subject : string;
  body : string;
  attachments : list attachment
}.

Module EmailForm.

Definition MAX_FILE_SIZE : Z := 5 * 1024 * 1024.
Definition ALLOWED_FILE_TYPES : list string :=
  [ "image/jpeg"; "image/png"; "application/pdf"; "text/plain" ].

(** [validateFile(file)]; of a browser [File] the check reads [name],
    [type] and [size]. *)
Definition validateFile (file : attachment) : result unit :=
  if decide (a_size file > MAX_FILE_SIZE) then
    Throw (Error ("File " +:+ a_name file +:+ " exceeds 5MB size limit"))
  else if negb (bool_decide (a_type file ∈ ALLOWED_FILE_TYPES)) then
    Throw (Error ("File type " +:+ a_type file +:+ " is not supported"))
  else Ok tt.

End EmailForm.

Module ContentValidator.

(** [validateEmail(email)] on the form data of an email; the empty text
    stands for a field that is missing or empty. *)
Definition validateEmail (email : emailData) : result unit :=
  let required := [ ("subject", subject email, 200); ("body", body email, 50000) ] in
  fold_right
    (fun '(field, value, maxSize) rest =>
       if String.eqb value "" then Throw (Error ("Missing required field: " +:+ field))
       else if decide (js_length value > maxSize) then
         Throw (Error (field +:+ " exceeds maximum size of " +:+ pretty maxSize
                       +:+ " characters"))
       else rest)
    (Ok tt) required.

Definition validateAttachment (a : attachment) : result unit :=
  let maxSize := 10 * 1024 * 1024 in
  let allowedTypes := [ "image/jpeg"; "image/png"; "application/pdf"; "text/plain" ] in
  if decide (a_size a > maxSize) then
    Throw (Error "Attachment exceeds maximum size of 10MB")
  else if negb (bool_decide (a_type a ∈ allowedTypes)) then
    Throw (Error "Invalid attachment type")
  else Ok tt.

End ContentValidator.

(** ** class GitHubStorage *)

(** The random values one call draws: [uuidv4()], the bytes of
    [crypto.getRandomValues], the salt of [hashPassword], the text of
    [Math.random()] and the salt of the cipher. *)
Record randomness := Randomness {
  uuid : string;
  passwordBytes : list Byte.byte;
  saltBytes : list Byte.byte;
  mathRandom : string;
  aesSalt : list Byte.byte
}.

(** [{name, targetEmail}]; the empty text stands for a missing field. *)
Record folderData := FolderData { fd_name : string; fd_targetEmail : string }.

(** [{...v}] for a value read from a document. *)
Definition spread (v : json) : object :=
  match v with
  | JObj fields => fields
  | JArr items => imap (fun i x => (pretty (Z.of_nat i), x)) items
  | JStr s => imap (fun i c => (pretty (Z.of_nat i), JStr (String c ""))) (list_ascii_of_string s)
  | _ => []
  end.

(** [v.k] for a value [v] that is not [null]. *)
Definition member (k : string) (v : json) : option json :=
  match v with
  | JObj fields => Obj.get k fields
  | _ => None
  end.

(** [a === b] on values read from two documents (two objects or arrays so
    obtained are never the same object). *)
Definition strict_eq (a b : option json) : bool :=
  match a, b with
  | None, None => true
  | Some JNull, Some JNull => true
  | Some (JBool x), Some (JBool y) => bool_decide (x = y)
  | Some (JNum x), Some (JNum y) => bool_decide (x = y)
  | Some (JStr x), Some (JStr y) => String.eqb x y
  | _, _ => false
  end.

(** [String(v)] *)
Fixpoint js_toString (v : json) : string :=
  match v with
  | JNull => "null"
  | JBool true => "true"
  | JBool false => "false"
  | JNum n => pretty n
  | JStr s => s
  | JArr items =>
      join "," (List.map (fun x => match x with JNull => "" | _ => js_toString x end) items)
  | JObj _ => "[object Object]"
  end.

Module GitHubStorage.
Import SecurityManager.

Definition SILENT : string := "silent".
Definition ACTIVE : string := "active".
Definition FLAGGED : string := "flagged".

Definition silent_path (folderId : string) : string :=
  "data/silent/folders/" +:+ folderId +:+ ".json".
Definition active_path (folderId : string) : string :=
  "data/folders/" +:+ folderId +:+ ".json".
Definition email_path (folderId emailId : string) : string :=
  "data/emails/" +:+ folderId +:+ "/" +:+ emailId +:+ ".json".
Definition link_path (token : string) : string :=
  "data/metadata/links/" +:+ token +:+ ".json".

Definition integrity_failure : exn := Error "Data integrity check failed".

(** [path.split('/').slice(0, -1).join('/')] *)
Fixpoint drop_last_segment (s : string) : option string :=
  match s with
  | EmptyString => None
  | String c rest =>
      match drop_last_segment rest with
      | Some p => Some (String c p)
      | None => if decide (c = "/"%char) then Some "" else None
      end
  end.
Definition parent_of (path : string) : string := default "" (drop_last_segment path).

Section WithPlatform.
Context `{Platform}.

(** [new Date(v).getTime()]; [None] is [NaN]. *)
Definition getTime_of (v : option json) : option Z :=
  match v with
  | None => None
  | Some JNull => Some 0
  | Some (JBool b) => Some (if b then 1 else 0)
  | Some (JNum n) => Some n
  | Some (JStr s) => Date_getTime s
  | Some other => Date_getTime (js_toString other)
  end.

(** [this.decodeContent(response.content)] *)
Definition response_content (r : response) : M json :=
  match r with
  | RFile (File _ (Some data)) => ret data
  | RFile (File _ None) => throw (SyntaxError "Unexpected end of JSON input")
  | RDir _ => throw (DOMException "The string to be decoded is not correctly encoded.")
  end.

(** [loadData(path)]; [None] is [null]. *)
Definition loadData (path : string) : M (option json) :=
  try_catch
    (let* response := GET path in
     let* data := response_content response in
     match data with
     | JNull => throw (TypeError "Cannot read properties of null (reading 'checksum')")
     | JObj fields =>
         let checksum := Obj.get "checksum" fields in
         if truthy checksum
            && negb (strict_eq checksum
                       (Some (JStr (generateChecksum (JObj (Obj.set "checksum" (JStr "") fields))))))
         then throw integrity_failure
         else ret (Some data)
     | _ => ret (Some data)
     end)
    (fun error => if is404 error then ret None else throw error).

(** The loop of [saveData] around the PUT request. *)
Fixpoint put_with_retries (retries : nat) (lastError : option exn)
    (path : string) (c : option json) (sha_sent : option string) : M unit :=
  match retries with
  | O => match lastError with Some e => throw e | None => ret tt end
  | S n =>
      try_catch (PUT path c sha_sent)
        (fun error =>
           if includes "409" (message error) then throw error
           else put_with_retries n (Some error) path c sha_sent)
  end.

(** The first [try] of [saveData]: the version token of the file that
    exists at [path], after the integrity check of its content. *)
Definition existing_sha (path : string) : M (option string) :=
  try_catch
    (let* existing := GET path in
     match existing with
     | RFile f =>
         if negb (String.eqb (sha f) "") then
           (match content f with
            | Some JNull =>
                throw (TypeError "Cannot read properties of null (reading 'checksum')")
            | Some (JObj fields) =>
                let checksum := Obj.get "checksum" fields in
                if truthy checksum
                   && negb (strict_eq checksum
                              (Some (JStr (generateChecksum (JObj fields)))))
                then throw integrity_failure
                else ret tt
            | _ => ret tt
            end) ;;
           ret (Some (sha f))
         else ret None
     | RDir _ => ret None
     end)
    (fun error => if is404 error then ret None else throw error).

(** [saveData(path, data)] for an object [data]. *)
Definition saveData (path : string) (data : object) : M unit :=
  let* existingSha := existing_sha path in
  put_with_retries 3 None path (Some (JObj data)) existingSha.

(** [deleteFile(path)] *)
Definition deleteFile (path : string) : M unit :=
  try_catch
    (let* file := GET path in
     DELETE path (match file with RFile f => Some (sha f) | RDir _ => None end))
    (fun error => if is404 error then ret tt else throw error).

(** [checkPathExists(path)] *)
Definition checkPathExists (path : string) : M bool :=
  try_catch (GET path ;; ret true)
    (fun error => if is404 error then ret false else throw error).

(** [ensureDirectoryExists(path)].  The recursion of the source has no
    bound; [fuel] bounds its depth here and [Diverge] is the outcome of
    a call that needs more. *)
Fixpoint ensureDirectoryExists (fuel : nat) (path : string) : M bool :=
  match fuel with
  | O => diverge
  | S fuel' =>
      try_catch
        (let* response := GET path in
         match response with
         | RDir _ => ret true
         | RFile _ => PUT (path +:+ "/.gitkeep") None None ;; ret true
         end)
        (fun error =>
           if is404 error then
             let parent := parent_of path in
             (if negb (String.eqb parent "") && negb (String.eqb parent "data")
              then ensureDirectoryExists fuel' parent ;; ret tt
              else ret tt) ;;
             ensureDirectoryExists fuel' path
           else throw error)
  end.

Definition directories : list string :=
  [ "data"; "data/folders"; "data/emails"; "data/attachments"; "data/silent";
    "data/silent/folders"; "data/blacklist"; "data/maliciousips";
    "data/metadata"; "data/metadata/links" ].

(** [initializeRepository()] *)
Definition initializeRepository (fuel : nat) : M unit :=
  let* w := get_world in
  if initialized w then ret tt
  else
    for_each (fun dir => ensureDirectoryExists fuel dir ;; ret tt) directories ;;
    set_initialized true.

(** [createFolder(folderData, ip)].  [origin] is
    [window.location.origin]. *)
Definition createFolder (fuel : nat) (folderData : folderData) (ip : string)
    (now : Z) (rnd : randomness) (origin : string) : M object :=
  try_catch
    (let* w := get_world in
     (if initialized w then ret tt else initializeRepository fuel) ;;
     let* allowed := checkRateLimit ip "CREATE_FOLDER" now in
     if negb allowed then throw (Error "Rate limit exceeded for folder creation")
     else
       let folderId := uuid rnd in
       for_each
         (fun dir =>
            let* exists_ := checkPathExists dir in
            if exists_ then ret tt
            else ensureDirectoryExists fuel dir ;; ret tt)
         [ "data/silent/folders"; "data/metadata/links" ] ;;
       let folderAdminPassword := generateSecurePassword (passwordBytes rnd) in
       let credentials := hashPassword folderAdminPassword (saltBytes rnd) in
       if String.eqb (fd_name folderData) "" || String.eqb (fd_targetEmail folderData) ""
       then throw (Error "Folder name and target email are required")
       else
         let folderMetadata : object :=
           [ ("id", JStr folderId);
             ("name", JStr (fd_name folderData));
             ("targetEmail", JStr (fd_targetEmail folderData));
             ("createdAt", JStr (toISOString now));
             ("updatedAt", JStr (toISOString now));
             ("status", JStr SILENT);
             ("creatorIP", JStr (SHA256 ip));
             ("adminHash", JStr (hash credentials));
             ("adminSalt", JStr (salt credentials));
             ("emails", JArr []);
             ("emailsLoaded", JBool true);
             ("checksum", JStr "") ] in
         let folderMetadata :=
           Obj.set "checksum" (JStr (generateChecksum (JObj folderMetadata))) folderMetadata in
         PUT (silent_path folderId) (Some (JObj folderMetadata)) None ;;
         let '(token, encryptedData) :=
           generateShareableLink folderId
             (JObj [ ("name", JStr (fd_name folderData));
                     ("createdAt", JStr (toISOString now)) ])
             now (mathRandom rnd) (aesSalt rnd) in
         let linkMetadata : object :=
           [ ("folderId", JStr folderId);
             ("encryptedData", JStr encryptedData);
             ("createdAt", JStr (toISOString now)) ] in
         PUT (link_path token) (Some (JObj linkMetadata)) None ;;
         ret (folderMetadata ++
              [ ("adminPassword", JStr folderAdminPassword);
                ("shareToken", JStr token);
                ("shareableLink", JStr (origin +:+ "/share/" +:+ token)) ])%list)
    (fun error => throw (Error ("Failed to create folder: " +:+ message error))).

(** [saveEmail(folderId, emailData, ip)].  The attachments are written
    one after the other. *)
Definition saveEmail (folderId : string) (emailData : emailData) (ip : string)
    (now : Z) (rnd : randomness) : M object :=
  let* allowed := checkRateLimit ip "CREATE_EMAIL" now in
  if negb allowed then throw (Error "Rate limit exceeded for email creation")
  else
    let* folder := loadData (active_path folderId) in
    if negb (truthy folder) then throw (Error "Folder not found")
    else
      let emailId := uuid rnd in
      let password := generateSecurePassword (passwordBytes rnd) in
      let credentials := hashPassword password (saltBytes rnd) in
      let emailMetadata : object :=
        [ ("id", JStr emailId);
          ("folderId", JStr folderId);
          ("subject", JStr (subject emailData));
          ("body", JStr (body emailData));
          ("attachments", JArr (List.map (fun a => JObj (json_of_attachment a))
                                         (attachments emailData)));
          ("createdAt", JStr (toISOString now));
          ("updatedAt", JStr (toISOString now));
          ("creatorIP", JStr (SHA256 ip));
          ("passwordHash", JStr (hash credentials));
          ("passwordSalt", JStr (salt credentials));
          ("likes", JNum 0);
          ("checksum", JStr "") ] in
      let emailMetadata :=
        Obj.set "checksum" (JStr (generateChecksum (JObj emailMetadata))) emailMetadata in
      saveData (email_path folderId emailId) emailMetadata ;;
      for_each
        (fun a =>
           let attachmentData :=
             Obj.set "checksum" (JStr (generateChecksum (JObj (json_of_attachment a))))
                     (json_of_attachment a) in
           saveData ("data/attachments/" +:+ folderId +:+ "/" +:+ emailId +:+ "/" +:+ a_name a)
                    attachmentData)
        (attachments emailData) ;;
      ret (emailMetadata ++ [ ("password", JStr password) ])%list.

(** [Number.MAX_SAFE_INTEGER + 1] *)
Definition two_to_53 : Z := 9007199254740992.

(** The new value of [likes] in [updateEmailLikes]:
    [action === 'increment' ? email.likes + 1 : Math.max(0, email.likes - 1)]. *)
Definition updated_likes (action : string) (likes : option json) : json :=
  if decide (action = "increment") then
    match likes with
    | Some (JNum n) =>
        if decide (Z.abs n < two_to_53) then JNum (n + 1) else plus_one_coerced likes
    | other => plus_one_coerced other
    end
  else
    match likes with
    | Some (JNum n) =>
        if decide (Z.abs n < two_to_53) then JNum (Z.max 0 (n - 1))
        else minus_one_clamped_coerced likes
    | other => minus_one_clamped_coerced other
    end.

(** [updateEmailLikes(folderId, emailId, action = 'increment')] *)
Definition updateEmailLikes (folderId emailId action : string) (now : Z) : M object :=
  let emailPath := email_path folderId emailId in
  let* email := loadData emailPath in
  match email with
  | Some email =>
      if negb (truthy (Some email)) then throw (Error "Email not found")
      else
        let updatedEmail :=
          Obj.set "updatedAt" (JStr (toISOString now))
            (Obj.set "likes" (updated_likes action (member "likes" email))
               (spread email)) in
        let updatedEmail :=
          Obj.set "checksum" (JStr (generateChecksum (JObj updatedEmail))) updatedEmail in
        saveData emailPath updatedEmail ;;
        ret updatedEmail
  | None => throw (Error "Email not found")
  end.

(** [loadEmails(folderId)] *)
Definition loadEmails (folderId : string) : M (list json) :=
  try_catch
    (let* folderExists :=
       try_catch (let* r := GET ("data/emails/" +:+ folderId) in ret (Some r))
         (fun error => if is404 error then ret None else throw error) in
     match folderExists with
     | None => ret []
     | Some (RFile _) => ret []
     | Some (RDir entries) =>
         let emailFiles := List.filter (fun e => endsWith ".json" (name e)) entries in
         let* emails :=
           map_all
             (fun e =>
                try_catch (loadData ("data/emails/" +:+ folderId +:+ "/" +:+ name e))
                  (fun _ => ret None))
             emailFiles in
         ret (omap id emails)
     end)
    (fun _ => ret []).

(** [loadEmailVersions(folderId, emailId)]; the result is in the order of
    the listing (the source sorts it by [version], which no caller
    modelled here reads). *)
Definition loadEmailVersions (folderId : string) (emailId : option json)
  : M (list json) :=
  try_catch
    (let* files := GET ("data/emails/" +:+ folderId +:+ "/versions") in
     match files with
     | RFile _ => throw (TypeError "files.filter is not a function")
     | RDir entries =>
         let* versions :=
           map_all
             (fun e => loadData ("data/emails/" +:+ folderId +:+ "/versions/" +:+ name e))
             (List.filter (fun e => endsWith ".json" (name e)) entries) in
         ret (List.filter
                (fun v => truthy (Some v) && strict_eq (member "originalEmailId" v) emailId)
                (omap id versions))
     end)
    (fun error => if is404 error then ret [] else throw error).

(** [email.likes || 0], for a [likes] that is a number or is falsy. *)
Definition likes_or_zero (email : json) : Z :=
  match member "likes" email with
  | Some (JNum n) => n
  | Some (JBool true) => 1
  | _ => 0
  end.

(** [getFolderInteractions(folderId)].  The counter of the source is
    assigned inside one [try]; what the [catch] returns is the value the
    counter had when the exception arrived: 0 from [loadEmails], the emails
    and their likes from the lookup of the versions. *)
Definition getFolderInteractions (folderId : string) : M Z :=
  try_catch
    (let* emails := loadEmails folderId in
     let interactionCount := Z.of_nat (length emails) in
     let emailLikes := fold_left (fun sum email => sum + likes_or_zero email) emails 0 in
     let interactionCount := interactionCount + emailLikes in
     try_catch
       (let* versions :=
          map_all (fun email => loadEmailVersions folderId (member "id" email)) emails in
        ret (interactionCount + Z.of_nat (length (concat versions))))
       (fun _ => ret interactionCount))
    (fun _ => ret 0).

Definition TIME_TO_APPROVE : Z := 24 * 60 * 60 * 1000.
Definition MIN_INTERACTIONS : Z := 5.

(** [checkFolderApproval(folderId)]; [None] is [null]. *)
Definition checkFolderApproval (folderId : string) (now : Z) : M (option json) :=
  let* silentFolder := loadData (silent_path folderId) in
  match silentFolder with
  | None => ret None
  | Some folder =>
      if negb (truthy (Some folder)) then ret None
      else
        let folderAge := (fun created => now - created) <$> getTime_of (member "createdAt" folder) in
        let* interactions := getFolderInteractions folderId in
        if (match folderAge with Some age => bool_decide (TIME_TO_APPROVE ≤ age) | None => false end)
           || bool_decide (MIN_INTERACTIONS ≤ interactions)
        then
          saveData (active_path folderId)
            (Obj.set "updatedAt" (JStr (toISOString now))
               (Obj.set "approvedAt" (JStr (toISOString now))
                  (Obj.set "status" (JStr ACTIVE) (spread folder)))) ;;
          deleteFile (silent_path folderId) ;;
          loadData (active_path folderId)
        else ret (Some folder)
  end.

(** [deletePath(path)]: every entry of a directory, or the single file. *)
Definition deletePath (path : string) : M unit :=
  try_catch
    (let* response := GET path in
     match response with
     | RDir entries =>
         for_each
           (fun item => try_catch (deleteFile (path +:+ "/" +:+ name item)) (fun _ => ret tt))
           entries
     | RFile _ => deleteFile path
     end)
    (fun error => if is404 error then ret tt else throw error).

(** The inner loop of [deleteFolderContentsWithRetry] for one path:
    [attempt] counts up to [maxRetries]. *)
Fixpoint deletePath_attempts (remaining : nat) (path : string) : M unit :=
  match remaining with
  | O => ret tt
  | S n =>
      try_catch (deletePath path)
        (fun error =>
           if bool_decide (n = O) && negb (is404 error) then throw error
           else deletePath_attempts n path)
  end.

(** [deleteFolderContentsWithRetry(folderId, maxRetries = 3)] *)
Definition deleteFolderContentsWithRetry (folderId : string) : M unit :=
  for_each (deletePath_attempts 3)
    [ "data/emails/" +:+ folderId;
      "data/attachments/" +:+ folderId;
      "data/emails/" +:+ folderId +:+ "/versions" ].

(** The clean-up of the share links at the end of [deleteFolder]; its
    failures are logged and dropped. *)
Definition deleteShareLinks (folderId : string) : M unit :=
  try_catch
    (let* linkFiles := GET "data/metadata/links" in
     match linkFiles with
     | RDir entries =>
         for_each
           (fun f =>
              try_catch
                (let* linkData := loadData ("data/metadata/links/" +:+ name f) in
                 match linkData with
                 | Some d =>
                     if truthy (Some d) && strict_eq (member "folderId" d) (Some (JStr folderId))
                     then deleteFile ("data/metadata/links/" +:+ name f)
                     else ret tt
                 | None => ret tt
                 end)
                (fun _ => ret tt))
           (List.filter (fun f => endsWith ".json" (name f)) entries)
     | RFile _ => ret tt
     end)
    (fun _ => ret tt).

(** [deleteFolder(folderId, adminPassword)] *)
Definition deleteFolder (folderId adminPassword : string) : M bool :=
  if String.eqb folderId "" then throw (Error "Folder ID is required")
  else if String.eqb adminPassword "" then throw (Error "Admin password is required")
  else
    let* silent := loadData (silent_path folderId) in
    let* located :=
      if truthy silent then ret (silent, silent_path folderId)
      else
        let* active := loadData (active_path folderId) in
        if truthy active then ret (active, active_path folderId)
        else throw (Error "Folder not found") in
    let '(folder, folderPath) := located in
    let folder := default JNull folder in
    let isValid :=
      verifyPassword adminPassword (member "adminHash" folder) (member "adminSalt" folder) in
    if negb isValid then throw (Error "Invalid folder admin password")
    else
      deleteFolderContentsWithRetry folderId ;;
      deleteFile folderPath ;;
      deleteShareLinks folderId ;;
      ret true.

(** [flagSuspiciousIP(ip, action)], a method of [GitHubStorage]. *)
Definition flagSuspiciousIP (ip action : string) (now : Z) : M unit :=
  let ipHash := SHA256 ip in
  let* w := get_world in
  match rateLimitCache w !! (ip +:+ ":" +:+ action) with
  | None => throw (TypeError "Cannot read properties of undefined (reading 'length')")
  | Some requests =>
      saveData ("data/maliciousips/" +:+ ipHash +:+ ".json")
        [ ("ipHash", JStr ipHash);
          ("action", JStr action);
          ("timestamp", JStr (toISOString now));
          ("attempts", JNum (Z.of_nat (length requests))) ]
  end.

Definition blacklist_path : string := "data/blacklist/ips.json".

(** [blacklist.ips.includes(ipHash)] *)
Definition ips_include (ips : list json) (ipHash : string) : bool :=
  existsb (fun x => strict_eq (Some x) (Some (JStr ipHash))) ips.

(** [isIPBlacklisted(ip)] *)
Definition isIPBlacklisted (ip : string) : M bool :=
  let ipHash := SHA256 ip in
  let* blacklist := loadData blacklist_path in
  match blacklist with
  | Some b =>
      if truthy (Some b) then
        match member "ips" b with
        | Some (JArr ips) => ret (ips_include ips ipHash)
        | _ => throw (TypeError "blacklist.ips.includes is not a function")
        end
      else ret false
  | None => ret false
  end.

Definition REPORTS_THRESHOLD : Z := 3.
Definition TIME_WINDOW : Z := 7 * 24 * 60 * 60 * 1000.

(** [reportAge <= TIME_WINDOW] for one element of [reports]. *)
Definition is_recent (now : Z) (report : json) : bool :=
  match getTime_of (member "timestamp" report) with
  | Some t => bool_decide (now - t ≤ TIME_WINDOW)
  | None => false
  end.

(** [addToBlacklist(ip, evidence)].  The embedding covers a blacklist
    document of the shape the source writes,
    [{ips: [...], entries: {...}, pendingReports: {hash: {reports: [...]}}}];
    where a member has another shape it raises the [TypeError] the source
    raises for a member that is missing. *)
Definition addToBlacklist (ip : string) (evidence : json) (now : Z) : M unit :=
  let ipHash := SHA256 ip in
  let* loaded := loadData blacklist_path in
  let blacklist : object :=
    if truthy loaded then spread (default JNull loaded)
    else [ ("ips", JArr []); ("entries", JObj []); ("pendingReports", JObj []) ] in
  match Obj.get "pendingReports" blacklist with
  | Some (JObj pendingReports) =>
      let pendingReports :=
        if truthy (Obj.get ipHash pendingReports) then pendingReports
        else Obj.set ipHash
               (JObj [ ("reports", JArr []); ("firstReportedAt", JStr (toISOString now)) ])
               pendingReports in
      match Obj.get ipHash pendingReports with
      | Some (JObj pending) =>
          match Obj.get "reports" pending with
          | Some (JArr reports) =>
              let reports :=
                (reports ++ [ JObj [ ("timestamp", JStr (toISOString now));
                                     ("evidence", evidence) ] ])%list in
              let pendingReports :=
                Obj.set ipHash (JObj (Obj.set "reports" (JArr reports) pending)) pendingReports in
              let blacklist := Obj.set "pendingReports" (JObj pendingReports) blacklist in
              if existsb (fun r => match r with JNull => true | _ => false end) reports
              then throw (TypeError "Cannot read properties of null (reading 'timestamp')")
              else
                let recentReports := List.filter (is_recent now) reports in
                match Obj.get "ips" blacklist with
                | Some (JArr ips) =>
                    if bool_decide (REPORTS_THRESHOLD ≤ Z.of_nat (length recentReports))
                       && negb (ips_include ips ipHash)
                    then
                      match Obj.get "entries" blacklist with
                      | Some (JObj entries) =>
                          let blacklist :=
                            Obj.set "ips" (JArr (ips ++ [JStr ipHash])%list) blacklist in
                          let blacklist :=
                            Obj.set "entries"
                              (JObj (Obj.set ipHash
                                       (JObj [ ("timestamp", JStr (toISOString now));
                                               ("reports", JArr recentReports) ])
                                       entries))
                              blacklist in
                          let blacklist :=
                            Obj.set "pendingReports" (JObj (Obj.remove ipHash pendingReports))
                                    blacklist in
                          let* w := get_world in
                          set_blacklistedIPs ({[ ip ]} ∪ blacklistedIPs w) ;;
                          saveData blacklist_path blacklist
                      | _ => throw (TypeError "Cannot set properties of undefined")
                      end
                    else saveData blacklist_path blacklist
                | _ =>
                    if bool_decide (REPORTS_THRESHOLD ≤ Z.of_nat (length recentReports))
                    then throw (TypeError "blacklist.ips.includes is not a function")
                    else saveData blacklist_path blacklist
                end
          | _ => throw (TypeError "Cannot read properties of undefined (reading 'push')")
          end
      | _ => throw (TypeError "Cannot read properties of undefined (reading 'push')")
      end
  | _ => throw (TypeError "Cannot read properties of undefined (reading 'pendingReports')")
  end.



(** [(originalEmail.version || 1) + 1] *)
Definition next_version (version : option json) : json :=
  if truthy version then
    match version with
    | Some (JNum n) => JNum (n + 1)
    | Some (JBool _) => JNum 2
    | Some other => JStr (js_toString other +:+ "1")
    | None => JNum 2
    end
  else JNum 2.

(** [createEmailVersion(folderId, emailId, modifications)]; [versionId] is
    the result of [uuidv4()]. *)
Definition createEmailVersion (folderId emailId : string) (modifications : object)
    (now : Z) (versionId : string) : M object :=
  let* originalEmail := loadData (email_path folderId emailId) in
  if negb (truthy originalEmail) then throw (Error "Original email not found")
  else
    let originalEmail := default JNull originalEmail in
    let emailVersion :=
      Obj.set "likes" (JNum 0)
        (Obj.set "version" (next_version (member "version" originalEmail))
           (Obj.set "updatedAt" (JStr (toISOString now))
              (Obj.set "createdAt" (JStr (toISOString now))
                 (fold_left (fun o kv => Obj.set (fst kv) (snd kv) o) modifications
                    (Obj.set "originalEmailId" (JStr emailId)
                       (Obj.set "id" (JStr versionId) (spread originalEmail))))))) in
    let emailVersion :=
      Obj.set "checksum" (JStr (generateChecksum (JObj emailVersion))) emailVersion in
    saveData ("data/emails/" +:+ folderId +:+ "/versions/" +:+ versionId +:+ ".json")
             emailVersion ;;
    ret emailVersion.

(** [forkFolder(folderId, newOwnerPassword)] *)
Definition forkFolder (folderId newOwnerPassword : string) (now : Z) (rnd : randomness)
  : M object :=
  let* folder := loadData (active_path folderId) in
  let credentials := hashPassword newOwnerPassword (saltBytes rnd) in
  let forkedFolder :=
    Obj.set "status" (JStr SILENT)
      (Obj.set "adminSalt" (JStr (salt credentials))
         (Obj.set "adminHash" (JStr (hash credentials))
            (Obj.set "forkedAt" (JStr (toISOString now))
               (Obj.set "forkedFrom" (JStr folderId)
                  (Obj.set "id" (JStr (uuid rnd)) (spread (default JNull folder))))))) in
  saveData (silent_path (uuid rnd)) forkedFolder ;;
  ret (Obj.set "adminPassword" (JStr newOwnerPassword) forkedFolder).

(** [deleteContent(path, password, adminOverride = false)]; [adminHash]
    and [adminSalt] are the two values of the environment,
    [VITE_ADMIN_PASSWORD_HASH] and [VITE_ADMIN_PASSWORD_SALT]. *)
Definition deleteContent (path password : string) (adminOverride : bool)
    (adminHash adminSalt : option string) : M unit :=
  let* content := loadData path in
  if negb (truthy content) then throw (Error "Content not found")
  else
    let content := default JNull content in
    (if adminOverride then
       if negb (verifyPassword password (JStr <$> adminHash) (JStr <$> adminSalt))
       then throw (Error "Invalid admin password")
       else ret tt
     else
       if negb (verifyPassword password (member "passwordHash" content)
                  (member "passwordSalt" content))
       then throw (Error "Invalid password")
       else ret tt) ;;
    let* file := GET path in
    DELETE path (match file with RFile f => Some (sha f) | RDir _ => None end).

(** [handleInteraction(folderId)] *)
Definition handleInteraction (folderId : string) (now : Z) : M unit :=
  let* folder := loadData (silent_path folderId) in
  if truthy folder && strict_eq (member "status" (default JNull folder)) (Some (JStr SILENT))
  then checkFolderApproval folderId now ;; ret tt
  else ret tt.

Context `{Library}.

(** [`${v}`] for a member read from a document. *)
Definition template (v : option json) : string :=
  match v with
  | None => "undefined"
  | Some x => js_toString x
  end.

(** [loadFolderByShareToken(token)] *)
Definition loadFolderByShareToken (token : string) : M object :=
  try_catch
    (let* linkData := loadData (link_path token) in
     if negb (truthy linkData) then throw (Error "Invalid share token")
     else
       let linkData := default JNull linkData in
       let folderId := template (member "folderId" linkData) in
       let* active := loadData (active_path folderId) in
       let* folder :=
         if truthy active then ret active else loadData (silent_path folderId) in
       if negb (truthy folder) then throw (Error "Folder not found")
       else
         match AES_decrypt_parse (member "encryptedData" linkData) token with
         | inr shareMetadata =>
             ret (Obj.set "shareMetadata" shareMetadata (spread (default JNull folder)))
         | inl message => throw (Error message)
         end)
    (fun _ => throw (Error "Invalid share token")).



End WithPlatform.
End GitHubStorage.

(** ** A concrete platform, for the examples

    Every digest is injective: the digest of a text is the text behind a
    mark, a derived key is the password followed by the salt, a date is
    written as its time value in decimal. *)

Module Example.

Fixpoint parse_digits (acc : Z) (s : string) : option Z :=
  match s with
  | EmptyString => Some acc
  | String c rest =>
      match Ascii.is_nat c with
      | Some d => parse_digits (10 * acc + Z.of_nat d) rest
      | None => None
      end
  end.

Definition parse_time (s : string) : option Z :=
  match s with
  | EmptyString => None
  | String c rest =>
      if decide (c = "-"%char) then
        match rest with
        | EmptyString => None
        | _ => Z.opp <$> parse_digits 0 rest
        end
      else parse_digits 0 s
  end.

#[export] Instance platform : Platform := {|
  SHA256 := fun s => "#" +:+ s;
  PBKDF2 := fun p saltBytes => (String.list_byte_of_string p ++ saltBytes)%list;
  PBKDF2_malformed_salt := fun p text => String.list_byte_of_string (p +:+ "?" +:+ text);
  AES_encrypt := fun m k _ => k +:+ "|" +:+ m;
  toISOString := fun t => pretty t;
  Date_getTime := parse_time;
  blob_sha := fun c => match c with Some d => "@" +:+ JSON_stringify d | None => "@" end;
  plus_one_coerced := fun _ => JNull;
  minus_one_clamped_coerced := fun _ => JNull
|}.

(** The same platform with a digest that collides everywhere: every
    checksum it computes passes both integrity checks. *)
Definition colliding_digest : Platform := {|
  SHA256 := fun _ => "#";
  PBKDF2 := PBKDF2 (Platform := platform);
  PBKDF2_malformed_salt := PBKDF2_malformed_salt (Platform := platform);
  AES_encrypt := AES_encrypt (Platform := platform);
  toISOString := toISOString (Platform := platform);
  Date_getTime := Date_getTime (Platform := platform);
  blob_sha := blob_sha (Platform := platform);
  plus_one_coerced := plus_one_coerced (Platform := platform);
  minus_one_clamped_coerced := minus_one_clamped_coerced (Platform := platform)
|}.

(** A new singleton over an empty repository. *)
Definition fresh : world := World ∅ ∅ ∅ false.

(** A new singleton over a repository that holds the directory skeleton. *)
Definition with_directories : world :=
  World
    (list_to_map
       (List.map (fun d => (d +:+ "/.gitkeep", File "@" None)) GitHubStorage.directories))
    ∅ ∅ false.

(** A new page load: the same repository, a new [SecurityManager]. *)
Definition reload (w : world) : world := World (repo w) ∅ ∅ false.

Definition draw (id : string) : randomness :=
  Randomness id [Byte.x00; Byte.x01; Byte.x02] [Byte.xab; Byte.xcd] "0.5" [Byte.x07].

(** The world a call leaves behind. *)
Definition after {A} (m : M A) (w : world) : world := snd (m w).

(** The value a call returns, or [d] when it returns none. *)
Definition returned {A} (d : A) (m : M A) (w : world) : A :=
  match fst (m w) with Ok a => a | _ => d end.

End Example.

(** The two further library calls on the example platform: letters of the
    ASCII alphabet are lowered, and a ciphertext opens with the passphrase
    it was made with, giving its plaintext as a text. *)
Module ExampleLibrary.

Definition lower (c : ascii) : ascii :=
  let n := N_of_ascii c in
  if decide (65 ≤ n ≤ 90)%N then ascii_of_N (n + 32) else c.

Fixpoint lowered (s : string) : string :=
  match s with
  | EmptyString => ""
  | String c rest => String (lower c) (lowered rest)
  end.

Definition opened (ciphertext : option json) (passphrase : string) : string + json :=
  match ciphertext with
  | Some (JStr text) =>
      match strip_prefix (passphrase +:+ "|") text with
      | Some plaintext => inr (JStr plaintext)
      | None => inl "Malformed UTF-8 data"
      end
  | _ => inl "Malformed UTF-8 data"
  end.

#[export] Instance library : Library := {|
  toLowerCase := lowered;
  AES_decrypt_parse := opened
|}.

End ExampleLibrary.

(** * The vocabulary of the properties *)

(** The closed examples below run on the example platform; every other
    statement binds its own [Platform]. *)
#[global] Existing Instance Example.platform | 100.
#[global] Existing Instance ExampleLibrary.library | 100.

(** ** Computations *)

(** A computation that leaves the world as it found it. *)
Definition readonly {A} (m : M A) : Prop := ∀ w, snd (m w) = w.

(** The world with other tables in its [SecurityManager]. *)
Definition with_limiter (w : world) (cache : gmap string (list Z)) (blacklist : gset string)
  : world :=
  World (repo w) cache blacklist (initialized w).

(** A computation that neither reads nor writes the two tables of the
    [SecurityManager]: run with other tables, it gives the same outcome and
    the same world, the tables apart. *)
Definition ignores_limiter {A} (m : M A) : Prop :=
  ∀ w cache blacklist,
    m (with_limiter w cache blacklist)
    = (fst (m w), with_limiter (snd (m w)) cache blacklist).

(** The exceptions of the storage layer over the remote of the embedding:
    the failed integrity check, a content that does not decode to an
    object, an answer that is not [ok]. *)
Definition storage_error (e : exn) : Prop :=
  e = GitHubStorage.integrity_failure
  ∨ exn_name e ∈ [ "SyntaxError"; "InvalidCharacterError"; "TypeError" ]
  ∨ ∃ status text, e = GitHubApiError status text.

(** [m] ends, and every exception it throws satisfies [P]. *)
Definition fails_only {A} (P : exn → Prop) (m : M A) : Prop :=
  ∀ w, match fst (m w) with
       | Ok _ => True
       | Throw e => P e
       | Diverge => False
       end.

(** Any exception, and none. *)
Definition anything (e : exn) : Prop := True.
Definition nothing (e : exn) : Prop := False.

(** A computation that never takes an address off the in-memory
    blacklist. *)
Definition blacklist_grows {A} (m : M A) : Prop :=
  ∀ w, blacklistedIPs w ⊆ blacklistedIPs (snd (m w)).

(** ** What is stored and recorded *)

Definition rate_key (ip action : string) : string := ip +:+ ":" +:+ action.

(** The timestamps recorded for an address and an action. *)
Definition recorded (w : world) (ip action : string) : list Z :=
  default [] (rateLimitCache w !! rate_key ip action).

(** The recorded timestamps that are still inside the window at [now]. *)
Definition recent (now : Z) (l : SecurityManager.limit) (requests : list Z) : list Z :=
  List.filter (fun time => bool_decide (now - time < SecurityManager.window l)) requests.

(** The world once [checkRateLimit] has made sure the key has a record. *)
Definition touched (w : world) (ip action : string) : world :=
  match rateLimitCache w !! rate_key ip action with
  | Some _ => w
  | None =>
      World (repo w) (<[rate_key ip action := []]> (rateLimitCache w))
            (blacklistedIPs w) (initialized w)
  end.

(** [doc] is what [loadData] returns for [path], and it is truthy. *)
Definition retrievable `{Platform} (w : world) (path : string) (doc : json) : Prop :=
  fst (GitHubStorage.loadData path w) = Ok (Some doc) ∧ truthy (Some doc) = true.

(** [deleteFolder] finds [folder]: in the silent location, or in the active
    one when the silent location has nothing. *)
Definition located `{Platform} (w : world) (folderId : string) (folder : json) : Prop :=
  retrievable w (GitHubStorage.silent_path folderId) folder
  ∨ ((∃ nothing, fst (GitHubStorage.loadData (GitHubStorage.silent_path folderId) w) = Ok nothing
                 ∧ truthy nothing = false)
     ∧ retrievable w (GitHubStorage.active_path folderId) folder).

(** The likes stored for an email. *)
Definition stored_likes (w : world) (folderId emailId : string) : option json :=
  match repo w !! GitHubStorage.email_path folderId emailId with
  | Some (File _ (Some doc)) => member "likes" doc
  | _ => None
  end.

(** The sum of [email.likes || 0] over the emails. *)
Definition total_likes (emails : list json) : Z :=
  fold_left (fun sum email => sum + GitHubStorage.likes_or_zero email) emails 0.

(** The text of one member of an object in [JSON.stringify]. *)
Definition member_text (kv : string * json) : string :=
  quote (fst kv) +:+ ":" +:+ JSON_stringify (snd kv).

(** The approval condition of [checkFolderApproval] at time [now]. *)
Definition due_for_approval `{Platform} (w : world) (folderId : string) (folder : json) (now : Z)
  : Prop :=
  (∃ created, GitHubStorage.getTime_of (member "createdAt" folder) = Some created
              ∧ 24 * 60 * 60 * 1000 ≤ now - created)
  ∨ (∃ interactions, fst (GitHubStorage.getFolderInteractions folderId w) = Ok interactions
                     ∧ 5 ≤ interactions).

(** The blacklist document [addToBlacklist] starts from. *)
Definition empty_blacklist : object :=
  [ ("ips", JArr []); ("entries", JObj []); ("pendingReports", JObj []) ].

Definition blacklist_document (w : world) : object :=
  match repo w !! GitHubStorage.blacklist_path with
  | Some (File _ (Some d)) => if truthy (Some d) then spread d else empty_blacklist
  | _ => empty_blacklist
  end.

(** The hash of the address is on the stored list [ips]. *)
Definition listed `{Platform} (w : world) (ip : string) : bool :=
  match Obj.get "ips" (blacklist_document w) with
  | Some (JArr ips) => GitHubStorage.ips_include ips (SHA256 ip)
  | _ => false
  end.

(** The pending reports stored for the address. *)
Definition reports_on `{Platform} (w : world) (ip : string) : list json :=
  match Obj.get "pendingReports" (blacklist_document w) with
  | Some (JObj pendingReports) =>
      match Obj.get (SHA256 ip) pendingReports with
      | Some (JObj pending) =>
          match Obj.get "reports" pending with
          | Some (JArr reports) => reports
          | _ => []
          end
      | _ => []
      end
  | _ => []
  end.

(** The report [addToBlacklist] appends. *)
Definition new_report `{Platform} (now : Z) (evidence : json) : json :=
  JObj [ ("timestamp", JStr (toISOString now)); ("evidence", evidence) ].

(** ** Requests to the singleton *)

(** A request of the application to its singleton. *)
Inductive call : Type :=
| CreateFolder (fuel : nat) (data : folderData) (ip : string) (now : Z)
               (rnd : randomness) (origin : string)
| SaveEmail (folderId : string) (data : emailData) (ip : string) (now : Z) (rnd : randomness)
| UpdateEmailLikes (folderId emailId action : string) (now : Z)
| CheckFolderApproval (folderId : string) (now : Z)
| DeleteFolder (folderId password : string)
| AddToBlacklist (ip : string) (evidence : json) (now : Z)
| IsIPBlacklisted (ip : string)
| FlagSuspiciousIP (ip action : string) (now : Z)
| CheckRateLimit (ip action : string) (now : Z).

(** The world after a request, whatever its outcome. *)
Definition perform `{Platform} (c : call) (w : world) : world :=
  match c with
  | CreateFolder fuel data ip now rnd origin =>
      snd (GitHubStorage.createFolder fuel data ip now rnd origin w)
  | SaveEmail folderId data ip now rnd =>
      snd (GitHubStorage.saveEmail folderId data ip now rnd w)
  | UpdateEmailLikes folderId emailId action now =>
      snd (GitHubStorage.updateEmailLikes folderId emailId action now w)
  | CheckFolderApproval folderId now => snd (GitHubStorage.checkFolderApproval folderId now w)
  | DeleteFolder folderId password => snd (GitHubStorage.deleteFolder folderId password w)
  | AddToBlacklist ip evidence now => snd (GitHubStorage.addToBlacklist ip evidence now w)
  | IsIPBlacklisted ip => snd (GitHubStorage.isIPBlacklisted ip w)
  | FlagSuspiciousIP ip action now => snd (GitHubStorage.flagSuspiciousIP ip action now w)
  | CheckRateLimit ip action now => snd (SecurityManager.checkRateLimit ip action now w)
  end.

Definition perform_all `{Platform} (calls : list call) (w : world) : world :=
  fold_left (fun w c => perform c w) calls w.

(** Reports against one address, one second apart from [start] on. *)
Fixpoint report_times (ip : string) (start : Z) (count : nat) : list call :=
  match count with
  | O => []
  | S n => AddToBlacklist ip (JStr "spam") start :: report_times ip (start + 1000) n
  end.

(** ** Three statements of the specification, word for word *)

(** C2: both boundaries reject an attachment of 6,000,000 bytes and type
    [image/png]. *)
Definition attachment_claim_as_stated : Prop :=
  ∀ a : attachment,
    a_size a = 6000000 → a_type a = "image/png" →
    (∃ e, EmailForm.validateFile a = Throw e)
    ∧ (∃ e, ContentValidator.validateAttachment a = Throw e).

(** C10: [updateEmailLikes] returns the updated email, or fails because the
    email is missing, or fails because the write failed after the email was
    read. *)
Definition likes_claim_as_stated `{Platform} : Prop :=
  ∀ (w : world) (folderId emailId action : string) (now : Z),
    let r := GitHubStorage.updateEmailLikes folderId emailId action now w in
    (∃ updated, fst r = Ok updated)
    ∨ fst r = Throw (Error "Email not found")
    ∨ (∃ email e,
         fst (GitHubStorage.loadData (GitHubStorage.email_path folderId emailId) w)
           = Ok (Some email)
         ∧ fst r = Throw e).

(** C5: once a successful [addToBlacklist] leaves at least 3 reports of the
    address inside the window, the hash is on the stored list and
    [checkRateLimit] denies the address. *)
Definition blacklist_claim_as_stated `{Platform} : Prop :=
  ∀ (w w' : world) (ip : string) (evidence : json) (now : Z),
    GitHubStorage.addToBlacklist ip evidence now w = (Ok tt, w') →
    (3 ≤ length (List.filter (GitHubStorage.is_recent now)
                   (reports_on w ip ++ [new_report now evidence])))%nat →
    listed w' ip = true
    ∧ ∀ (action : string) (later : Z),
        fst (SecurityManager.checkRateLimit ip action later w') = Ok false.

(** ** The worlds of the examples *)

(** A folder made by [createFolder] on the example platform, an email and an
    attachment stored under it, and [deleteFolder] with a wrong password. *)
Definition example_folder_world : world :=
  let w := Example.after
             (GitHubStorage.createFolder 3 (FolderData "Test" "a@b.com") "1.2.3.4" 1000
                (Example.draw "f-1") "https://example.org")
             Example.with_directories in
  World (<["data/emails/f-1/e-1.json" := File "@e" (Some (JObj [("id", JStr "e-1"); ("likes", JNum 0)]))]>
           (<["data/attachments/f-1/e-1/a.txt" := File "@a" (Some (JObj [("name", JStr "a.txt")]))]>
              (repo w)))
        (rateLimitCache w) (blacklistedIPs w) (initialized w).

(** An email stored by [saveEmail] under an active folder of the example
    platform, with [likes = 0] and the checksum [saveEmail] computes. *)
Definition example_email_world : world :=
  Example.after
    (GitHubStorage.saveEmail "f-1" (EmailData "Hello" "Dear Sir" []) "1.2.3.4" 2000
       (Example.draw "e-1"))
    (World {[ GitHubStorage.active_path "f-1" :=
                File "@f" (Some (JObj [ ("id", JStr "f-1"); ("status", JStr "active") ])) ]}
           ∅ ∅ true).

(** An email with [likes = 0] that carries no checksum. *)
Definition plain_email_world : world :=
  World {[ GitHubStorage.email_path "f-1" "e-1" :=
             File "@e" (Some (JObj [ ("id", JStr "e-1"); ("likes", JNum 0) ])) ]}
        ∅ ∅ true.

(** An email whose stored checksum is not the digest of its content. *)
Definition tampered_email_world : world :=
  World {[ GitHubStorage.email_path "f-1" "e-1" :=
             File "@e" (Some (JObj [ ("id", JStr "e-1"); ("likes", JNum 0);
                                     ("checksum", JStr "tampered") ])) ]}
        ∅ ∅ true.

(** A folder created on the example platform over the directory skeleton. *)
Definition created_folder_world : world :=
  Example.after
    (GitHubStorage.createFolder 3 (FolderData "Test" "a@b.com") "1.2.3.4" 1000
       (Example.draw "f-1") "https://example.org")
    Example.with_directories.


(** Two reports against 6.6.6.6 on a new singleton over an empty
    repository. *)
Definition two_reports_world : world :=
  perform_all (report_times "6.6.6.6" 1000 2) Example.fresh.

(** The address was promoted by a third report, the page was loaded again,
    and two more reports came in. *)
Definition relisted_world : world :=
  perform_all (report_times "6.6.6.6" 4000 2)
    (Example.reload (perform (AddToBlacklist "6.6.6.6" (JStr "spam") 3000) two_reports_world)).

(** ** Paths, documents and what a call may touch *)

(** A text of ASCII characters. *)
Definition ascii_text (s : string) : bool :=
  forallb (fun c => (N_of_ascii c <? 128)%N) (list_ascii_of_string s).


(** A subject of 150 letters outside ASCII, two bytes each. *)
Definition accented_subject : string :=
  fold_right append "" (repeat "é" 150).

(** Every character of [s] is one of [charset]. *)
Definition made_of (charset s : string) : Prop :=
  Forall (fun c => c ∈ list_ascii_of_string charset) (list_ascii_of_string s).

(** An action of [RATE_LIMITS] holds no colon. *)
Definition colon_free (s : string) : Prop := ":"%char ∉ list_ascii_of_string s.

(** Nothing is stored at [path] and nothing below it. *)
Definition missing (w : world) (path : string) : Prop :=
  repo w !! path = None ∧ children path (repo w) = [].

(** The path is a directory: no file is stored at it, files are stored
    below it. *)
Definition is_directory (w : world) (path : string) : Prop :=
  repo w !! path = None ∧ children path (repo w) ≠ [].

(** The name of an entry holds no slash. *)
Definition slash_free (s : string) : Prop := "/"%char ∉ list_ascii_of_string s.

(** A computation that leaves every file whose path is not in [P] as it
    is, whatever its outcome. *)
Definition touches_only {A} (P : string → Prop) (m : M A) : Prop :=
  ∀ w k, ¬ P k → repo (snd (m w)) !! k = repo w !! k.

(** Every value the computation returns satisfies [Q]. *)
Definition returns_only {A} (Q : A → Prop) (m : M A) : Prop :=
  ∀ w a, fst (m w) = Ok a → Q a.

(** The paths [deletePath] can delete: [path] itself and the entries
    directly below it. *)
Definition at_or_directly_below (path key : string) : Prop :=
  key = path ∨ ∃ entry_name, slash_free entry_name ∧ key = path +:+ "/" +:+ entry_name.

(** The paths the clean-up of the share links can delete. *)
Definition share_link (key : string) : Prop :=
  ∃ entry_name, key = "data/metadata/links/" +:+ entry_name.

(** The paths [deleteFolder] can delete. *)
Definition deletable_with_folder (folderId key : string) : Prop :=
  key = GitHubStorage.silent_path folderId
  ∨ key = GitHubStorage.active_path folderId
  ∨ at_or_directly_below ("data/emails/" +:+ folderId) key
  ∨ at_or_directly_below ("data/attachments/" +:+ folderId) key
  ∨ at_or_directly_below ("data/emails/" +:+ folderId +:+ "/versions") key
  ∨ share_link key.

(** A document [loadData] accepts: its checksum is falsy, or it is the
    digest of the document with the checksum cleared. *)
Definition verifiable `{Platform} (data : object) : Prop :=
  truthy (Obj.get "checksum" data) = false
  ∨ Obj.get "checksum" data
    = Some (JStr (SecurityManager.generateChecksum
                    (JObj (Obj.set "checksum" (JStr "") data)))).

(** What [saveData] can write over: nothing is stored at the path, or an
    object whose checksum is falsy. *)
Definition writable (w : world) (path : string) : Prop :=
  missing w path
  ∨ ∃ f fields, repo w !! path = Some f ∧ sha f ≠ "" ∧ content f = Some (JObj fields)
                ∧ truthy (Obj.get "checksum" fields) = false.

(** The folder is not yet to be approved at [now]: its age is unknown or
    below 24 hours, and it counts fewer than 5 interactions. *)
Definition not_due `{Platform} (w : world) (folderId : string) (folder : json) (now : Z) : Prop :=
  (∀ created, GitHubStorage.getTime_of (member "createdAt" folder) = Some created →
              now - created < 24 * 60 * 60 * 1000)
  ∧ ∃ interactions, fst (GitHubStorage.getFolderInteractions folderId w) = Ok interactions
                    ∧ interactions < 5.

(** The document [checkFolderApproval] writes to the active path. *)
Definition approved `{Platform} (folder : object) (now : Z) : object :=
  Obj.set "updatedAt" (JStr (toISOString now))
    (Obj.set "approvedAt" (JStr (toISOString now))
       (Obj.set "status" (JStr "active") folder)).

(** A path below [data/attachments]. *)
Definition attachment_path (key : string) : Prop :=
  ∃ rest, key = "data/attachments/" +:+ rest.

(** An active folder of the example platform. *)
Definition active_folder_world : world :=
  World {[ GitHubStorage.active_path "f-1" :=
             File "@f" (Some (JObj [ ("id", JStr "f-1"); ("status", JStr "active") ])) ]}
        ∅ ∅ true.

(** The path of a version of an email. *)
Definition version_path (folderId versionId : string) : string :=
  "data/emails/" +:+ folderId +:+ "/versions/" +:+ versionId +:+ ".json".

(** The email of the example as it is stored. *)
Definition example_email : object :=
  Eval vm_compute in
    match repo example_email_world !! GitHubStorage.email_path "f-1" "e-1" with
    | Some (File _ (Some (JObj email))) => email
    | _ => []
    end.


(** The path of the report on an address. *)
Definition flag_path `{Platform} (ip : string) : string :=
  "data/maliciousips/" +:+ SHA256 ip +:+ ".json".






(** * Properties *)

(** ** Objects *)

Lemma Obj_get_set_eq k v o : Obj.get k (Obj.set k v o) = Some v.
Proof.
  induction o as [|[k' v'] rest IH]; simpl.
  - by rewrite decide_True.
  - destruct (decide (k' = k)) as [->|Hne]; simpl.
    + by rewrite decide_True.
    + by rewrite decide_False.
Qed.

Lemma Obj_get_set_ne k k' v o : k ≠ k' → Obj.get k' (Obj.set k v o) = Obj.get k' o.
Proof.
  intros Hne. induction o as [|[k0 v0] rest IH]; simpl.
  - by rewrite decide_False.
  - destruct (decide (k0 = k)) as [->|Hne0]; simpl.
    + by rewrite !decide_False.
    + destruct (decide (k0 = k')); [done | apply IH].
Qed.

(** ** Stepping through the monad *)

Lemma bind_ok {A B} (m : M A) (k : A → M B) w a w1 :
  m w = (Ok a, w1) → bind m k w = k a w1.
Proof. intros Hm. unfold bind. by rewrite Hm. Qed.

Lemma bind_throw {A B} (m : M A) (k : A → M B) w e w1 :
  m w = (Throw e, w1) → bind m k w = (Throw e, w1).
Proof. intros Hm. unfold bind. by rewrite Hm. Qed.

Lemma try_catch_ok {A} (m : M A) h w a w1 :
  m w = (Ok a, w1) → try_catch m h w = (Ok a, w1).
Proof. intros Hm. unfold try_catch. by rewrite Hm. Qed.

Lemma try_catch_throw {A} (m : M A) h w e w1 :
  m w = (Throw e, w1) → try_catch m h w = h e w1.
Proof. intros Hm. unfold try_catch. by rewrite Hm. Qed.

Lemma bind_ok_inv {A B} (m : M A) (k : A → M B) w b w' :
  bind m k w = (Ok b, w') → ∃ a w1, m w = (Ok a, w1) ∧ k a w1 = (Ok b, w').
Proof.
  unfold bind. destruct (m w) as [[a|e|] w1]; intros Hk; try discriminate.
  by exists a, w1.
Qed.

Lemma world_eta w :
  World (repo w) (rateLimitCache w) (blacklistedIPs w) (initialized w) = w.
Proof. by destruct w. Qed.

(** ** The contents endpoint *)

Lemma is404_not_found : is404 (GitHubApiError 404 "Not Found") = true.
Proof. reflexivity. Qed.

Lemma GET_file w path f :
  repo w !! path = Some f → GET path w = (Ok (RFile f), w).
Proof. intros Hf. unfold GET. by rewrite Hf. Qed.

Lemma GET_missing w path :
  repo w !! path = None → children path (repo w) = [] →
  GET path w = (Throw (GitHubApiError 404 "Not Found"), w).
Proof. intros Hf Hc. unfold GET. by rewrite Hf, Hc. Qed.

Lemma GET_world w path : snd (GET path w) = w.
Proof. unfold GET. repeat case_match; done. Qed.

(** ** Hexadecimal text of a byte sequence *)

Lemma hex_value_digit (d : N) : (d < 16)%N → hex_value (hex_digit_lower d) = Some d.
Proof.
  intros Hd.
  destruct d as [|p]; [reflexivity|].
  do 4 (destruct p as [p|p|]; try reflexivity; try lia).
Qed.

Lemma byte_lt_256 (b : Byte.byte) : (Byte.to_N b < 256)%N.
Proof. pose proof (Byte.to_N_bounded b). lia. Qed.

Lemma Hex_parse_stringify (bytes : list Byte.byte) :
  Hex_parse (Hex_stringify bytes) = Some bytes.
Proof.
  induction bytes as [|b rest IH]; [reflexivity|].
  cbn [Hex_stringify Hex_parse].
  pose proof (byte_lt_256 b) as Hb.
  rewrite !hex_value_digit.
  - replace (16 * (Byte.to_N b / 16) + Byte.to_N b mod 16)%N with (Byte.to_N b).
    + by rewrite Byte.of_to_N, IH.
    + rewrite (N.div_mod (Byte.to_N b) 16) at 1; lia.
  - apply N.mod_lt; lia.
  - apply N.Div0.div_lt_upper_bound; lia.
Qed.

Lemma Hex_stringify_inj (a b : list Byte.byte) :
  Hex_stringify a = Hex_stringify b → a = b.
Proof.
  intros Heq. pose proof (Hex_parse_stringify a) as Ha.
  rewrite Heq, Hex_parse_stringify in Ha. congruence.
Qed.

(** ** Passwords *)

(** C7.  A password verifies against the hash and salt [hashPassword] made
    for it, whatever salt was drawn; and another password verifies against
    them exactly when the key derivation gives it the same key, so that it
    is rejected unless the derivation collides. *)
Theorem verifyPassword_hashPassword `{Platform} (p : string) (saltBytes : list Byte.byte) :
  let h := SecurityManager.hashPassword p saltBytes in
  let storedHash := Some (JStr (SecurityManager.hash h)) in
  let storedSalt := Some (JStr (SecurityManager.salt h)) in
  SecurityManager.verifyPassword p storedHash storedSalt = true
  ∧ ∀ p2 : string,
      p2 ≠ p →
      (SecurityManager.verifyPassword p2 storedHash storedSalt = false
       ↔ PBKDF2 p2 saltBytes ≠ PBKDF2 p saltBytes).
Proof.
  cbn zeta. unfold SecurityManager.verifyPassword, SecurityManager.hashPassword.
  cbn [SecurityManager.hash SecurityManager.salt].
  rewrite Hex_parse_stringify. split.
  - apply String.eqb_refl.
  - intros p2 _. rewrite <- not_true_iff_false, String.eqb_eq.
    split; intros Hne Heq; apply Hne.
    + by rewrite Heq.
    + by apply Hex_stringify_inj.
Qed.

(** On the example platform: the password verifies, a password that differs
    in its last character does not. *)
Lemma verifyPassword_hashPassword_example :
  let h := SecurityManager.hashPassword "correct horse" [Byte.x0f; Byte.xa0] in
  SecurityManager.verifyPassword "correct horse"
    (Some (JStr (SecurityManager.hash h))) (Some (JStr (SecurityManager.salt h))) = true
  ∧ SecurityManager.verifyPassword "correct horsf"
      (Some (JStr (SecurityManager.hash h))) (Some (JStr (SecurityManager.salt h))) = false.
Proof.
  pose proof (@verifyPassword_hashPassword Example.platform "correct horse"
                [Byte.x0f; Byte.xa0]) as [Hsame Hother].
  split; [exact Hsame|].
  apply (Hother "correct horsf"); [discriminate | vm_compute; discriminate].
Defined.

(** ** Integrity check on load *)

Lemma loadData_object `{Platform} (w : world) (path : string) (f : file) (fields : object) :
  repo w !! path = Some f →
  content f = Some (JObj fields) →
  GitHubStorage.loadData path w =
    (let checksum := Obj.get "checksum" fields in
     if truthy checksum
        && negb (strict_eq checksum
                   (Some (JStr (SecurityManager.generateChecksum
                                  (JObj (Obj.set "checksum" (JStr "") fields))))))
     then (Throw GitHubStorage.integrity_failure, w)
     else (Ok (Some (JObj fields)), w)).
Proof.
  intros Hf Hc. destruct f as [s c]. simpl in Hc. subst c.
  unfold GitHubStorage.loadData, try_catch, bind.
  rewrite (GET_file _ _ _ Hf). cbn.
  by destruct (truthy _ && negb _).
Qed.

(** C9.  [loadData] verifies a document only when its [checksum] is truthy.
    A stored object whose [checksum] is absent, [null] or the empty text is
    returned as it is, whatever the digest function; an object with a truthy
    [checksum] is returned exactly when the field equals the digest of the
    object with the field cleared, and the load throws otherwise. *)
Theorem loadData_checks_only_truthy_checksum `{Platform}
    (w : world) (path : string) (f : file) (fields : object) :
  repo w !! path = Some f →
  content f = Some (JObj fields) →
  let checksum := Obj.get "checksum" fields in
  ((checksum = None ∨ checksum = Some JNull ∨ checksum = Some (JStr "")) →
   GitHubStorage.loadData path w = (Ok (Some (JObj fields)), w))
  ∧ (truthy checksum = true →
     GitHubStorage.loadData path w =
       if strict_eq checksum
            (Some (JStr (SecurityManager.generateChecksum
                           (JObj (Obj.set "checksum" (JStr "") fields)))))
       then (Ok (Some (JObj fields)), w)
       else (Throw GitHubStorage.integrity_failure, w)).
Proof.
  intros Hf Hc checksum. rewrite (loadData_object w path f fields Hf Hc).
  cbn zeta. fold checksum. split.
  - intros [-> | [-> | ->]]; reflexivity.
  - intros ->. simpl. by destruct (strict_eq _ _).
Qed.

(** A document stored without a checksum, and one whose checksum is the
    empty text, are returned by [loadData] on the example platform. *)
Lemma loadData_checks_only_truthy_checksum_example :
  let plain := [ ("id", JStr "e-1"); ("likes", JNum 3) ] in
  let blank := [ ("id", JStr "e-2"); ("checksum", JStr "") ] in
  let w := World {[ "data/emails/f-1/e-1.json" := File "@1" (Some (JObj plain));
                    "data/emails/f-1/e-2.json" := File "@2" (Some (JObj blank)) ]} ∅ ∅ false in
  GitHubStorage.loadData "data/emails/f-1/e-1.json" w = (Ok (Some (JObj plain)), w)
  ∧ GitHubStorage.loadData "data/emails/f-1/e-2.json" w = (Ok (Some (JObj blank)), w).
Proof.
  cbn zeta. split.
  - eapply loadData_checks_only_truthy_checksum;
      [ by vm_compute | reflexivity | by left ].
  - eapply loadData_checks_only_truthy_checksum;
      [ by vm_compute | reflexivity | by right; right ].
Defined.

(** ** Attachment size at the two boundaries *)

(** C2, as stated, fails: the check of the storage layer accepts an
    attachment of 6,000,000 bytes and type [image/png], which is below its
    cap of 10 * 1024 * 1024 bytes. *)
Lemma validateAttachment_accepts_6000000 :
  a_size (Attachment "photo.png" "image/png" "" 6000000) = 6000000
  ∧ a_type (Attachment "photo.png" "image/png" "" 6000000) = "image/png"
  ∧ ContentValidator.validateAttachment (Attachment "photo.png" "image/png" "" 6000000)
    = Ok tt.
Proof. repeat split. Qed.

(** So the statement of the specification does not hold. *)
Lemma attachment_claim_fails : ¬ attachment_claim_as_stated.
Proof.
  intros Hclaim.
  destruct (Hclaim (Attachment "photo.png" "image/png" "" 6000000) eq_refl eq_refl)
    as [_ [e He]].
  vm_compute in He. discriminate.
Qed.

(** C2, amended.  An attachment of 6,000,000 bytes and type [image/png] is
    rejected by the form (cap 5 * 1024 * 1024) and accepted by
    [validateAttachment], whose cap is 10 * 1024 * 1024: that check rejects
    exactly the sizes above 10,485,760 bytes and the types outside its
    list. *)
Theorem attachment_of_6000000_bytes (a : attachment) :
  (a_size a = 6000000 → a_type a = "image/png" →
   EmailForm.validateFile a
     = Throw (Error ("File " +:+ a_name a +:+ " exceeds 5MB size limit"))
   ∧ ContentValidator.validateAttachment a = Ok tt)
  ∧ (ContentValidator.validateAttachment a = Ok tt
     ↔ a_size a ≤ 10485760
       ∧ a_type a ∈ [ "image/jpeg"; "image/png"; "application/pdf"; "text/plain" ]).
Proof.
  split.
  - intros Hsize Htype. unfold EmailForm.validateFile, ContentValidator.validateAttachment.
    rewrite Hsize, Htype. split; reflexivity.
  - unfold ContentValidator.validateAttachment. cbn zeta.
    change (10 * 1024 * 1024) with 10485760.
    destruct (decide (a_size a > 10485760)) as [Hbig|Hsmall].
    + split; [discriminate | lia].
    + destruct (bool_decide _) eqn:Hty; simpl.
      * apply bool_decide_eq_true in Hty. split; [intros _; split; [lia | done] | done].
      * apply bool_decide_eq_false in Hty. split; [discriminate | intros [_ ?]; done].
Qed.

Lemma attachment_of_6000000_bytes_example :
  let a := Attachment "photo.png" "image/png" "" 6000000 in
  EmailForm.validateFile a = Throw (Error "File photo.png exceeds 5MB size limit")
  ∧ ContentValidator.validateAttachment a = Ok tt.
Proof.
  exact (proj1 (attachment_of_6000000_bytes (Attachment "photo.png" "image/png" "" 6000000))
           eq_refl eq_refl).
Defined.

(** [saveEmail] stores an attachment of 6,000,000 bytes: it checks the
    rate limit and the folder, never the attachments. *)
Lemma saveEmail_stores_6000000_bytes :
  let a := Attachment "photo.png" "image/png" "" 6000000 in
  let w := World {[ GitHubStorage.active_path "f-1" :=
                      File "@f" (Some (JObj [ ("id", JStr "f-1"); ("status", JStr "active") ])) ]}
                 ∅ ∅ true in
  let stored :=
    repo (Example.after
            (GitHubStorage.saveEmail "f-1" (EmailData "Hello" "Dear Sir" [a]) "1.2.3.4" 2000
               (Example.draw "e-1")) w)
      !! "data/attachments/f-1/e-1/photo.png" in
  (content <$> stored) = Some (Some (JObj (Obj.set "checksum"
            (JStr (SecurityManager.generateChecksum (JObj (json_of_attachment a))))
            (json_of_attachment a)))).
Proof. by vm_compute. Qed.

(** ** The rate limiter *)

Lemma this_flagSuspiciousIP_throws ip action w :
  SecurityManager.this_flagSuspiciousIP ip action w
  = (Throw (TypeError "this.flagSuspiciousIP is not a function"), w).
Proof.
  unfold SecurityManager.this_flagSuspiciousIP. rewrite decide_False; [done|].
  unfold SecurityManager.declared_methods.
  rewrite !elem_of_cons, elem_of_nil. intuition discriminate.
Qed.

Lemma checkRateLimit_blacklisted w ip action now :
  ip ∈ blacklistedIPs w → SecurityManager.checkRateLimit ip action now w = (Ok false, w).
Proof.
  intros Hin. unfold SecurityManager.checkRateLimit, bind, get_world.
  by rewrite decide_True.
Qed.

Lemma checkRateLimit_eq w ip action now l :
  ip ∉ blacklistedIPs w →
  SecurityManager.RATE_LIMITS action = Some l →
  SecurityManager.checkRateLimit ip action now w =
    let recentRequests := recent now l (recorded w ip action) in
    if decide (SecurityManager.max l ≤ Z.of_nat (length recentRequests))
    then (Throw (TypeError "this.flagSuspiciousIP is not a function"), touched w ip action)
    else (Ok true,
          World (repo w)
                (<[rate_key ip action := (recentRequests ++ [now])%list]> (rateLimitCache w))
                (blacklistedIPs w) (initialized w)).
Proof.
  intros Hnot Hl. cbn zeta.
  unfold recorded, recent, touched, SecurityManager.checkRateLimit, rate_key.
  unfold bind at 1. unfold get_world at 1. rewrite decide_False by done.
  rewrite Hl.
  destruct (rateLimitCache w !! (ip +:+ ":" +:+ action)) as [requests|] eqn:Hcache.
  - unfold bind, ret, get_world. cbn. rewrite ?Hcache. cbn.
    destruct (decide _) as [Hover|Hunder]; cbn.
    + by rewrite this_flagSuspiciousIP_throws.
    + by destruct w.
  - unfold bind, get_world, set_rateLimitCache. cbn. rewrite lookup_insert_eq. cbn.
    destruct (decide _) as [Hover|Hunder]; cbn.
    + by rewrite this_flagSuspiciousIP_throws.
    + by rewrite insert_insert_eq.
Qed.

Lemma recent_all now l requests :
  (∀ t, t ∈ requests → now - t < SecurityManager.window l) → recent now l requests = requests.
Proof.
  unfold recent. induction requests as [|t rest IH]; intros Hall; [done|].
  cbn. rewrite bool_decide_eq_true_2 by (apply Hall; left).
  f_equal. apply IH. intros t' Ht'. apply Hall. by right.
Qed.

Lemma recent_none now l requests :
  (∀ t, t ∈ requests → SecurityManager.window l ≤ now - t) → recent now l requests = [].
Proof.
  unfold recent. induction requests as [|t rest IH]; intros Hall; [done|].
  cbn. rewrite bool_decide_eq_false_2.
  - apply IH. intros t' Ht'. apply Hall. by right.
  - specialize (Hall t (list_elem_of_here _ _)). lia.
Qed.

Lemma recorded_insert w ip action requests r bl i :
  recorded (World r (<[rate_key ip action := requests]> (rateLimitCache w)) bl i) ip action
  = requests.
Proof. unfold recorded. cbn. by rewrite lookup_insert_eq. Qed.

Lemma recorded_touched w ip action : recorded (touched w ip action) ip action = recorded w ip action.
Proof.
  unfold touched, recorded.
  destruct (rateLimitCache w !! rate_key ip action) eqn:Hc; cbn.
  - by rewrite Hc.
  - by rewrite lookup_insert_eq.
Qed.

Lemma blacklistedIPs_touched w ip action : blacklistedIPs (touched w ip action) = blacklistedIPs w.
Proof. unfold touched. by destruct (rateLimitCache w !! _). Qed.

(** Calls that stay below the limit, all inside one window, are allowed and
    recorded one after the other. *)
Lemma checkRateLimit_calls_allowed ip action l (times : list Z) :
  SecurityManager.RATE_LIMITS action = Some l →
  ∀ w,
    ip ∉ blacklistedIPs w →
    Z.of_nat (length (recorded w ip action) + length times) ≤ SecurityManager.max l →
    (∀ t t', t ∈ (recorded w ip action ++ times)%list → t' ∈ times →
             t' - t < SecurityManager.window l) →
    ∃ w',
      map_all (SecurityManager.checkRateLimit ip action) times w
        = (Ok (replicate (length times) true), w')
      ∧ recorded w' ip action = (recorded w ip action ++ times)%list
      ∧ blacklistedIPs w' = blacklistedIPs w.
Proof.
  intros Hl. induction times as [|now rest IH]; intros w Hnot Hlen Hwin.
  - exists w. by rewrite app_nil_r.
  - cbn [map_all length replicate].
    assert (recent now l (recorded w ip action) = recorded w ip action) as Hrecent.
    { apply recent_all. intros t Ht. apply Hwin; [apply elem_of_app; by left | left]. }
    pose proof (checkRateLimit_eq w ip action now l Hnot Hl) as Hcall.
    cbn zeta in Hcall. rewrite Hrecent in Hcall.
    rewrite decide_False in Hcall by (cbn [length] in Hlen; lia).
    set (w1 := World (repo w)
                 (<[rate_key ip action := (recorded w ip action ++ [now])%list]> (rateLimitCache w))
                 (blacklistedIPs w) (initialized w)) in *.
    assert (recorded w1 ip action = (recorded w ip action ++ [now])%list) as Hrec1
      by apply recorded_insert.
    destruct (IH w1) as (w' & Hrest & Hrec' & Hbl').
    + done.
    + rewrite Hrec1, length_app. cbn [length] in *. lia.
    + rewrite Hrec1. intros t t' Ht Ht'. apply Hwin; [|by right].
      rewrite <- app_assoc in Ht. exact Ht.
    + exists w'. split; [|split].
      * erewrite bind_ok by exact Hcall. erewrite bind_ok by exact Hrest. reflexivity.
      * rewrite Hrec', Hrec1, <- app_assoc. reflexivity.
      * by rewrite Hbl'.
Qed.

(** C4.  With the limit of [CREATE_FOLDER] (5 calls in 3,600,000 ms), for an
    address that is not blacklisted and has no record yet: five calls inside
    one window are allowed; a sixth call inside the window does not return
    [false], it throws the [TypeError] of the call to the method
    [flagSuspiciousIP] that [SecurityManager] does not declare; and a call
    made once the five recorded timestamps have left the window is allowed
    again. *)
Theorem checkRateLimit_sixth_call_throws (w : world) (ip : string) (times : list Z)
    (now later : Z) :
  ip ∉ blacklistedIPs w →
  recorded w ip "CREATE_FOLDER" = [] →
  length times = 5%nat →
  (∀ t t', t ∈ now :: times → t' ∈ now :: times → t' - t < 3600000) →
  (∀ t, t ∈ times → 3600000 ≤ later - t) →
  ∃ w5,
    map_all (SecurityManager.checkRateLimit ip "CREATE_FOLDER") times w
      = (Ok [true; true; true; true; true], w5)
    ∧ fst (SecurityManager.checkRateLimit ip "CREATE_FOLDER" now w5)
      = Throw (TypeError "this.flagSuspiciousIP is not a function")
    ∧ fst (SecurityManager.checkRateLimit ip "CREATE_FOLDER" later
             (snd (SecurityManager.checkRateLimit ip "CREATE_FOLDER" now w5)))
      = Ok true.
Proof.
  intros Hnot Hempty Hlen Hwin Hold.
  destruct (checkRateLimit_calls_allowed ip "CREATE_FOLDER"
              (SecurityManager.Limit 5 3600000) times eq_refl w Hnot)
    as (w5 & Hcalls & Hrec & Hbl).
  { rewrite Hempty, Hlen. cbn. lia. }
  { intros t t' Ht Ht'. cbn. apply Hwin; right; [|done].
    rewrite Hempty in Ht. exact Ht. }
  rewrite Hempty in Hrec. cbn [app] in Hrec.
  exists w5. rewrite Hlen in Hcalls. split; [exact Hcalls|].
  assert (ip ∉ blacklistedIPs w5) as Hnot5 by (by rewrite Hbl).
  pose proof (checkRateLimit_eq w5 ip "CREATE_FOLDER" now _ Hnot5 eq_refl) as Hsixth.
  cbn zeta in Hsixth. rewrite Hrec in Hsixth.
  rewrite recent_all in Hsixth
    by (intros t Ht; cbn; apply Hwin; [by right | by left]).
  rewrite decide_True in Hsixth by (rewrite Hlen; cbn; lia).
  rewrite Hsixth. split; [reflexivity|]. cbn [snd].
  assert (ip ∉ blacklistedIPs (touched w5 ip "CREATE_FOLDER")) as Hnot6
    by (by rewrite blacklistedIPs_touched).
  rewrite (checkRateLimit_eq _ ip "CREATE_FOLDER" later _ Hnot6 eq_refl).
  cbn zeta. rewrite recorded_touched, Hrec.
  rewrite recent_none by (intros t Ht; cbn; by apply Hold).
  reflexivity.
Qed.

(** Six calls from the address 1.2.3.4, one millisecond apart, on a new
    singleton, and a seventh an hour after the sixth. *)
Lemma checkRateLimit_sixth_call_throws_example :
  ∃ w5,
    map_all (SecurityManager.checkRateLimit "1.2.3.4" "CREATE_FOLDER") [0; 1; 2; 3; 4]
            Example.fresh
      = (Ok [true; true; true; true; true], w5)
    ∧ fst (SecurityManager.checkRateLimit "1.2.3.4" "CREATE_FOLDER" 5 w5)
      = Throw (TypeError "this.flagSuspiciousIP is not a function")
    ∧ fst (SecurityManager.checkRateLimit "1.2.3.4" "CREATE_FOLDER" 3600005
             (snd (SecurityManager.checkRateLimit "1.2.3.4" "CREATE_FOLDER" 5 w5)))
      = Ok true.
Proof.
  apply (checkRateLimit_sixth_call_throws Example.fresh "1.2.3.4" [0; 1; 2; 3; 4] 5 3600005).
  - vm_compute. set_solver.
  - reflexivity.
  - reflexivity.
  - intros t t'. rewrite !elem_of_cons, !elem_of_nil. lia.
  - intros t. rewrite !elem_of_cons, !elem_of_nil. lia.
Defined.

(** ** Calls that only read *)

Lemma readonly_ret {A} (a : A) : readonly (ret a).
Proof. done. Qed.

Lemma readonly_throw {A} e : readonly (@throw A e).
Proof. done. Qed.

Lemma readonly_bind {A B} (m : M A) (k : A → M B) :
  readonly m → (∀ a, readonly (k a)) → readonly (bind m k).
Proof.
  intros Hm Hk w. unfold bind. specialize (Hm w).
  destruct (m w) as [[a|e|] w1]; cbn in *; subst; [apply Hk | done | done].
Qed.

Lemma readonly_try_catch {A} (m : M A) h :
  readonly m → (∀ e, readonly (h e)) → readonly (try_catch m h).
Proof.
  intros Hm Hh w. unfold try_catch. specialize (Hm w).
  destruct (m w) as [[a|e|] w1]; cbn in *; subst; [done | apply Hh | done].
Qed.

Lemma readonly_map_all {A B} (f : A → M B) xs :
  (∀ x, readonly (f x)) → readonly (map_all f xs).
Proof.
  intros Hf. induction xs as [|x rest IH]; cbn [map_all]; [apply readonly_ret|].
  apply readonly_bind; [apply Hf|]. intros y.
  apply readonly_bind; [apply IH|]. intros ys. apply readonly_ret.
Qed.

Lemma readonly_GET path : readonly (GET path).
Proof. intros w. apply GET_world. Qed.

Ltac readonly_step :=
  first
    [ apply readonly_ret
    | apply readonly_throw
    | apply readonly_GET
    | apply readonly_bind; [|intros ?]
    | apply readonly_try_catch; [|intros ?]
    | apply readonly_map_all; intros ?
    | progress case_match ].

Lemma readonly_loadData `{Platform} path : readonly (GitHubStorage.loadData path).
Proof.
  unfold GitHubStorage.loadData, GitHubStorage.response_content.
  repeat readonly_step.
Qed.

(** What a run returns or throws, when it only reads. *)
Lemma readonly_run {A} (m : M A) w : readonly m → m w = (fst (m w), w).
Proof. intros Hm. rewrite <- (Hm w) at 3. by destruct (m w). Qed.

(** ** Deleting a folder *)

(** C6.  [deleteFolder] with a password that does not verify against the
    stored [adminHash] and [adminSalt] of the folder throws -- "Invalid
    folder admin password", or "Admin password is required" when the
    password is empty -- and leaves the world as it was: no request that
    writes is made, so the folder, its emails and its attachments are
    stored and retrievable as before. *)
Theorem deleteFolder_wrong_password `{Platform}
    (w : world) (folderId password : string) (folder : json) :
  folderId ≠ "" →
  located w folderId folder →
  SecurityManager.verifyPassword password
    (member "adminHash" folder) (member "adminSalt" folder) = false →
  GitHubStorage.deleteFolder folderId password w
  = (Throw (Error (if decide (password = "") then "Admin password is required"
                   else "Invalid folder admin password")), w).
Proof.
  intros Hid Hfolder Hverify. unfold GitHubStorage.deleteFolder.
  rewrite (proj2 (String.eqb_neq folderId "")) by done.
  destruct (decide (password = "")) as [->|Hpw]; [reflexivity|].
  rewrite (proj2 (String.eqb_neq password "")) by done.
  destruct Hfolder as [[Hload Htruthy] | [(nothing & Hsilent & Hfalsy) [Hload Htruthy]]].
  - erewrite bind_ok
      by (rewrite (readonly_run _ w (readonly_loadData _)), Hload; reflexivity).
    rewrite Htruthy.
    erewrite bind_ok by reflexivity.
    cbn [default]. unfold id. by rewrite Hverify.
  - erewrite bind_ok
      by (rewrite (readonly_run _ w (readonly_loadData _)), Hsilent; reflexivity).
    rewrite Hfalsy.
    erewrite bind_ok.
    2:{ erewrite bind_ok
          by (rewrite (readonly_run _ w (readonly_loadData _)), Hload; reflexivity).
        rewrite Htruthy. reflexivity. }
    cbn [default]. unfold id. by rewrite Hverify.
Qed.

Lemma deleteFolder_wrong_password_example :
  GitHubStorage.deleteFolder "f-1" "not the password" example_folder_world
  = (Throw (Error "Invalid folder admin password"), example_folder_world).
Proof.
  eapply (deleteFolder_wrong_password example_folder_world "f-1" "not the password").
  - discriminate.
  - left. split; [by vm_compute | reflexivity].
  - by vm_compute.
Defined.

(** ** What a completed request has done *)

(** A document [loadData] returns is the content of a stored file. *)
Lemma loadData_Some_inv `{Platform} (w : world) (path : string) (doc : json) :
  fst (GitHubStorage.loadData path w) = Ok (Some doc) →
  ∃ f, repo w !! path = Some f ∧ content f = Some doc.
Proof.
  unfold GitHubStorage.loadData, try_catch, bind, GET.
  destruct (repo w !! path) as [[s [d|]]|] eqn:Hf; cbn.
  - intros Hrun. exists (File s (Some d)). split; [done|]. cbn. f_equal.
    destruct d; cbn in Hrun; try congruence.
    destruct (truthy _ && negb _); cbn in Hrun; congruence.
  - discriminate.
  - destruct (children path (repo w)); cbn; discriminate.
Qed.

Lemma loadData_None_inv `{Platform} (w : world) (path : string) :
  fst (GitHubStorage.loadData path w) = Ok None → repo w !! path = None.
Proof.
  unfold GitHubStorage.loadData, try_catch, bind, GET.
  destruct (repo w !! path) as [[s [d|]]|] eqn:Hf; cbn; [|discriminate|done].
  destruct d; cbn; try discriminate.
  destruct (truthy _ && negb _); cbn; discriminate.
Qed.

Lemma PUT_ok_inv `{Platform} (w w1 : world) (path : string) (c : option json) s u :
  PUT path c s w = (Ok u, w1) →
  w1 = World (<[path := File (blob_sha c) c]> (repo w))
             (rateLimitCache w) (blacklistedIPs w) (initialized w).
Proof.
  unfold PUT, set_repo.
  destruct (repo w !! path) as [f|], s as [s|]; try discriminate.
  - destruct (decide (s = sha f)); [|discriminate]. by intros [= _ <-].
  - destruct (children path (repo w)); [|discriminate]. by intros [= _ <-].
Qed.

Lemma PUT_throw_world `{Platform} (w w1 : world) path c s e :
  PUT path c s w = (Throw e, w1) → w1 = w.
Proof.
  unfold PUT, set_repo. repeat case_match; intros [=]; done.
Qed.

Lemma put_with_retries_ok_inv `{Platform} n last path c s (w w' : world) u :
  (n = O → last ≠ None) →
  GitHubStorage.put_with_retries n last path c s w = (Ok u, w') →
  w' = World (<[path := File (blob_sha c) c]> (repo w))
             (rateLimitCache w) (blacklistedIPs w) (initialized w).
Proof.
  revert last. induction n as [|n IH]; intros last Hlast;
    cbn [GitHubStorage.put_with_retries].
  - destruct last; [discriminate | by destruct Hlast].
  - unfold try_catch. destruct (PUT path c s w) as [[[]|e|] w1] eqn:Hput.
    + intros [= <- <-]. by eapply PUT_ok_inv.
    + apply PUT_throw_world in Hput as ->.
      destruct (includes "409" (message e)); [discriminate|].
      apply IH. done.
    + discriminate.
Qed.

Lemma readonly_existing_sha `{Platform} path : readonly (GitHubStorage.existing_sha path).
Proof. unfold GitHubStorage.existing_sha. repeat readonly_step. Qed.

Lemma saveData_ok_inv `{Platform} path data (w w' : world) u :
  GitHubStorage.saveData path data w = (Ok u, w') →
  w' = World (<[path := File (blob_sha (Some (JObj data))) (Some (JObj data))]> (repo w))
             (rateLimitCache w) (blacklistedIPs w) (initialized w).
Proof.
  unfold GitHubStorage.saveData. intros Hrun.
  apply bind_ok_inv in Hrun as (s & w1 & Hsha & Hput).
  assert (w1 = w) as ->.
  { pose proof (readonly_existing_sha path w) as Hro. by rewrite Hsha in Hro. }
  eapply put_with_retries_ok_inv; [|exact Hput]. discriminate.
Qed.

(** ** Checksums and the two integrity checks *)

Lemma length_append (s1 s2 : string) :
  String.length (s1 +:+ s2) = (String.length s1 + String.length s2)%nat.
Proof. induction s1 as [|c s1 IH]; simpl; [done | by f_equal]. Qed.

Lemma escape_char_nonempty (c : ascii) : (0 < String.length (escape_char c))%nat.
Proof. unfold escape_char. repeat case_decide; cbn; lia. Qed.

Lemma escape_nonempty (s : string) : s ≠ "" → (0 < String.length (escape s))%nat.
Proof.
  destruct s as [|c rest]; [done|]. intros _. cbn [escape].
  rewrite length_append. pose proof (escape_char_nonempty c). lia.
Qed.

Lemma JSON_stringify_object (fields : object) :
  JSON_stringify (JObj fields) = "{" +:+ join "," (List.map member_text fields) +:+ "}".
Proof. reflexivity. Qed.

Lemma join_cons_cons sep p q rest :
  join sep (p :: q :: rest) = p +:+ sep +:+ join sep (q :: rest).
Proof. reflexivity. Qed.

Lemma members_shorter_when_cleared (fields : object) (c : string) :
  Obj.get "checksum" fields = Some (JStr c) →
  c ≠ "" →
  (String.length (join "," (List.map member_text (Obj.set "checksum" (JStr "") fields)))
   < String.length (join "," (List.map member_text fields)))%nat.
Proof.
  intros Hget Hc. induction fields as [|[k v] rest IH]; [discriminate|].
  cbn [Obj.get Obj.set] in *.
  destruct (decide (k = "checksum")) as [->|Hk].
  - injection Hget as ->.
    assert (String.length (member_text ("checksum", JStr ""))
            < String.length (member_text ("checksum", JStr c)))%nat as Hlt.
    { unfold member_text. cbn [fst snd JSON_stringify]. rewrite !length_append.
      unfold quote at 2 4. cbn [String.length escape]. rewrite !length_append.
      pose proof (escape_nonempty c Hc). cbn [String.length]. lia. }
    destruct rest as [|kv rest]; cbn [List.map].
    + exact Hlt.
    + rewrite !join_cons_cons, !length_append. lia.
  - specialize (IH Hget).
    destruct rest as [|[k2 v2] rest]; [discriminate|].
    cbn [Obj.set] in *. destruct (decide (k2 = "checksum")); cbn [List.map] in *;
      rewrite !join_cons_cons, !length_append; lia.
Qed.

(** A document with a non-empty checksum and the same document with the
    checksum cleared have different texts: the two integrity checks can
    agree on one checksum only where SHA-256 collides. *)
Lemma stringify_cleared_differs (fields : object) (c : string) :
  Obj.get "checksum" fields = Some (JStr c) →
  c ≠ "" →
  JSON_stringify (JObj fields) ≠ JSON_stringify (JObj (Obj.set "checksum" (JStr "") fields)).
Proof.
  intros Hget Hc Heq. pose proof (members_shorter_when_cleared fields c Hget Hc) as Hlt.
  apply (f_equal String.length) in Heq.
  rewrite !JSON_stringify_object, !length_append in Heq. lia.
Qed.

Lemma truthy_string (c : string) : c ≠ "" → truthy (Some (JStr c)) = true.
Proof. intros Hc. cbn. by rewrite (proj2 (String.eqb_neq c "")). Qed.

Lemma is404_integrity_failure : is404 GitHubStorage.integrity_failure = false.
Proof. reflexivity. Qed.

(** [saveData] over a stored object whose checksum is not the digest of the
    object as it stands (checksum included) throws before it writes. *)
Lemma saveData_rejects_existing `{Platform}
    (w : world) (path : string) (data : object) (f : file) (fields : object) (c : string) :
  repo w !! path = Some f →
  sha f ≠ "" →
  content f = Some (JObj fields) →
  Obj.get "checksum" fields = Some (JStr c) →
  c ≠ "" →
  SecurityManager.generateChecksum (JObj fields) ≠ c →
  GitHubStorage.saveData path data w = (Throw GitHubStorage.integrity_failure, w).
Proof.
  intros Hf Hsha Hcontent Hget Hc Hdigest.
  unfold GitHubStorage.saveData, GitHubStorage.existing_sha, try_catch, bind.
  rewrite (GET_file _ _ _ Hf). cbn.
  rewrite (proj2 (String.eqb_neq (sha f) "")) by done. cbn.
  rewrite Hcontent, Hget, (truthy_string c Hc). cbn.
  rewrite (proj2 (String.eqb_neq c _)) by congruence.
  reflexivity.
Qed.


(** For a checksum that [loadData] accepts, the premise on the digest holds
    as soon as SHA-256 does not collide on the stored document and its
    cleared version, which are different texts. *)
Lemma valid_checksum_is_no_fixpoint `{Platform} (fields : object) (c : string) :
  Obj.get "checksum" fields = Some (JStr c) →
  c ≠ "" →
  c = SecurityManager.generateChecksum (JObj (Obj.set "checksum" (JStr "") fields)) →
  (SHA256 (JSON_stringify (JObj fields))
   = SHA256 (JSON_stringify (JObj (Obj.set "checksum" (JStr "") fields))) →
   JSON_stringify (JObj fields)
   = JSON_stringify (JObj (Obj.set "checksum" (JStr "") fields))) →
  SecurityManager.generateChecksum (JObj fields) ≠ c.
Proof.
  intros Hget Hc Hvalid Hinj Heq. rewrite Hvalid in Heq.
  apply Hinj in Heq. by eapply stringify_cleared_differs.
Qed.

(** The conflict of a stale version token is not retried: the loop of
    [saveData] leaves on the first 409. *)
Lemma put_with_retries_conflict `{Platform}
    (w : world) (path : string) (c : option json) (f : file) (stale : string) :
  repo w !! path = Some f →
  stale ≠ sha f →
  GitHubStorage.put_with_retries 3 None path c (Some stale) w
  = (Throw (GitHubApiError 409 (path +:+ " does not match " +:+ stale)), w).
Proof.
  intros Hf Hstale. cbn [GitHubStorage.put_with_retries]. unfold try_catch, PUT.
  rewrite Hf, decide_False by done. reflexivity.
Qed.


(** ** Likes that are stored *)

(** What a successful call has done: the stored email is the one returned,
    whose [likes] is the loaded value plus one. *)
Lemma updateEmailLikes_stores_increment `{Platform}
    (w w1 : world) (folderId emailId : string) (now : Z) (updated : object)
    (f : file) (doc : json) (n : Z) :
  repo w !! GitHubStorage.email_path folderId emailId = Some f →
  content f = Some doc →
  member "likes" doc = Some (JNum n) →
  Z.abs n < GitHubStorage.two_to_53 →
  GitHubStorage.updateEmailLikes folderId emailId "increment" now w = (Ok updated, w1) →
  repo w1 !! GitHubStorage.email_path folderId emailId
  = Some (File (blob_sha (Some (JObj updated))) (Some (JObj updated)))
  ∧ Obj.get "likes" updated = Some (JNum (n + 1))
  ∧ stored_likes w1 folderId emailId = Some (JNum (n + 1)).
Proof.
  intros Hf Hdoc Hlikes Hsafe Hrun. unfold GitHubStorage.updateEmailLikes in Hrun. cbn zeta in Hrun.
  apply bind_ok_inv in Hrun as (email & w0 & Hload & Hrun).
  assert (w0 = w) as ->.
  { pose proof (readonly_loadData (GitHubStorage.email_path folderId emailId) w) as Hro.
    by rewrite Hload in Hro. }
  destruct email as [email|]; [|discriminate].
  assert (email = doc) as ->.
  { destruct (loadData_Some_inv w (GitHubStorage.email_path folderId emailId) email) as (f' & Hf' & Hc); [by rewrite Hload|]. congruence. }
  destruct (negb (truthy (Some doc))); [discriminate|].
  apply bind_ok_inv in Hrun as (u & w2 & Hsave & Hret).
  injection Hret as <- <-.
  apply saveData_ok_inv in Hsave as ->. cbn [repo].
  assert (Obj.get "likes"
            (Obj.set "checksum"
               (JStr (SecurityManager.generateChecksum
                  (JObj (Obj.set "updatedAt" (JStr (toISOString now))
                     (Obj.set "likes" (GitHubStorage.updated_likes "increment" (member "likes" doc))
                        (spread doc))))))
               (Obj.set "updatedAt" (JStr (toISOString now))
                  (Obj.set "likes" (GitHubStorage.updated_likes "increment" (member "likes" doc))
                     (spread doc))))
          = Some (JNum (n + 1))) as Hget.
  { rewrite !Obj_get_set_ne by discriminate. rewrite Obj_get_set_eq, Hlikes.
    unfold GitHubStorage.updated_likes. by rewrite decide_True, (decide_True _ _ Hsafe). }
  split; [apply lookup_insert_eq|]. split; [exact Hget|].
  unfold stored_likes. cbn [repo]. rewrite lookup_insert_eq. exact Hget.
Qed.

(** After a successful call the email carries the checksum the call wrote,
    and the next call, whatever its action, is rejected by the check inside
    [saveData] (or by the one of [loadData]): unless the digest of the
    stored document is the checksum written in it, the call throws and the
    stored email stays as it is. *)
Lemma updateEmailLikes_second_call_rejected `{Platform}
    (w w1 : world) (folderId emailId action1 action2 : string) (t1 t2 : Z) (updated : object) :
  (∀ c, blob_sha c ≠ "") →
  (∀ text, SHA256 text ≠ "") →
  GitHubStorage.updateEmailLikes folderId emailId action1 t1 w = (Ok updated, w1) →
  Obj.get "checksum" updated ≠ Some (JStr (SecurityManager.generateChecksum (JObj updated))) →
  GitHubStorage.updateEmailLikes folderId emailId action2 t2 w1
  = (Throw GitHubStorage.integrity_failure, w1).
Proof.
  intros Hsha Hdigest Hrun Hfix.
  unfold GitHubStorage.updateEmailLikes in Hrun. cbn zeta in Hrun.
  apply bind_ok_inv in Hrun as (email & w0 & Hload & Hrun).
  assert (w0 = w) as ->.
  { pose proof (readonly_loadData (GitHubStorage.email_path folderId emailId) w) as Hro.
    by rewrite Hload in Hro. }
  destruct email as [email|]; [|discriminate].
  destruct (negb (truthy (Some email))); [discriminate|].
  apply bind_ok_inv in Hrun as (u & w2 & Hsave & Hret).
  injection Hret as <- <-.
  apply saveData_ok_inv in Hsave. 
  match type of Hsave with
  | w2 = World (<[_ := File ?s (Some (JObj (Obj.set "checksum" (JStr ?c) ?u1)))]> _) _ _ _ =>
      set (c1 := c) in *; set (doc1 := u1) in *; set (s1 := s) in *
  end.
  assert (Obj.get "checksum" (Obj.set "checksum" (JStr c1) doc1) = Some (JStr c1)) as Hget
    by apply Obj_get_set_eq.
  assert (repo w2 !! GitHubStorage.email_path folderId emailId
          = Some (File s1 (Some (JObj (Obj.set "checksum" (JStr c1) doc1))))) as Hf.
  { rewrite Hsave. cbn [repo]. apply lookup_insert_eq. }
  assert (c1 ≠ "") as Hc by apply Hdigest.
  assert (SecurityManager.generateChecksum (JObj (Obj.set "checksum" (JStr c1) doc1)) ≠ c1)
    as Hne.
  { intros Heq. apply Hfix. rewrite Hget. by rewrite Heq. }
  assert (s1 ≠ "") as Hs1 by apply Hsha.
  clearbody c1 doc1 s1. clear Hsave.
  unfold GitHubStorage.updateEmailLikes. cbn zeta.
  pose proof (loadData_object w2 _ _ _ Hf eq_refl) as Hl. cbn zeta in Hl.
  destruct (truthy _ && negb _).
  - by erewrite bind_throw by exact Hl.
  - erewrite bind_ok by exact Hl. cbn [truthy negb].
    erewrite bind_throw; [reflexivity|].
    by eapply saveData_rejects_existing.
Qed.

(** An email with [likes = 0] and no checksum: the first like is stored, the
    second is rejected, and the stored value after the two calls is 1. *)
Lemma updateEmailLikes_second_call_rejected_example :
  let first := GitHubStorage.updateEmailLikes "f-1" "e-1" "increment" 3000 in
  let second := GitHubStorage.updateEmailLikes "f-1" "e-1" "increment" 4000 in
  stored_likes plain_email_world "f-1" "e-1" = Some (JNum 0)
  ∧ stored_likes (Example.after first plain_email_world) "f-1" "e-1" = Some (JNum 1)
  ∧ second (Example.after first plain_email_world)
    = (Throw GitHubStorage.integrity_failure, Example.after first plain_email_world)
  ∧ stored_likes (Example.after second (Example.after first plain_email_world)) "f-1" "e-1"
    = Some (JNum 1).
Proof.
  cbn zeta.
  destruct (GitHubStorage.updateEmailLikes "f-1" "e-1" "increment" 3000 plain_email_world)
    as [r w1] eqn:Hfirst.
  assert (∃ updated, r = Ok updated) as [updated ->].
  { assert (match r with Ok _ => True | _ => False end) as Hr
      by (by replace r with (fst (GitHubStorage.updateEmailLikes "f-1" "e-1" "increment" 3000
                                    plain_email_world)); [vm_compute | rewrite Hfirst]).
    destruct r; [by eexists | done | done]. }
  assert (stored_likes w1 "f-1" "e-1" = Some (JNum (0 + 1))) as Hstored.
  { eapply (updateEmailLikes_stores_increment plain_email_world w1 "f-1" "e-1" 3000 updated
              (File "@e" (Some (JObj [ ("id", JStr "e-1"); ("likes", JNum 0) ]))));
      [by vm_compute | reflexivity | reflexivity | by vm_compute | exact Hfirst]. }
  assert (∀ c, blob_sha c ≠ "") as Hsha by (by intros [d|]).
  assert (∀ text, SHA256 text ≠ "") as Hdigest by done.
  pose proof (updateEmailLikes_second_call_rejected plain_email_world w1 "f-1" "e-1"
                "increment" "increment" 3000 4000 updated Hsha Hdigest Hfirst) as Hsecond.
  unfold Example.after. rewrite Hfirst. cbn [snd].
  split; [by vm_compute|]. split; [exact Hstored|].
  assert (Obj.get "checksum" updated
          ≠ Some (JStr (SecurityManager.generateChecksum (JObj updated)))) as Hfix.
  { replace updated with (Example.returned [] (GitHubStorage.updateEmailLikes "f-1" "e-1" "increment" 3000) plain_email_world)
      by (unfold Example.returned; by rewrite Hfirst).
    by vm_compute. }
  rewrite (Hsecond Hfix). split; [reflexivity | exact Hstored].
Qed.

(** C1.  A successful ['increment'] on a stored email whose [likes] is an
    integer [n] of magnitude below 2^53 stores the email with [n + 1] and
    returns it.  When two increments of an email that starts with
    [likes = 0] both complete, one after the other, the stored value is 2:
    the second call has read the 1 the first one stored. *)
Theorem updateEmailLikes_loses_no_like `{Platform} :
  (∀ (w w1 : world) (folderId emailId : string) (now : Z) (updated : object)
     (f : file) (doc : json) (n : Z),
     repo w !! GitHubStorage.email_path folderId emailId = Some f →
     content f = Some doc →
     member "likes" doc = Some (JNum n) →
     Z.abs n < GitHubStorage.two_to_53 →
     GitHubStorage.updateEmailLikes folderId emailId "increment" now w = (Ok updated, w1) →
     stored_likes w1 folderId emailId = Some (JNum (n + 1))
     ∧ Obj.get "likes" updated = Some (JNum (n + 1)))
  ∧ (∀ (w w1 w2 : world) (folderId emailId : string) (t1 t2 : Z) (first second : object),
       stored_likes w folderId emailId = Some (JNum 0) →
       GitHubStorage.updateEmailLikes folderId emailId "increment" t1 w = (Ok first, w1) →
       GitHubStorage.updateEmailLikes folderId emailId "increment" t2 w1 = (Ok second, w2) →
       stored_likes w1 folderId emailId = Some (JNum 1)
       ∧ stored_likes w2 folderId emailId = Some (JNum 2)
       ∧ Obj.get "likes" second = Some (JNum 2)).
Proof.
  assert (∀ (w w1 : world) folderId emailId now updated (n : Z),
            stored_likes w folderId emailId = Some (JNum n) →
            Z.abs n < GitHubStorage.two_to_53 →
            GitHubStorage.updateEmailLikes folderId emailId "increment" now w = (Ok updated, w1) →
            stored_likes w1 folderId emailId = Some (JNum (n + 1))
            ∧ Obj.get "likes" updated = Some (JNum (n + 1))) as Hstep.
  { intros w w1 folderId emailId now updated n Hstored Hsafe Hrun.
    unfold stored_likes in Hstored.
    destruct (repo w !! GitHubStorage.email_path folderId emailId) as [[s [doc|]]|] eqn:Hf;
      try discriminate.
    destruct (updateEmailLikes_stores_increment w w1 folderId emailId now updated
                (File s (Some doc)) doc n Hf eq_refl Hstored Hsafe Hrun) as (_ & Hret & Hnew).
    by split. }
  split.
  - intros w w1 folderId emailId now updated f doc n Hf Hdoc Hlikes Hsafe Hrun.
    destruct (updateEmailLikes_stores_increment w w1 folderId emailId now updated
                f doc n Hf Hdoc Hlikes Hsafe Hrun) as (_ & Hret & Hnew).
    by split.
  - intros w w1 w2 folderId emailId t1 t2 first second Hzero Hfirst Hsecond.
    destruct (Hstep w w1 folderId emailId t1 first 0 Hzero ltac:(by vm_compute) Hfirst)
      as [Hone _].
    destruct (Hstep w1 w2 folderId emailId t2 second 1 Hone ltac:(by vm_compute) Hsecond)
      as [Htwo Hret].
    done.
Qed.

(** The first like of an email without checksum is stored as 1.  On a
    platform whose digest collides the second like is accepted too, and
    stored as 2. *)
Lemma updateEmailLikes_loses_no_like_example :
  (∃ updated w1,
     GitHubStorage.updateEmailLikes "f-1" "e-1" "increment" 3000 plain_email_world
     = (Ok updated, w1)
     ∧ stored_likes w1 "f-1" "e-1" = Some (JNum 1))
  ∧ (∃ first second w1 w2,
       @GitHubStorage.updateEmailLikes Example.colliding_digest "f-1" "e-1" "increment" 3000
         plain_email_world = (Ok first, w1)
       ∧ @GitHubStorage.updateEmailLikes Example.colliding_digest "f-1" "e-1" "increment" 4000
           w1 = (Ok second, w2)
       ∧ stored_likes w2 "f-1" "e-1" = Some (JNum 2)).
Proof.
  split.
  - eexists _, _. split; [vm_compute; reflexivity|].
    eapply (proj1 (@updateEmailLikes_loses_no_like Example.platform)
              plain_email_world _ "f-1" "e-1" 3000 _
              (File "@e" (Some (JObj [ ("id", JStr "e-1"); ("likes", JNum 0) ]))) _ 0);
      [by vm_compute | reflexivity | reflexivity | by vm_compute | by vm_compute].
  - eexists _, _, _, _. split; [vm_compute; reflexivity|]. split; [vm_compute; reflexivity|].
    eapply (proj2 (@updateEmailLikes_loses_no_like Example.colliding_digest)
              plain_email_world _ _ "f-1" "e-1" 3000 4000);
      [by vm_compute | by vm_compute | by vm_compute].
Defined.

(** ** Likes and the rate limiter *)

Lemma ignores_limiter_ret {A} (a : A) : ignores_limiter (ret a).
Proof. done. Qed.

Lemma ignores_limiter_throw {A} e : ignores_limiter (@throw A e).
Proof. done. Qed.

Lemma ignores_limiter_bind {A B} (m : M A) (k : A → M B) :
  ignores_limiter m → (∀ a, ignores_limiter (k a)) → ignores_limiter (bind m k).
Proof.
  intros Hm Hk w cache blacklist. unfold bind. rewrite Hm.
  destruct (m w) as [[a|e|] w1]; cbn; [apply Hk | done | done].
Qed.

Lemma ignores_limiter_try_catch {A} (m : M A) h :
  ignores_limiter m → (∀ e, ignores_limiter (h e)) → ignores_limiter (try_catch m h).
Proof.
  intros Hm Hh w cache blacklist. unfold try_catch. rewrite Hm.
  destruct (m w) as [[a|e|] w1]; cbn; [done | apply Hh | done].
Qed.

Lemma ignores_limiter_GET path : ignores_limiter (GET path).
Proof. intros w cache blacklist. unfold GET. cbn. repeat case_match; done. Qed.

Lemma ignores_limiter_PUT `{Platform} path c s : ignores_limiter (PUT path c s).
Proof. intros w cache blacklist. unfold PUT, set_repo. cbn. repeat case_match; done. Qed.

Lemma ignores_limiter_DELETE path s : ignores_limiter (DELETE path s).
Proof. intros w cache blacklist. unfold DELETE, set_repo. cbn. repeat case_match; done. Qed.

Ltac ignores_limiter_step :=
  first
    [ apply ignores_limiter_ret
    | apply ignores_limiter_throw
    | apply ignores_limiter_GET
    | apply ignores_limiter_PUT
    | apply ignores_limiter_DELETE
    | apply ignores_limiter_bind; [|intros ?]
    | apply ignores_limiter_try_catch; [|intros ?]
    | progress case_match ].

Lemma ignores_limiter_loadData `{Platform} path : ignores_limiter (GitHubStorage.loadData path).
Proof.
  unfold GitHubStorage.loadData, GitHubStorage.response_content.
  repeat ignores_limiter_step.
Qed.

Lemma ignores_limiter_put_with_retries `{Platform} n last path c s :
  ignores_limiter (GitHubStorage.put_with_retries n last path c s).
Proof.
  revert last. induction n as [|n IH]; intros last; cbn [GitHubStorage.put_with_retries].
  - repeat ignores_limiter_step.
  - apply ignores_limiter_try_catch; [apply ignores_limiter_PUT|].
    intros e. case_match; [apply ignores_limiter_throw | apply IH].
Qed.

Lemma ignores_limiter_saveData `{Platform} path data :
  ignores_limiter (GitHubStorage.saveData path data).
Proof.
  unfold GitHubStorage.saveData, GitHubStorage.existing_sha.
  apply ignores_limiter_bind; [|intros ?; apply ignores_limiter_put_with_retries].
  repeat ignores_limiter_step.
Qed.

Lemma ignores_limiter_updateEmailLikes `{Platform} folderId emailId action now :
  ignores_limiter (GitHubStorage.updateEmailLikes folderId emailId action now).
Proof.
  unfold GitHubStorage.updateEmailLikes. cbn zeta.
  apply ignores_limiter_bind; [apply ignores_limiter_loadData|]. intros email.
  repeat first [ apply ignores_limiter_saveData | ignores_limiter_step ].
Qed.

Lemma fails_only_ret {A} P (a : A) : fails_only P (ret a).
Proof. done. Qed.

Lemma fails_only_throw {A} (P : exn → Prop) e : P e → fails_only P (@throw A e).
Proof. intros HP w. exact HP. Qed.

Lemma fails_only_bind {A B} P (m : M A) (k : A → M B) :
  fails_only P m → (∀ a, fails_only P (k a)) → fails_only P (bind m k).
Proof.
  intros Hm Hk w. unfold bind. specialize (Hm w).
  destruct (m w) as [[a|e1|] w1]; cbn in *; [apply Hk | done | done].
Qed.

(** The handler meets the exceptions of [m] only. *)
Lemma fails_only_try_catch {A} (Q P : exn → Prop) (m : M A) h :
  fails_only Q m → (∀ e, Q e → fails_only P (h e)) → fails_only P (try_catch m h).
Proof.
  intros Hm Hh w. unfold try_catch. specialize (Hm w).
  destruct (m w) as [[a|e1|] w1]; cbn in *; [done | by apply Hh | done].
Qed.

Lemma storage_error_api status text : storage_error (GitHubApiError status text).
Proof. right; right. by exists status, text. Qed.

Lemma storage_error_named n text :
  n ∈ [ "SyntaxError"; "InvalidCharacterError"; "TypeError" ] → storage_error (Exn n text).
Proof. intros Hn. right; left. exact Hn. Qed.

Lemma fails_only_GET path : fails_only storage_error (GET path).
Proof.
  intros w. unfold GET.
  destruct (repo w !! path); [done|].
  destruct (children path (repo w)); cbn; [apply storage_error_api | done].
Qed.

Lemma fails_only_PUT `{Platform} path c s : fails_only storage_error (PUT path c s).
Proof.
  intros w. unfold PUT, set_repo.
  destruct (repo w !! path) as [f|], s as [s|]; cbn; try apply storage_error_api.
  - destruct (decide (s = sha f)); cbn; [done | apply storage_error_api].
  - destruct (children path (repo w)); cbn; [done | apply storage_error_api].
Qed.

Ltac storage_error_now :=
  first
    [ assumption
    | by left
    | apply storage_error_api
    | apply storage_error_named; rewrite !elem_of_cons; by intuition ].

Ltac fails_only_step :=
  first
    [ apply fails_only_ret
    | apply fails_only_throw; storage_error_now
    | apply fails_only_GET
    | apply fails_only_PUT
    | apply fails_only_bind; [|intros ?]
    | apply (fails_only_try_catch storage_error); [|intros ? ?]
    | progress case_match ].

Lemma fails_only_loadData `{Platform} path :
  fails_only storage_error (GitHubStorage.loadData path).
Proof.
  unfold GitHubStorage.loadData, GitHubStorage.response_content,
    SyntaxError, DOMException, TypeError.
  repeat fails_only_step.
Qed.




(** So the statement of the specification does not hold. *)
Lemma likes_claim_fails : ¬ likes_claim_as_stated.
Proof.
  intros Hclaim.
  destruct (Hclaim tampered_email_world "f-1" "e-1" "increment" 5000)
    as [[updated Hok] | [Hmissing | (email & e & Hload & _)]].
  - vm_compute in Hok. discriminate.
  - vm_compute in Hmissing. discriminate.
  - vm_compute in Hload. discriminate.
Qed.


(** ** The folder lifecycle *)

Lemma silent_path_ne_active_path a b : GitHubStorage.silent_path a ≠ GitHubStorage.active_path b.
Proof. unfold GitHubStorage.silent_path, GitHubStorage.active_path. cbn. discriminate. Qed.


Lemma fails_only_weaken {A} (P Q : exn → Prop) (m : M A) :
  fails_only P m → (∀ e, P e → Q e) → fails_only Q m.
Proof.
  intros Hm HPQ w. specialize (Hm w). destruct (fst (m w)); [done | by apply HPQ | done].
Qed.

Lemma fails_only_map_all {A B} P (f : A → M B) xs :
  (∀ x, fails_only P (f x)) → fails_only P (map_all f xs).
Proof.
  intros Hf. induction xs as [|x rest IH]; cbn [map_all]; [apply fails_only_ret|].
  apply fails_only_bind; [apply Hf|]. intros y.
  apply fails_only_bind; [apply IH|]. intros ys. apply fails_only_ret.
Qed.

Lemma ends_loadData `{Platform} path : fails_only anything (GitHubStorage.loadData path).
Proof. eapply fails_only_weaken; [apply fails_only_loadData | done]. Qed.

Lemma ends_GET path : fails_only anything (GET path).
Proof. eapply fails_only_weaken; [apply fails_only_GET | done]. Qed.

Lemma loadEmails_never_fails `{Platform} folderId :
  fails_only nothing (GitHubStorage.loadEmails folderId).
Proof.
  unfold GitHubStorage.loadEmails.
  apply (fails_only_try_catch anything); [|intros e _; apply fails_only_ret].
  apply fails_only_bind.
  - apply (fails_only_try_catch anything).
    + apply fails_only_bind; [apply ends_GET | intros r; apply fails_only_ret].
    + intros e _. case_match; [apply fails_only_ret | by apply fails_only_throw].
  - intros [[f|entries]|]; try apply fails_only_ret.
    apply fails_only_bind; [|intros emails; apply fails_only_ret].
    apply fails_only_map_all. intros e.
    apply (fails_only_try_catch anything); [apply ends_loadData|].
    intros ? _. apply fails_only_ret.
Qed.

Lemma loadEmailVersions_ends `{Platform} folderId emailId :
  fails_only anything (GitHubStorage.loadEmailVersions folderId emailId).
Proof.
  unfold GitHubStorage.loadEmailVersions.
  apply (fails_only_try_catch anything).
  - apply fails_only_bind; [apply ends_GET|]. intros [f|entries].
    + by apply fails_only_throw.
    + apply fails_only_bind; [|intros versions; apply fails_only_ret].
      apply fails_only_map_all. intros e. apply ends_loadData.
  - intros e _. case_match; [apply fails_only_ret | by apply fails_only_throw].
Qed.

Lemma getFolderInteractions_never_fails `{Platform} folderId :
  fails_only nothing (GitHubStorage.getFolderInteractions folderId).
Proof.
  unfold GitHubStorage.getFolderInteractions.
  apply (fails_only_try_catch anything); [|intros e _; apply fails_only_ret].
  apply fails_only_bind.
  { eapply fails_only_weaken; [apply loadEmails_never_fails | done]. }
  intros emails. cbn zeta.
  apply (fails_only_try_catch anything); [|intros e _; apply fails_only_ret].
  apply fails_only_bind; [|intros versions; apply fails_only_ret].
  apply fails_only_map_all. intros email. apply loadEmailVersions_ends.
Qed.

Lemma readonly_loadEmails `{Platform} folderId : readonly (GitHubStorage.loadEmails folderId).
Proof.
  unfold GitHubStorage.loadEmails.
  repeat first [ apply readonly_loadData | readonly_step ].
Qed.

Lemma readonly_loadEmailVersions `{Platform} folderId emailId :
  readonly (GitHubStorage.loadEmailVersions folderId emailId).
Proof.
  unfold GitHubStorage.loadEmailVersions.
  repeat first [ apply readonly_loadData | readonly_step ].
Qed.

Lemma readonly_getFolderInteractions `{Platform} folderId :
  readonly (GitHubStorage.getFolderInteractions folderId).
Proof.
  unfold GitHubStorage.getFolderInteractions.
  repeat first [ apply readonly_loadEmails | apply readonly_loadEmailVersions | readonly_step ].
Qed.

(** [getFolderInteractions] always returns a count and writes nothing. *)
Lemma getFolderInteractions_total `{Platform} (w : world) (folderId : string) :
  ∃ n, GitHubStorage.getFolderInteractions folderId w = (Ok n, w).
Proof.
  pose proof (getFolderInteractions_never_fails folderId w) as Hends.
  rewrite (readonly_run _ w (readonly_getFolderInteractions folderId)).
  destruct (fst (GitHubStorage.getFolderInteractions folderId w)) as [n|e|]; [|done|done].
  by exists n.
Qed.


(** Where the lookup of the versions throws, the versions are not
    counted. *)
Lemma getFolderInteractions_without_versions `{Platform}
    (w : world) (folderId : string) (emails : list json) (e : exn) :
  fst (GitHubStorage.loadEmails folderId w) = Ok emails →
  fst (map_all (fun email => GitHubStorage.loadEmailVersions folderId (member "id" email))
         emails w) = Throw e →
  GitHubStorage.getFolderInteractions folderId w
  = (Ok (Z.of_nat (length emails) + total_likes emails), w).
Proof.
  intros Hemails Hversions.
  rewrite (readonly_run _ w (readonly_getFolderInteractions folderId)). f_equal.
  unfold GitHubStorage.getFolderInteractions, try_catch, bind.
  rewrite (readonly_run _ w (readonly_loadEmails folderId)), Hemails. cbn zeta.
  destruct (map_all _ emails w) as [r w1]. cbn in Hversions. subst r. reflexivity.
Qed.

(** Writing a new file: nothing is stored at [path] and [path] is no
    directory. *)
Lemma saveData_new `{Platform} (w : world) (path : string) (data : object) :
  repo w !! path = None →
  children path (repo w) = [] →
  GitHubStorage.saveData path data w
  = (Ok tt, World (<[path := File (blob_sha (Some (JObj data))) (Some (JObj data))]> (repo w))
                  (rateLimitCache w) (blacklistedIPs w) (initialized w)).
Proof.
  intros Hnone Hdir. unfold GitHubStorage.saveData, GitHubStorage.existing_sha, try_catch, bind.
  rewrite (GET_missing _ _ Hnone Hdir), is404_not_found. cbn.
  unfold try_catch, PUT. by rewrite Hnone, Hdir.
Qed.

Lemma deleteFile_existing (w : world) (path : string) (f : file) :
  repo w !! path = Some f →
  GitHubStorage.deleteFile path w
  = (Ok tt, World (delete path (repo w)) (rateLimitCache w) (blacklistedIPs w) (initialized w)).
Proof.
  intros Hf. unfold GitHubStorage.deleteFile, try_catch, bind.
  rewrite (GET_file _ _ _ Hf). unfold DELETE. cbn. rewrite Hf.
  by rewrite decide_True.
Qed.





(** ** The blacklist *)

Lemma blacklist_grows_ret {A} (a : A) : blacklist_grows (ret a).
Proof. intros w. reflexivity. Qed.

Lemma blacklist_grows_throw {A} e : blacklist_grows (@throw A e).
Proof. intros w. reflexivity. Qed.

Lemma blacklist_grows_diverge {A} : blacklist_grows (@diverge A).
Proof. intros w. reflexivity. Qed.

Lemma blacklist_grows_bind {A B} (m : M A) (k : A → M B) :
  blacklist_grows m → (∀ a, blacklist_grows (k a)) → blacklist_grows (bind m k).
Proof.
  intros Hm Hk w. unfold bind. specialize (Hm w).
  destruct (m w) as [[a|e|] w1]; cbn [snd] in *; [|exact Hm|exact Hm].
  etrans; [exact Hm | apply Hk].
Qed.

Lemma blacklist_grows_try_catch {A} (m : M A) h :
  blacklist_grows m → (∀ e, blacklist_grows (h e)) → blacklist_grows (try_catch m h).
Proof.
  intros Hm Hh w. unfold try_catch. specialize (Hm w).
  destruct (m w) as [[a|e|] w1]; cbn [snd] in *; [exact Hm| |exact Hm].
  etrans; [exact Hm | apply Hh].
Qed.

Lemma blacklist_grows_for_each {A} (f : A → M unit) xs :
  (∀ x, blacklist_grows (f x)) → blacklist_grows (for_each f xs).
Proof.
  intros Hf. induction xs as [|x rest IH]; cbn [for_each]; [apply blacklist_grows_ret|].
  apply blacklist_grows_bind; [apply Hf | intros _; apply IH].
Qed.

Lemma blacklist_grows_map_all {A B} (f : A → M B) xs :
  (∀ x, blacklist_grows (f x)) → blacklist_grows (map_all f xs).
Proof.
  intros Hf. induction xs as [|x rest IH]; cbn [map_all]; [apply blacklist_grows_ret|].
  apply blacklist_grows_bind; [apply Hf|]. intros y.
  apply blacklist_grows_bind; [apply IH|]. intros ys. apply blacklist_grows_ret.
Qed.

Lemma blacklist_grows_ignores {A} (m : M A) : ignores_limiter m → blacklist_grows m.
Proof.
  intros Hm w. specialize (Hm w (rateLimitCache w) (blacklistedIPs w)).
  unfold with_limiter at 1 in Hm. rewrite world_eta in Hm. by rewrite Hm.
Qed.

Lemma blacklist_grows_get_world : blacklist_grows get_world.
Proof. intros w. reflexivity. Qed.

Lemma blacklist_grows_set_rateLimitCache c : blacklist_grows (set_rateLimitCache c).
Proof. intros w. reflexivity. Qed.

Lemma blacklist_grows_set_initialized b : blacklist_grows (set_initialized b).
Proof. intros w. reflexivity. Qed.

Lemma blacklist_grows_GET path : blacklist_grows (GET path).
Proof. apply blacklist_grows_ignores, ignores_limiter_GET. Qed.

Lemma blacklist_grows_PUT `{Platform} path c s : blacklist_grows (PUT path c s).
Proof. apply blacklist_grows_ignores, ignores_limiter_PUT. Qed.

Lemma blacklist_grows_DELETE path s : blacklist_grows (DELETE path s).
Proof. apply blacklist_grows_ignores, ignores_limiter_DELETE. Qed.

Lemma blacklist_grows_loadData `{Platform} path : blacklist_grows (GitHubStorage.loadData path).
Proof. apply blacklist_grows_ignores, ignores_limiter_loadData. Qed.

Lemma blacklist_grows_saveData `{Platform} path data :
  blacklist_grows (GitHubStorage.saveData path data).
Proof. apply blacklist_grows_ignores, ignores_limiter_saveData. Qed.

Ltac blacklist_grows_step :=
  first
    [ apply blacklist_grows_ret
    | apply blacklist_grows_throw
    | apply blacklist_grows_diverge
    | apply blacklist_grows_get_world
    | apply blacklist_grows_set_rateLimitCache
    | apply blacklist_grows_set_initialized
    | apply blacklist_grows_GET
    | apply blacklist_grows_PUT
    | apply blacklist_grows_DELETE
    | apply blacklist_grows_loadData
    | apply blacklist_grows_saveData
    | apply blacklist_grows_bind; [|intros ?]
    | apply blacklist_grows_try_catch; [|intros ?]
    | apply blacklist_grows_for_each; intros ?
    | apply blacklist_grows_map_all; intros ?
    | progress case_match ].

Lemma blacklist_grows_checkRateLimit ip action now :
  blacklist_grows (SecurityManager.checkRateLimit ip action now).
Proof.
  unfold SecurityManager.checkRateLimit, SecurityManager.this_flagSuspiciousIP.
  repeat blacklist_grows_step.
Qed.

Lemma blacklist_grows_deleteFile path : blacklist_grows (GitHubStorage.deleteFile path).
Proof. unfold GitHubStorage.deleteFile. repeat blacklist_grows_step. Qed.

Lemma blacklist_grows_ensureDirectoryExists `{Platform} fuel path :
  blacklist_grows (GitHubStorage.ensureDirectoryExists fuel path).
Proof.
  revert path. induction fuel as [|fuel IH]; intros path;
    cbn [GitHubStorage.ensureDirectoryExists].
  - apply blacklist_grows_diverge.
  - repeat first [ apply IH | blacklist_grows_step ].
Qed.

Lemma blacklist_grows_createFolder `{Platform} fuel data ip now rnd origin :
  blacklist_grows (GitHubStorage.createFolder fuel data ip now rnd origin).
Proof.
  unfold GitHubStorage.createFolder, GitHubStorage.initializeRepository,
    GitHubStorage.checkPathExists, SecurityManager.generateShareableLink.
  repeat first
    [ apply blacklist_grows_checkRateLimit
    | apply blacklist_grows_ensureDirectoryExists
    | blacklist_grows_step ].
Qed.

Lemma blacklist_grows_saveEmail `{Platform} folderId data ip now rnd :
  blacklist_grows (GitHubStorage.saveEmail folderId data ip now rnd).
Proof.
  unfold GitHubStorage.saveEmail.
  repeat first [ apply blacklist_grows_checkRateLimit | blacklist_grows_step ].
Qed.

Lemma blacklist_grows_updateEmailLikes `{Platform} folderId emailId action now :
  blacklist_grows (GitHubStorage.updateEmailLikes folderId emailId action now).
Proof. apply blacklist_grows_ignores, ignores_limiter_updateEmailLikes. Qed.

Lemma blacklist_grows_readonly {A} (m : M A) : readonly m → blacklist_grows m.
Proof. intros Hm w. by rewrite Hm. Qed.

Lemma blacklist_grows_checkFolderApproval `{Platform} folderId now :
  blacklist_grows (GitHubStorage.checkFolderApproval folderId now).
Proof.
  unfold GitHubStorage.checkFolderApproval.
  repeat first
    [ apply blacklist_grows_deleteFile
    | apply blacklist_grows_readonly, readonly_getFolderInteractions
    | blacklist_grows_step ].
Qed.

Lemma blacklist_grows_deletePath path : blacklist_grows (GitHubStorage.deletePath path).
Proof.
  unfold GitHubStorage.deletePath.
  repeat first [ apply blacklist_grows_deleteFile | blacklist_grows_step ].
Qed.

Lemma blacklist_grows_deletePath_attempts n path :
  blacklist_grows (GitHubStorage.deletePath_attempts n path).
Proof.
  induction n as [|n IH]; cbn [GitHubStorage.deletePath_attempts].
  - apply blacklist_grows_ret.
  - repeat first [ apply blacklist_grows_deletePath | apply IH | blacklist_grows_step ].
Qed.

Lemma blacklist_grows_deleteFolder `{Platform} folderId password :
  blacklist_grows (GitHubStorage.deleteFolder folderId password).
Proof.
  unfold GitHubStorage.deleteFolder, GitHubStorage.deleteFolderContentsWithRetry,
    GitHubStorage.deleteShareLinks.
  repeat first
    [ apply blacklist_grows_deleteFile
    | apply blacklist_grows_deletePath_attempts
    | blacklist_grows_step ].
Qed.

Lemma blacklist_grows_flagSuspiciousIP `{Platform} ip action now :
  blacklist_grows (GitHubStorage.flagSuspiciousIP ip action now).
Proof. unfold GitHubStorage.flagSuspiciousIP. repeat blacklist_grows_step. Qed.

Lemma blacklist_grows_isIPBlacklisted `{Platform} ip :
  blacklist_grows (GitHubStorage.isIPBlacklisted ip).
Proof. unfold GitHubStorage.isIPBlacklisted. repeat blacklist_grows_step. Qed.

(** Adding an address and going on. *)
Lemma blacklist_grows_add {A} ip (k : M A) :
  blacklist_grows k →
  blacklist_grows
    (let* w := get_world in set_blacklistedIPs ({[ ip ]} ∪ blacklistedIPs w) ;; k).
Proof.
  intros Hk w. unfold bind, get_world, set_blacklistedIPs. cbn.
  match goal with |- context [k ?w1] => specialize (Hk w1); destruct (k w1) as [[a|e|] w2] end;
    cbn in *; set_solver.
Qed.

Lemma blacklist_grows_addToBlacklist `{Platform} ip evidence now :
  blacklist_grows (GitHubStorage.addToBlacklist ip evidence now).
Proof.
  unfold GitHubStorage.addToBlacklist.
  apply blacklist_grows_bind; [apply blacklist_grows_loadData|]. intros loaded.
  cbn zeta.
  repeat first [ apply blacklist_grows_add | blacklist_grows_step ].
Qed.

Lemma perform_grows `{Platform} (c : call) (w : world) :
  blacklistedIPs w ⊆ blacklistedIPs (perform c w).
Proof.
  destruct c; cbn [perform].
  - apply blacklist_grows_createFolder.
  - apply blacklist_grows_saveEmail.
  - apply blacklist_grows_updateEmailLikes.
  - apply blacklist_grows_checkFolderApproval.
  - apply blacklist_grows_deleteFolder.
  - apply blacklist_grows_addToBlacklist.
  - apply blacklist_grows_isIPBlacklisted.
  - apply blacklist_grows_flagSuspiciousIP.
  - apply blacklist_grows_checkRateLimit.
Qed.

Lemma perform_all_grows `{Platform} (calls : list call) (w : world) :
  blacklistedIPs w ⊆ blacklistedIPs (perform_all calls w).
Proof.
  revert w. induction calls as [|c rest IH]; intros w; cbn; [done|].
  etrans; [apply (perform_grows c) | apply IH].
Qed.

(** Once an address is in the in-memory set, the rate limiter denies it on
    this singleton after any further requests. *)
Lemma blacklisted_stays_denied `{Platform} (w : world) (ip : string) :
  ip ∈ blacklistedIPs w →
  ∀ (calls : list call) (action : string) (later : Z),
    SecurityManager.checkRateLimit ip action later (perform_all calls w)
    = (Ok false, perform_all calls w).
Proof.
  intros Hin calls action later. apply checkRateLimit_blacklisted.
  by apply (perform_all_grows calls w).
Qed.

Lemma loaded_blacklist_document `{Platform} (w : world) (loaded : option json) :
  fst (GitHubStorage.loadData GitHubStorage.blacklist_path w) = Ok loaded →
  (if truthy loaded then spread (default JNull loaded) else empty_blacklist)
  = blacklist_document w.
Proof.
  intros Hload. unfold blacklist_document. destruct loaded as [d|].
  - destruct (loadData_Some_inv _ _ _ Hload) as ([s c] & -> & Hc). cbn in Hc. subst c.
    reflexivity.
  - by rewrite (loadData_None_inv _ _ Hload).
Qed.

Lemma addToBlacklist_promotes `{Platform}
    (w w' : world) (ip : string) (evidence : json) (now : Z) :
  GitHubStorage.addToBlacklist ip evidence now w = (Ok tt, w') →
  listed w ip = false →
  (3 ≤ length (List.filter (GitHubStorage.is_recent now)
                 (reports_on w ip ++ [new_report now evidence])))%nat →
  listed w' ip = true ∧ ip ∈ blacklistedIPs w'.
Proof.
  intros Hrun Hlisted Hcount. unfold GitHubStorage.addToBlacklist in Hrun.
  apply bind_ok_inv in Hrun as (loaded & w1 & Hload & Hrun).
  pose proof (readonly_loadData GitHubStorage.blacklist_path w) as Hro.
  rewrite Hload in Hro. cbn in Hro. subst w1.
  apply (f_equal fst) in Hload. cbn [fst] in Hload.
  cbn zeta in Hrun.
  pose proof (loaded_blacklist_document w loaded Hload) as Hdoc.
  unfold empty_blacklist at 1 in Hdoc. rewrite Hdoc in Hrun. clear Hdoc.
  unfold listed, reports_on in *.
  destruct (Obj.get "pendingReports" (blacklist_document w))
    as [[| | | | |pendingReports]|] eqn:Hpending; try discriminate.
  (* the record of the address, and the reports it holds *)
  assert (∃ pending,
            Obj.get (SHA256 ip)
              (if truthy (Obj.get (SHA256 ip) pendingReports) then pendingReports
               else Obj.set (SHA256 ip)
                      (JObj [ ("reports", JArr []);
                              ("firstReportedAt", JStr (toISOString now)) ])
                      pendingReports)
            = Some (JObj pending)
            ∧ ∀ reports, Obj.get "reports" pending = Some (JArr reports) →
                         reports = match Obj.get (SHA256 ip) pendingReports with
                                   | Some (JObj pending0) =>
                                       match Obj.get "reports" pending0 with
                                       | Some (JArr reports0) => reports0
                                       | _ => []
                                       end
                                   | _ => []
                                   end) as (pending & Hrecord & Hreports).
  { destruct (truthy (Obj.get (SHA256 ip) pendingReports)) eqn:Htruthy.
    - destruct (Obj.get (SHA256 ip) pendingReports) as [[| | | | |pending]|];
        try discriminate.
      exists pending. split; [done|]. by intros reports ->.
    - eexists. split; [apply Obj_get_set_eq|].
      intros reports [= <-].
      by destruct (Obj.get (SHA256 ip) pendingReports) as [[| | | | |pending]|]. }
  rewrite Hrecord in Hrun.
  destruct (Obj.get "reports" pending) as [[| | | |reports|]|] eqn:Hget; try discriminate.
  rewrite <- (Hreports reports eq_refl) in Hcount. clear Hreports.
  destruct (existsb _ _); [discriminate|].
  rewrite Obj_get_set_ne in Hrun by discriminate.
  destruct (Obj.get "ips" (blacklist_document w)) as [[| | | |ips|]|] eqn:Hips.
  all: unfold new_report in Hcount.
  all: rewrite (bool_decide_eq_true_2
                  (GitHubStorage.REPORTS_THRESHOLD ≤ Z.of_nat (length (List.filter _ _))))
         in Hrun by (unfold GitHubStorage.REPORTS_THRESHOLD; lia).
  all: try discriminate.
  rewrite Hlisted in Hrun. cbn [negb andb] in Hrun.
  rewrite !Obj_get_set_ne in Hrun by discriminate.
  destruct (Obj.get "entries" (blacklist_document w)) as [[| | | | |entries]|] eqn:Hentries;
    try discriminate.
  unfold bind at 1 in Hrun. unfold get_world at 1 in Hrun.
  unfold bind at 1 in Hrun. unfold set_blacklistedIPs at 1 in Hrun.
  apply saveData_ok_inv in Hrun. subst w'. cbn [blacklistedIPs repo].
  split; [|set_solver].
  unfold blacklist_document. cbn [repo]. rewrite lookup_insert_eq. cbn [truthy spread].
  rewrite !Obj_get_set_ne by discriminate. rewrite Obj_get_set_eq.
  unfold GitHubStorage.ips_include. rewrite existsb_app. cbn.
  rewrite String.eqb_refl. apply orb_true_r.
Qed.

(** C5, amended.  When [addToBlacklist] succeeds for an address whose hash
    is not yet on the stored list, and the reports pending for the address,
    the new one included, count at least 3 inside the window of 7 days, the
    hash is on the stored list afterwards and the address is in the
    in-memory set of the singleton; from then on, after any further
    requests to this singleton, [checkRateLimit] returns [false] for the
    address, for every action and at every time. *)
Theorem blacklist_promotion `{Platform}
    (w w' : world) (ip : string) (evidence : json) (now : Z) :
  GitHubStorage.addToBlacklist ip evidence now w = (Ok tt, w') →
  listed w ip = false →
  (3 ≤ length (List.filter (GitHubStorage.is_recent now)
                 (reports_on w ip ++ [new_report now evidence])))%nat →
  listed w' ip = true
  ∧ ip ∈ blacklistedIPs w'
  ∧ ∀ (calls : list call) (action : string) (later : Z),
      SecurityManager.checkRateLimit ip action later (perform_all calls w')
      = (Ok false, perform_all calls w').
Proof.
  intros Hrun Hlisted Hcount.
  destruct (addToBlacklist_promotes w w' ip evidence now Hrun Hlisted Hcount) as [Hon Hin].
  split; [exact Hon|]. split; [exact Hin|].
  by apply blacklisted_stays_denied.
Qed.

(** C5, as stated, fails: on a singleton created after the hash was put on
    the stored list, a third report inside the window succeeds and the hash
    is on the list, but [addToBlacklist] adds the address to the in-memory
    set only when it adds the hash to the list, and [checkRateLimit], which
    reads the in-memory set alone, allows the address. *)
Lemma blacklisted_address_allowed_after_reload :
  let w' := perform (AddToBlacklist "6.6.6.6" (JStr "spam") 6000) relisted_world in
  GitHubStorage.addToBlacklist "6.6.6.6" (JStr "spam") 6000 relisted_world = (Ok tt, w')
  ∧ length (List.filter (GitHubStorage.is_recent 6000)
              (reports_on relisted_world "6.6.6.6" ++ [new_report 6000 (JStr "spam")]))
    = 3%nat
  ∧ listed w' "6.6.6.6" = true
  ∧ fst (SecurityManager.checkRateLimit "6.6.6.6" "CREATE_FOLDER" 7000 w') = Ok true.
Proof.
  cbn zeta. repeat split; vm_compute; reflexivity.
Qed.

(** So the statement of the specification does not hold. *)
Lemma blacklist_claim_fails : ¬ blacklist_claim_as_stated.
Proof.
  intros Hclaim.
  pose proof (Hclaim relisted_world
                (perform (AddToBlacklist "6.6.6.6" (JStr "spam") 6000) relisted_world)
                "6.6.6.6" (JStr "spam") 6000) as Hthird.
  assert (GitHubStorage.addToBlacklist "6.6.6.6" (JStr "spam") 6000 relisted_world
          = (Ok tt, perform (AddToBlacklist "6.6.6.6" (JStr "spam") 6000) relisted_world))
    as Hrun by (vm_compute; reflexivity).
  assert (3 ≤ length (List.filter (GitHubStorage.is_recent 6000)
                        (reports_on relisted_world "6.6.6.6"
                         ++ [new_report 6000 (JStr "spam")])))%nat
    as Hcount by (vm_compute; lia).
  destruct (Hthird Hrun Hcount) as [_ Hdenied].
  specialize (Hdenied "CREATE_FOLDER" 7000).
  vm_compute in Hdenied. discriminate.
Qed.

(** The third report against 6.6.6.6 within three seconds puts its hash on
    the list, and the rate limiter denies the address from then on. *)
Lemma blacklist_promotion_example :
  let w' := perform (AddToBlacklist "6.6.6.6" (JStr "spam") 3000) two_reports_world in
  listed w' "6.6.6.6" = true
  ∧ "6.6.6.6" ∈ blacklistedIPs w'
  ∧ ∀ (calls : list call) (action : string) (later : Z),
      SecurityManager.checkRateLimit "6.6.6.6" action later (perform_all calls w')
      = (Ok false, perform_all calls w').
Proof.
  cbn zeta.
  apply (blacklist_promotion two_reports_world
           (perform (AddToBlacklist "6.6.6.6" (JStr "spam") 3000) two_reports_world)
           "6.6.6.6" (JStr "spam") 3000).
  - vm_compute; reflexivity.
  - vm_compute; reflexivity.
  - vm_compute; lia.
Defined.

(** ** Generated passwords *)

Lemma append_cons (c : ascii) (s t : string) : String c s +:+ t = String c (s +:+ t).
Proof. reflexivity. Qed.

Lemma append_empty_r (s : string) : s +:+ "" = s.
Proof. induction s as [|c s IH]; [done|]. rewrite append_cons. by f_equal. Qed.

Lemma join_empty_cons (p : string) (rest : list string) :
  join "" (p :: rest) = p +:+ join "" rest.
Proof.
  destruct rest as [|q rest]; cbn [join]; [|done].
  by rewrite append_empty_r.
Qed.

Lemma get_within (s : string) (i : nat) :
  (i < String.length s)%nat →
  ∃ c, String.get i s = Some c ∧ c ∈ list_ascii_of_string s.
Proof.
  revert i. induction s as [|a s IH]; intros i Hi; cbn in Hi; [lia|].
  destruct i as [|i]; cbn.
  - exists a. split; [done | left].
  - destruct (IH i) as (c & Hget & Hin); [lia|]. exists c. split; [done | by right].
Qed.

Lemma pick_one (charset : string) (b : Byte.byte) :
  charset ≠ "" →
  ∃ c, SecurityManager.pick charset b = String c "" ∧ c ∈ list_ascii_of_string charset.
Proof.
  intros Hne. unfold SecurityManager.pick.
  destruct (get_within charset
              (N.to_nat (Byte.to_N b mod N.of_nat (String.length charset)))) as (c & -> & Hin).
  - assert (0 < String.length charset)%nat by (destruct charset; [done | cbn; lia]).
    pose proof (N.mod_lt (Byte.to_N b) (N.of_nat (String.length charset))). lia.
  - by exists c.
Qed.

Lemma picked_text (charset : string) (randomBytes : list Byte.byte) :
  charset ≠ "" →
  String.length (join "" (List.map (SecurityManager.pick charset) randomBytes))
    = length randomBytes
  ∧ made_of charset (join "" (List.map (SecurityManager.pick charset) randomBytes)).
Proof.
  intros Hne. induction randomBytes as [|b rest [IHlen IHof]]; [by split; [|constructor]|].
  cbn [List.map]. rewrite join_empty_cons.
  destruct (pick_one charset b Hne) as (c & -> & Hin). rewrite append_cons. cbn.
  split; [by f_equal | by constructor].
Qed.

(** X1.  The two password generators map every random byte to one
    character of their alphabet: the password has as many characters as
    bytes were drawn (20 for a folder, 16 for a content password), and
    holds no character outside the alphabet. *)
Theorem generated_passwords_stay_in_alphabet (randomBytes : list Byte.byte) :
  String.length (SecurityManager.generateSecurePassword randomBytes) = length randomBytes
  ∧ made_of
      "abcdefghijklmnopqrstuvwxyzABCDEFGHIJKLMNOPQRSTUVWXYZ0123456789!@#$%^&*()_+-=[]{}|;:,.<>?"
      (SecurityManager.generateSecurePassword randomBytes)
  ∧ String.length (SecurityManager.generateContentPassword randomBytes) = length randomBytes
  ∧ made_of "abcdefghijklmnopqrstuvwxyzABCDEFGHIJKLMNOPQRSTUVWXYZ0123456789!@#$%^&*"
      (SecurityManager.generateContentPassword randomBytes).
Proof.
  unfold SecurityManager.generateSecurePassword, SecurityManager.generateContentPassword.
  cbn zeta.
  split; [|split; [|split]]; apply picked_text; discriminate.
Qed.

(** ** What the rate limiter denies and what it records *)

(** X2.  [checkRateLimit] answers [false] for the addresses on the
    in-memory blacklist and for no other: an address that is not on it is
    allowed, or the call throws (the [TypeError] of the missing method when
    the limit is reached, of the missing limit when the action is not one
    of [RATE_LIMITS]). *)
Theorem checkRateLimit_false_iff_blacklisted (w : world) (ip action : string) (now : Z) :
  fst (SecurityManager.checkRateLimit ip action now w) = Ok false ↔ ip ∈ blacklistedIPs w.
Proof.
  split.
  - intros Hfalse. destruct (decide (ip ∈ blacklistedIPs w)) as [|Hnot]; [done|]. exfalso.
    destruct (SecurityManager.RATE_LIMITS action) as [l|] eqn:Hl.
    + rewrite (checkRateLimit_eq w ip action now l Hnot Hl) in Hfalse. cbn zeta in Hfalse.
      destruct (decide _); discriminate.
    + unfold SecurityManager.checkRateLimit, bind, get_world in Hfalse.
      rewrite decide_False, Hl in Hfalse by done.
      destruct (rateLimitCache w !! _); cbn in Hfalse; discriminate.
  - intros Hin. by rewrite checkRateLimit_blacklisted.
Qed.

Lemma limited_action_colon_free (action : string) (l : SecurityManager.limit) :
  SecurityManager.RATE_LIMITS action = Some l → colon_free action.
Proof.
  unfold SecurityManager.RATE_LIMITS, colon_free.
  repeat case_decide; try discriminate; subst; intros _; cbn;
    rewrite ?elem_of_cons, elem_of_nil; intuition discriminate.
Qed.

Lemma colon_inside (r a : string) : ¬ colon_free (r +:+ ":" +:+ a).
Proof.
  unfold colon_free. intros Hfree. apply Hfree. clear Hfree.
  induction r as [|c r IH]; cbn; [left | by right].
Qed.

(** The key [`${ip}:${action}`] determines the address and the action when
    the action holds no colon, also for an IPv6 address. *)
Lemma rate_key_inj (ip ip' action action' : string) :
  colon_free action → colon_free action' →
  rate_key ip action = rate_key ip' action' → ip = ip' ∧ action = action'.
Proof.
  unfold rate_key. intros Ha Ha'. revert ip'.
  induction ip as [|c r IH]; intros [|c' r'] Heq;
    repeat first [ progress change (String ?a ?s +:+ ?t) with (String a (s +:+ t)) in Heq
                 | progress change ("" +:+ ?t) with t in Heq ].
  - by injection Heq as ->.
  - injection Heq as <- ->. by destruct (colon_inside r' action').
  - injection Heq as -> <-. by destruct (colon_inside r action).
  - injection Heq as -> Heq. destruct (IH r' Heq) as [-> ->]. done.
Qed.

(** X3.  A call for one address and action leaves the record of every
    other address or action as it is, and touches neither the repository
    nor the blacklist nor the flag of the singleton. *)
Theorem checkRateLimit_keeps_other_records
    (w : world) (ip action ip' action' : string) (now : Z) (l l' : SecurityManager.limit) :
  SecurityManager.RATE_LIMITS action = Some l →
  SecurityManager.RATE_LIMITS action' = Some l' →
  (ip', action') ≠ (ip, action) →
  let w' := snd (SecurityManager.checkRateLimit ip action now w) in
  recorded w' ip' action' = recorded w ip' action'
  ∧ repo w' = repo w
  ∧ blacklistedIPs w' = blacklistedIPs w
  ∧ initialized w' = initialized w.
Proof.
  intros Hl Hl' Hne. cbn zeta.
  assert (rate_key ip action ≠ rate_key ip' action') as Hkey.
  { intros Heq. apply Hne.
    destruct (rate_key_inj ip ip' action action') as [-> ->]; [| |exact Heq|done];
      by eapply limited_action_colon_free. }
  destruct (decide (ip ∈ blacklistedIPs w)) as [Hin|Hnot].
  { by rewrite checkRateLimit_blacklisted. }
  rewrite (checkRateLimit_eq w ip action now l Hnot Hl). cbn zeta.
  destruct (decide _); cbn [snd].
  - unfold touched, recorded. destruct (rateLimitCache w !! rate_key ip action); [done|].
    cbn. by rewrite lookup_insert_ne.
  - unfold recorded. cbn. by rewrite lookup_insert_ne.
Qed.

Lemma checkRateLimit_keeps_other_records_example :
  let w' := snd (SecurityManager.checkRateLimit "::1" "LIKE_ACTION" 7 Example.fresh) in
  recorded w' "::1" "CREATE_EMAIL" = recorded Example.fresh "::1" "CREATE_EMAIL"
  ∧ repo w' = repo Example.fresh
  ∧ blacklistedIPs w' = blacklistedIPs Example.fresh
  ∧ initialized w' = initialized Example.fresh.
Proof.
  apply (checkRateLimit_keeps_other_records Example.fresh "::1" "LIKE_ACTION" "::1"
           "CREATE_EMAIL" 7 (SecurityManager.Limit 50 3600000)
           (SecurityManager.Limit 20 3600000));
    [reflexivity | reflexivity | discriminate].
Defined.

Lemma recent_within now l requests :
  Forall (fun t => now - t < SecurityManager.window l) (recent now l requests).
Proof.
  unfold recent. induction requests as [|t rest IH]; cbn; [constructor|].
  destruct (bool_decide _) eqn:Ht; [|done].
  constructor; [by apply bool_decide_eq_true in Ht | done].
Qed.

(** X4.  After an allowed call the record of the key holds the
    timestamps that were still inside the window and the time of the call
    as its last entry: it never holds more entries than the limit of the
    action, and none that has left the window. *)
Theorem checkRateLimit_record_bounded
    (w : world) (ip action : string) (now : Z) (l : SecurityManager.limit) :
  SecurityManager.RATE_LIMITS action = Some l →
  fst (SecurityManager.checkRateLimit ip action now w) = Ok true →
  let after := recorded (snd (SecurityManager.checkRateLimit ip action now w)) ip action in
  after = (recent now l (recorded w ip action) ++ [now])%list
  ∧ Z.of_nat (length after) ≤ SecurityManager.max l
  ∧ Forall (fun t => now - t < SecurityManager.window l) after.
Proof.
  intros Hl Htrue. cbn zeta.
  destruct (decide (ip ∈ blacklistedIPs w)) as [Hin|Hnot].
  { by rewrite checkRateLimit_blacklisted in Htrue. }
  rewrite (checkRateLimit_eq w ip action now l Hnot Hl) in *. cbn zeta in *.
  destruct (decide _) as [|Hunder]; [discriminate|]. cbn [snd].
  rewrite recorded_insert. split; [done|]. split.
  - rewrite length_app. cbn. lia.
  - apply Forall_app. split; [apply recent_within|].
    constructor; [|constructor].
    assert (0 < SecurityManager.window l); [|lia].
    revert Hl. unfold SecurityManager.RATE_LIMITS.
    repeat case_decide; intros [= <-]; cbn; lia.
Qed.

Lemma checkRateLimit_record_bounded_example :
  let w := World ∅ {[ rate_key "1.2.3.4" "CREATE_FOLDER" := [0; 10; 3600005] ]} ∅ false in
  let after :=
    recorded (snd (SecurityManager.checkRateLimit "1.2.3.4" "CREATE_FOLDER" 3600010 w))
             "1.2.3.4" "CREATE_FOLDER" in
  after = (recent 3600010 (SecurityManager.Limit 5 3600000)
             (recorded w "1.2.3.4" "CREATE_FOLDER") ++ [3600010])%list
  ∧ Z.of_nat (length after) ≤ 5
  ∧ Forall (fun t => 3600010 - t < 3600000) after.
Proof.
  apply (checkRateLimit_record_bounded
           (World ∅ {[ rate_key "1.2.3.4" "CREATE_FOLDER" := [0; 10; 3600005] ]} ∅ false)
           "1.2.3.4" "CREATE_FOLDER" 3600010 (SecurityManager.Limit 5 3600000));
    [reflexivity | by vm_compute].
Defined.

(** ** Directories that are not there *)

Lemma append_assoc (a b c : string) : (a +:+ b) +:+ c = a +:+ (b +:+ c).
Proof. induction a as [|x a IH]; [done|]. rewrite !append_cons. by f_equal. Qed.




Lemma ensureDirectoryExists_directory `{Platform} (w : world) (path : string) (fuel : nat) :
  is_directory w path →
  GitHubStorage.ensureDirectoryExists (S fuel) path w = (Ok true, w).
Proof.
  intros [Hfile Hdir]. cbn [GitHubStorage.ensureDirectoryExists].
  unfold try_catch, bind, GET. rewrite Hfile.
  destruct (children path (repo w)); [done|]. reflexivity.
Qed.



(** ** Creating a folder and initialising the repository *)

Lemma char_inside (c : ascii) (r a : string) : c ∈ list_ascii_of_string (r +:+ String c a).
Proof. induction r as [|x r IH]; cbn; [left | by right]. Qed.



(** X7.  Over a repository that holds the ten directories,
    [initializeRepository] only reads: it returns with the flag
    [initialized] set and the repository as it was, and a call made with
    the flag set does nothing at all. *)
Theorem initializeRepository_over_skeleton `{Platform} (w : world) (fuel : nat) :
  initialized w = false →
  (∀ dir, dir ∈ GitHubStorage.directories → is_directory w dir) →
  let w' := World (repo w) (rateLimitCache w) (blacklistedIPs w) true in
  GitHubStorage.initializeRepository (S fuel) w = (Ok tt, w')
  ∧ GitHubStorage.initializeRepository (S fuel) w' = (Ok tt, w').
Proof.
  intros Hflag Hdirs. cbn zeta. split; [|reflexivity].
  unfold GitHubStorage.initializeRepository, bind at 1, get_world. rewrite Hflag.
  assert (∀ dirs, (∀ dir, dir ∈ dirs → is_directory w dir) →
            for_each (fun dir => GitHubStorage.ensureDirectoryExists (S fuel) dir ;; ret tt)
              dirs w = (Ok tt, w)) as Hloop.
  { induction dirs as [|dir rest IH]; intros Hall; [done|].
    cbn [for_each]. unfold bind at 1 2.
    rewrite ensureDirectoryExists_directory by (apply Hall; left). cbn.
    apply IH. intros d Hd. apply Hall. by right. }
  rewrite (bind_ok _ _ _ _ _ (Hloop _ Hdirs)). reflexivity.
Qed.

Lemma initializeRepository_over_skeleton_example :
  let w := Example.with_directories in
  let w' := World (repo w) (rateLimitCache w) (blacklistedIPs w) true in
  GitHubStorage.initializeRepository 1 w = (Ok tt, w')
  ∧ GitHubStorage.initializeRepository 1 w' = (Ok tt, w').
Proof.
  apply (initializeRepository_over_skeleton Example.with_directories 0); [reflexivity|].
  intros dir Hdir. unfold GitHubStorage.directories in Hdir.
  rewrite !elem_of_cons, elem_of_nil in Hdir.
  destruct Hdir as [->|[->|[->|[->|[->|[->|[->|[->|[->|[->|[]]]]]]]]]]];
    (split; [by vm_compute | by vm_compute]).
Defined.

(** ** The listing of a directory *)

Lemma strip_prefix_spec (p s rest : string) :
  strip_prefix p s = Some rest ↔ s = p +:+ rest.
Proof.
  revert s. induction p as [|a p IH]; intros s; cbn.
  - split; [by intros [= ->] | by intros ->].
  - destruct s as [|b s]; [split; [done|]; rewrite append_cons; done|].
    rewrite append_cons. case_decide as Hab.
    + subst b. rewrite IH. split; [by intros -> | by intros [= ->]].
    + split; [done | intros [= -> _]; done].
Qed.

Lemma elem_of_children (e : entry) (path : string) (r : gmap string file) :
  e ∈ children path r
  ↔ ∃ rest f, r !! (path +:+ "/" +:+ rest) = Some f ∧ e = first_segment rest.
Proof.
  unfold children. rewrite merge_sort_Permutation, elem_of_remove_dups, list_elem_of_omap.
  split.
  - intros ([k f] & Hin & Hseg). apply elem_of_map_to_list in Hin. cbn in Hseg.
    destruct (strip_prefix (path +:+ "/") k) as [rest|] eqn:Hstrip; [|discriminate].
    injection Hseg as <-. apply strip_prefix_spec in Hstrip. subst k.
    exists rest, f. by rewrite <- append_assoc.
  - intros (rest & f & Hf & ->). exists (path +:+ "/" +:+ rest, f). split.
    + by apply elem_of_map_to_list.
    + cbn. rewrite <- append_assoc.
      by rewrite (proj2 (strip_prefix_spec (path +:+ "/") _ rest) eq_refl).
Qed.

Lemma children_nil (path : string) (r : gmap string file) :
  children path r = [] ↔ ∀ rest, r !! (path +:+ "/" +:+ rest) = None.
Proof.
  split.
  - intros Hnil rest. destruct (r !! _) as [f|] eqn:Hf; [|done].
    assert (first_segment rest ∈ children path r) as Hin
      by (apply elem_of_children; by exists rest, f).
    rewrite Hnil in Hin. by apply elem_of_nil in Hin.
  - intros Hnone. destruct (children path r) as [|e l] eqn:Hc; [done|].
    assert (e ∈ children path r) as Hin by (rewrite Hc; left).
    apply elem_of_children in Hin as (rest & f & Hf & _). by rewrite Hnone in Hf.
Qed.

Lemma first_segment_slash_free (rest : string) : slash_free (name (first_segment rest)).
Proof.
  unfold slash_free. induction rest as [|c rest IH]; cbn; [apply not_elem_of_nil|].
  case_decide as Hc; cbn; [apply not_elem_of_nil|].
  rewrite elem_of_cons. intros [Heq|Hin]; [by subst c | done].
Qed.

Lemma children_slash_free (e : entry) (path : string) (r : gmap string file) :
  e ∈ children path r → slash_free (name e).
Proof.
  intros Hin. apply elem_of_children in Hin as (rest & f & _ & ->).
  apply first_segment_slash_free.
Qed.

Lemma slash_inside (a b : string) : ¬ slash_free (a +:+ "/" +:+ b).
Proof. intros Hfree. apply Hfree. apply (char_inside "/" a b). Qed.

Lemma append_inv_head (a x y : string) : a +:+ x = a +:+ y → x = y.
Proof.
  induction a as [|c a IH]; [done|]. rewrite !append_cons. intros [= Heq]. by apply IH.
Qed.

(** ** [deleteFile] *)

Lemma world_same_repo (w : world) (r : gmap string file) :
  r = repo w → World r (rateLimitCache w) (blacklistedIPs w) (initialized w) = w.
Proof. intros ->. by destruct w. Qed.

Lemma deleteFile_run (w : world) (path : string) :
  GitHubStorage.deleteFile path w
  = (Ok tt, World (delete path (repo w)) (rateLimitCache w) (blacklistedIPs w) (initialized w)).
Proof.
  destruct (repo w !! path) as [f|] eqn:Hf.
  - by apply (deleteFile_existing w path f).
  - rewrite world_same_repo by (by rewrite delete_id).
    unfold GitHubStorage.deleteFile, try_catch, bind, GET. rewrite Hf.
    destruct (children path (repo w)); [done|].
    unfold DELETE. by rewrite Hf.
Qed.

(** ** What deleting a folder touches *)

Lemma touches_only_readonly {A} P (m : M A) : readonly m → touches_only P m.
Proof. intros Hro w k _. by rewrite Hro. Qed.

Lemma touches_only_weaken {A} (P Q : string → Prop) (m : M A) :
  touches_only P m → (∀ k, P k → Q k) → touches_only Q m.
Proof. intros Hm HPQ w k Hk. apply Hm. intros HP. by apply Hk, HPQ. Qed.

Lemma touches_only_bind_with {A B} P (Q : A → Prop) (m : M A) (k : A → M B) :
  touches_only P m → returns_only Q m → (∀ a, Q a → touches_only P (k a)) →
  touches_only P (let* a := m in k a).
Proof.
  intros Hm HQ Hk w key Hkey. unfold bind.
  specialize (Hm w key Hkey). specialize (HQ w).
  destruct (m w) as [[a|e|] w1]; cbn in *; [|done|done].
  rewrite (Hk a (HQ a eq_refl) w1 key Hkey). exact Hm.
Qed.

Lemma touches_only_bind {A B} P (m : M A) (k : A → M B) :
  touches_only P m → (∀ a, touches_only P (k a)) → touches_only P (let* a := m in k a).
Proof.
  intros Hm Hk. apply (touches_only_bind_with P (fun _ => True)); [done | done | auto].
Qed.

Lemma touches_only_try_catch {A} P (m : M A) h :
  touches_only P m → (∀ e, touches_only P (h e)) → touches_only P (try_catch m h).
Proof.
  intros Hm Hh w key Hkey. unfold try_catch. specialize (Hm w key Hkey).
  destruct (m w) as [[a|e|] w1]; cbn in *; [done| |done].
  rewrite (Hh e w1 key Hkey). exact Hm.
Qed.

Lemma touches_only_for_each {A} P (f : A → M unit) (Q : A → Prop) xs :
  Forall Q xs → (∀ x, Q x → touches_only P (f x)) → touches_only P (for_each f xs).
Proof.
  intros Hxs Hf. induction Hxs as [|x rest Hx Hrest IH]; cbn [for_each].
  - by apply touches_only_readonly.
  - apply touches_only_bind; [by apply Hf | intros _; exact IH].
Qed.

Lemma touches_only_deleteFile (P : string → Prop) path :
  P path → touches_only P (GitHubStorage.deleteFile path).
Proof.
  intros HP w k Hk. rewrite (deleteFile_run w path). cbn.
  apply lookup_delete_ne. by intros <-.
Qed.



Lemma returns_only_GET path :
  returns_only (fun r => match r with
                         | RDir entries => Forall (fun e => slash_free (name e)) entries
                         | RFile _ => True
                         end) (GET path).
Proof.
  intros w r. unfold GET. destruct (repo w !! path); [by intros [= <-]|].
  destruct (children path (repo w)) as [|e l] eqn:Hc; [discriminate|].
  intros [= <-]. apply Forall_forall. intros x Hx. apply (children_slash_free x path (repo w)).
  by rewrite Hc.
Qed.

Lemma touches_only_deletePath path :
  touches_only (at_or_directly_below path) (GitHubStorage.deletePath path).
Proof.
  unfold GitHubStorage.deletePath.
  apply touches_only_try_catch.
  - eapply touches_only_bind_with;
      [apply touches_only_readonly, readonly_GET | apply returns_only_GET |].
    intros [f|entries] Hnames.
    + apply touches_only_deleteFile. by left.
    + eapply touches_only_for_each; [exact Hnames|]. intros item Hitem. cbn beta.
      apply touches_only_try_catch; [|intros; by apply touches_only_readonly].
      apply touches_only_deleteFile. right. by exists (name item).
  - intros e. destruct (is404 e); by apply touches_only_readonly.
Qed.

Lemma touches_only_deletePath_attempts n path :
  touches_only (at_or_directly_below path) (GitHubStorage.deletePath_attempts n path).
Proof.
  induction n as [|n IH]; cbn [GitHubStorage.deletePath_attempts];
    [by apply touches_only_readonly|].
  apply touches_only_try_catch; [apply touches_only_deletePath|].
  intros e. destruct (_ && _); [by apply touches_only_readonly | exact IH].
Qed.

Lemma touches_only_loadData `{Platform} P path : touches_only P (GitHubStorage.loadData path).
Proof. apply touches_only_readonly, readonly_loadData. Qed.

Lemma touches_only_deleteShareLinks `{Platform} folderId :
  touches_only share_link (GitHubStorage.deleteShareLinks folderId).
Proof.
  unfold GitHubStorage.deleteShareLinks.
  apply touches_only_try_catch; [|intros; by apply touches_only_readonly].
  apply touches_only_bind; [apply touches_only_readonly, readonly_GET|].
  intros [f|entries]; [by apply touches_only_readonly|].
  apply (touches_only_for_each _ _ (fun _ => True)); [by apply Forall_true|].
  intros item _. apply touches_only_try_catch; [|intros; by apply touches_only_readonly].
  apply touches_only_bind; [apply touches_only_loadData|].
  intros [d|]; [|by apply touches_only_readonly].
  destruct (_ && _); [|by apply touches_only_readonly].
  apply touches_only_deleteFile. by exists (name item).
Qed.

Lemma touches_only_deleteFolder `{Platform} folderId adminPassword :
  touches_only (deletable_with_folder folderId)
    (GitHubStorage.deleteFolder folderId adminPassword).
Proof.
  unfold GitHubStorage.deleteFolder.
  destruct (String.eqb folderId ""); [by apply touches_only_readonly|].
  destruct (String.eqb adminPassword ""); [by apply touches_only_readonly|].
  apply touches_only_bind; [apply touches_only_loadData|]. intros silent.
  eapply (touches_only_bind_with _
            (fun located => snd located = GitHubStorage.silent_path folderId
                            ∨ snd located = GitHubStorage.active_path folderId)).
  - destruct (truthy silent); [by apply touches_only_readonly|].
    apply touches_only_bind; [apply touches_only_loadData|]. intros active.
    destruct (truthy active); by apply touches_only_readonly.
  - intros w located. destruct (truthy silent); [intros [= <-]; by left|].
    unfold bind. destruct (GitHubStorage.loadData _ w) as [[active|e|] w1]; cbn; try done.
    destruct (truthy active); [intros [= <-]; by right | done].
  - intros [folder folderPath] Hpath. cbn in Hpath.
    destruct (negb _); [by apply touches_only_readonly|].
    apply touches_only_bind.
    { unfold GitHubStorage.deleteFolderContentsWithRetry. cbn [for_each].
      repeat (apply touches_only_bind; [|intros _]);
        try (by apply touches_only_readonly);
        (eapply touches_only_weaken; [apply touches_only_deletePath_attempts|]);
        intros k Hk; unfold deletable_with_folder; rewrite <- ?append_assoc in Hk; tauto. }
    intros _. apply touches_only_bind.
    { apply touches_only_deleteFile. destruct Hpath as [-> | ->]; [by left | right; by left]. }
    intros _. apply touches_only_bind.
    { eapply touches_only_weaken; [apply touches_only_deleteShareLinks|].
      intros k Hk. by do 5 right. }
    intros _. by apply touches_only_readonly.
Qed.

Ltac string_head H :=
  repeat first [ progress change (String ?a ?s +:+ ?t) with (String a (s +:+ t)) in H
               | progress change ("" +:+ ?t) with t in H ].

(** X9.  [deleteFolder] never removes an attachment.  The attachments of
    an email are stored two levels below [data/attachments/<folderId>], and
    [deletePath] deletes only the files directly below the path it is
    given: whatever the outcome of [deleteFolder], every file at
    [data/attachments/<folderId>/<emailId>/<name>] is stored afterwards as
    it was before. *)
Theorem deleteFolder_keeps_attachments `{Platform}
    (w : world) (folderId adminPassword emailId attachmentName : string) :
  let path := "data/attachments/" +:+ folderId +:+ "/" +:+ emailId +:+ "/" +:+ attachmentName in
  repo (snd (GitHubStorage.deleteFolder folderId adminPassword w)) !! path = repo w !! path.
Proof.
  cbn zeta. apply touches_only_deleteFolder.
  unfold deletable_with_folder, at_or_directly_below, share_link,
    GitHubStorage.silent_path, GitHubStorage.active_path.
  intros [Heq|[Heq|[[Heq|(nm & Hnm & Heq)]|[[Heq|(nm & Hnm & Heq)]|[[Heq|(nm & Hnm & Heq)]|(nm & Heq)]]]]];
    string_head Heq; try discriminate.
  - injection Heq as Heq. apply (f_equal String.length) in Heq.
    rewrite !length_append in Heq. cbn in Heq. lia.
  - injection Heq as Heq. apply append_inv_head in Heq. injection Heq as Heq.
    subst nm. by apply (slash_inside emailId attachmentName).
Qed.

(** ** Saving and loading *)

Lemma strict_eq_refl_string (s : string) : strict_eq (Some (JStr s)) (Some (JStr s)) = true.
Proof. cbn. apply String.eqb_refl. Qed.

Lemma loadData_verifiable `{Platform} (w : world) (path : string) (f : file) (data : object) :
  repo w !! path = Some f → content f = Some (JObj data) → verifiable data →
  GitHubStorage.loadData path w = (Ok (Some (JObj data)), w).
Proof.
  intros Hf Hcontent Hok.
  pose proof (loadData_object w path f data Hf Hcontent) as Hload. cbn zeta in Hload.
  destruct Hok as [Hfalsy | Hsum].
  - by rewrite Hfalsy in Hload.
  - rewrite Hsum, strict_eq_refl_string, andb_false_r in Hload. exact Hload.
Qed.

Lemma saveData_writable `{Platform} (w : world) (path : string) (data : object) :
  writable w path →
  GitHubStorage.saveData path data w
  = (Ok tt, World (<[path := File (blob_sha (Some (JObj data))) (Some (JObj data))]> (repo w))
                  (rateLimitCache w) (blacklistedIPs w) (initialized w)).
Proof.
  intros [[Hnone Hdir] | (f & fields & Hf & Hsha & Hcontent & Hfalsy)].
  - by apply saveData_new.
  - unfold GitHubStorage.saveData, GitHubStorage.existing_sha, try_catch, bind.
    rewrite (GET_file _ _ _ Hf). cbn.
    rewrite (proj2 (String.eqb_neq (sha f) "")) by done. cbn.
    rewrite Hcontent, Hfalsy. cbn. unfold try_catch, PUT. rewrite Hf.
    by rewrite decide_True.
Qed.

(** X10.  What [saveData] writes, [loadData] reads: over a path that is
    free, or that holds an object without a truthy checksum, a document
    that is verifiable is stored, and the next [loadData] of the path
    returns it, member for member and in the same order. *)
Theorem saveData_then_loadData `{Platform} (w : world) (path : string) (data : object) :
  writable w path →
  verifiable data →
  ∃ w', GitHubStorage.saveData path data w = (Ok tt, w')
        ∧ GitHubStorage.loadData path w' = (Ok (Some (JObj data)), w').
Proof.
  intros Hwritable Hok. eexists. split; [by apply saveData_writable|].
  eapply loadData_verifiable; [cbn; apply lookup_insert_eq | reflexivity | exact Hok].
Qed.

Lemma saveData_then_loadData_example :
  ∃ w', GitHubStorage.saveData "data/blacklist/ips.json"
          [ ("ips", JArr [JStr "#6.6.6.6"]); ("entries", JObj []) ] two_reports_world
        = (Ok tt, w')
        ∧ GitHubStorage.loadData "data/blacklist/ips.json" w'
          = (Ok (Some (JObj [ ("ips", JArr [JStr "#6.6.6.6"]); ("entries", JObj []) ])), w').
Proof.
  apply (saveData_then_loadData two_reports_world "data/blacklist/ips.json").
  - right. eexists _, _. split; [by vm_compute|]. split; [by vm_compute|].
    split; [reflexivity | reflexivity].
  - by left.
Defined.

Lemma Obj_set_existing (k : string) (v v' : json) (o : object) :
  Obj.get k o = Some v → Obj.set k v (Obj.set k v' o) = o.
Proof.
  induction o as [|[k0 v0] rest IH]; cbn; [discriminate|].
  case_decide as Hk.
  - intros [= ->]. subst k0. cbn. by rewrite decide_True.
  - intros Hget. cbn. rewrite decide_False by done. f_equal. by apply IH.
Qed.

(** A document built as the source builds them -- with [checksum: ''],
    then [doc.checksum = generateChecksum(doc)] -- is verifiable. *)
Lemma stamped_verifiable `{Platform} (doc : object) :
  Obj.get "checksum" doc = Some (JStr "") →
  verifiable (Obj.set "checksum" (JStr (SecurityManager.generateChecksum (JObj doc))) doc).
Proof.
  intros Hempty. right. rewrite Obj_get_set_eq, Obj_set_existing by done. reflexivity.
Qed.

(** X11.  [saveData] does not check what it writes.  A document whose
    checksum is neither falsy nor a digest of the document is stored on a
    free path without complaint, and from then on the path is stuck: every
    [loadData] and every further [saveData] of the path throws "Data
    integrity check failed", and only [deleteFile] frees it again. *)
Theorem saveData_stores_unverifiable `{Platform}
    (w : world) (path : string) (data : object) (c : string) :
  missing w path →
  blob_sha (Some (JObj data)) ≠ "" →
  Obj.get "checksum" data = Some (JStr c) →
  c ≠ "" →
  SecurityManager.generateChecksum (JObj (Obj.set "checksum" (JStr "") data)) ≠ c →
  SecurityManager.generateChecksum (JObj data) ≠ c →
  ∃ w', GitHubStorage.saveData path data w = (Ok tt, w')
        ∧ GitHubStorage.loadData path w' = (Throw GitHubStorage.integrity_failure, w')
        ∧ (∀ data', GitHubStorage.saveData path data' w'
                    = (Throw GitHubStorage.integrity_failure, w'))
        ∧ GitHubStorage.deleteFile path w' = (Ok tt, w).
Proof.
  intros Hmissing Hsha Hget Hc Hcleared Hdigest.
  eexists. split; [apply saveData_writable; by left|].
  split; [|split].
  - erewrite loadData_object; [|cbn; apply lookup_insert_eq | reflexivity]. cbn zeta.
    rewrite Hget, (truthy_string c Hc). cbn.
    rewrite (proj2 (String.eqb_neq c _)) by congruence. reflexivity.
  - intros data'. eapply saveData_rejects_existing;
      [cbn; apply lookup_insert_eq | exact Hsha | reflexivity | exact Hget | exact Hc
      | exact Hdigest].
  - rewrite (deleteFile_run _ path). cbn. f_equal.
    apply world_same_repo. destruct Hmissing as [Hnone _]. by rewrite delete_insert_id.
Qed.

Lemma saveData_stores_unverifiable_example :
  ∃ w', GitHubStorage.saveData "data/folders/f-9.json"
          [ ("id", JStr "f-9"); ("checksum", JStr "made up") ] Example.fresh
        = (Ok tt, w')
        ∧ GitHubStorage.loadData "data/folders/f-9.json" w'
          = (Throw GitHubStorage.integrity_failure, w')
        ∧ (∀ data', GitHubStorage.saveData "data/folders/f-9.json" data' w'
                    = (Throw GitHubStorage.integrity_failure, w'))
        ∧ GitHubStorage.deleteFile "data/folders/f-9.json" w' = (Ok tt, Example.fresh).
Proof.
  apply (saveData_stores_unverifiable Example.fresh "data/folders/f-9.json"
           [ ("id", JStr "f-9"); ("checksum", JStr "made up") ] "made up").
  - split; [apply lookup_empty | by vm_compute].
  - by vm_compute.
  - reflexivity.
  - discriminate.
  - by vm_compute.
  - by vm_compute.
Defined.

(** ** Deleting a folder with its password *)

Lemma verifyPassword_own_hash `{Platform} (p : string) (saltBytes : list Byte.byte) :
  SecurityManager.verifyPassword p
    (Some (JStr (SecurityManager.hash (SecurityManager.hashPassword p saltBytes))))
    (Some (JStr (SecurityManager.salt (SecurityManager.hashPassword p saltBytes)))) = true.
Proof.
  unfold SecurityManager.verifyPassword, SecurityManager.hashPassword.
  cbn [SecurityManager.hash SecurityManager.salt].
  rewrite Hex_parse_stringify. apply String.eqb_refl.
Qed.


Lemma Obj_get_app_None (k : string) (o o' : object) :
  Obj.get k o = None → Obj.get k (o ++ o')%list = Obj.get k o'.
Proof.
  induction o as [|[k0 v0] rest IH]; cbn; [done|]. case_decide; [discriminate | exact IH].
Qed.


Lemma fails_only_for_each {A} P (f : A → M unit) xs :
  (∀ x, fails_only P (f x)) → fails_only P (for_each f xs).
Proof.
  intros Hf. induction xs as [|x rest IH]; cbn [for_each]; [apply fails_only_ret|].
  apply fails_only_bind; [apply Hf | intros _; exact IH].
Qed.

Lemma deleteFile_never_fails path : fails_only nothing (GitHubStorage.deleteFile path).
Proof. intros w. by rewrite (deleteFile_run w path). Qed.

Lemma deletePath_never_fails path : fails_only nothing (GitHubStorage.deletePath path).
Proof.
  unfold GitHubStorage.deletePath.
  apply (fails_only_try_catch (fun e => is404 e = true)).
  - apply fails_only_bind.
    + intros w. unfold GET. destruct (repo w !! path); [done|].
      destruct (children path (repo w)); [apply is404_not_found | done].
    + intros [f|entries].
      * eapply fails_only_weaken; [apply deleteFile_never_fails | done].
      * apply fails_only_for_each. intros item.
        apply (fails_only_try_catch anything); [|intros; apply fails_only_ret].
        eapply fails_only_weaken; [apply deleteFile_never_fails | done].
  - intros e ->. apply fails_only_ret.
Qed.

Lemma never_fails_run {A} (m : M A) (w : world) :
  fails_only nothing m → ∃ a, m w = (Ok a, snd (m w)).
Proof.
  intros Hm. specialize (Hm w). destruct (m w) as [[a|e|] w1]; [|done|done]. by exists a.
Qed.

Lemma deleteFolderContentsWithRetry_never_fails folderId :
  fails_only nothing (GitHubStorage.deleteFolderContentsWithRetry folderId).
Proof.
  unfold GitHubStorage.deleteFolderContentsWithRetry. apply fails_only_for_each.
  intros path. cbn [GitHubStorage.deletePath_attempts].
  apply (fails_only_try_catch nothing); [apply deletePath_never_fails | done].
Qed.

Lemma deleteShareLinks_never_fails `{Platform} folderId :
  fails_only nothing (GitHubStorage.deleteShareLinks folderId).
Proof.
  unfold GitHubStorage.deleteShareLinks.
  apply (fails_only_try_catch anything); [|intros; apply fails_only_ret].
  apply fails_only_bind; [apply ends_GET|].
  intros [f|entries]; [apply fails_only_ret|].
  apply fails_only_for_each. intros item.
  apply (fails_only_try_catch anything); [|intros; apply fails_only_ret].
  apply fails_only_bind; [apply ends_loadData|].
  intros [d|]; [|apply fails_only_ret].
  destruct (_ && _); [|apply fails_only_ret].
  eapply fails_only_weaken; [apply deleteFile_never_fails | done].
Qed.

Lemma link_not_silent_path folderId name :
  GitHubStorage.silent_path folderId ≠ "data/metadata/links/" +:+ name.
Proof. unfold GitHubStorage.silent_path. intros Heq. string_head Heq. discriminate. Qed.

Lemma link_not_active_path folderId name :
  GitHubStorage.active_path folderId ≠ "data/metadata/links/" +:+ name.
Proof. unfold GitHubStorage.active_path. intros Heq. string_head Heq. discriminate. Qed.

(** [deleteFolder] with a password that verifies against the folder found
    at [folderPath]: it returns [true], and the document is gone. *)
Lemma deleteFolder_valid `{Platform}
    (w : world) (folderId adminPassword : string) (folder : json) :
  folderId ≠ "" → adminPassword ≠ "" →
  retrievable w (GitHubStorage.silent_path folderId) folder →
  SecurityManager.verifyPassword adminPassword
    (member "adminHash" folder) (member "adminSalt" folder) = true →
  ∃ w', GitHubStorage.deleteFolder folderId adminPassword w = (Ok true, w')
        ∧ repo w' !! GitHubStorage.silent_path folderId = None.
Proof.
  intros Hid Hpw [Hload Htruthy] Hvalid.
  destruct (never_fails_run _ w (deleteFolderContentsWithRetry_never_fails folderId))
    as [[] Hcontents].
  set (w1 := snd (GitHubStorage.deleteFolderContentsWithRetry folderId w)) in *.
  set (w2 := World (delete (GitHubStorage.silent_path folderId) (repo w1))
               (rateLimitCache w1) (blacklistedIPs w1) (initialized w1)).
  destruct (never_fails_run _ w2 (deleteShareLinks_never_fails folderId)) as [[] Hlinks].
  exists (snd (GitHubStorage.deleteShareLinks folderId w2)). split.
  - unfold GitHubStorage.deleteFolder.
    rewrite (proj2 (String.eqb_neq folderId "")), (proj2 (String.eqb_neq adminPassword ""))
      by done.
    erewrite bind_ok
      by (rewrite (readonly_run _ w (readonly_loadData _)), Hload; reflexivity).
    rewrite Htruthy. erewrite bind_ok by reflexivity. cbv beta iota zeta. cbn [default].
    unfold id. rewrite Hvalid. cbn [negb].
    erewrite bind_ok by exact Hcontents.
    erewrite bind_ok by apply deleteFile_run.
    erewrite bind_ok by exact Hlinks. reflexivity.
  - rewrite (touches_only_deleteShareLinks folderId w2).
    + apply lookup_delete_eq.
    + intros [nm Heq]. by apply link_not_silent_path in Heq.
Qed.




(** ** The approval of a silent folder *)

Lemma checkFolderApproval_keeps `{Platform}
    (w : world) (folderId : string) (folder : json) (now : Z) :
  retrievable w (GitHubStorage.silent_path folderId) folder →
  not_due w folderId folder now →
  GitHubStorage.checkFolderApproval folderId now w = (Ok (Some folder), w).
Proof.
  intros [Hload Htruthy] [Hage (n & Hn & Hfew)].
  destruct (getFolderInteractions_total w folderId) as [n' Hcount].
  rewrite Hcount in Hn. injection Hn as ->.
  unfold GitHubStorage.checkFolderApproval.
  erewrite bind_ok
    by (rewrite (readonly_run _ w (readonly_loadData _)), Hload; reflexivity).
  cbv beta iota. rewrite Htruthy. cbn [negb].
  erewrite bind_ok by exact Hcount.
  rewrite (bool_decide_eq_false_2 (GitHubStorage.MIN_INTERACTIONS ≤ n))
    by (unfold GitHubStorage.MIN_INTERACTIONS; lia).
  destruct (GitHubStorage.getTime_of (member "createdAt" folder)) as [created|]; cbn; [|done].
  rewrite bool_decide_eq_false_2; [done|].
  specialize (Hage created eq_refl). unfold GitHubStorage.TIME_TO_APPROVE. lia.
Qed.

(** X13.  A silent folder that is younger than 24 hours (or whose
    [createdAt] is no date) and counts fewer than 5 interactions stays
    silent: [checkFolderApproval] returns the document as stored and writes
    nothing.  Where no folder is at the silent path it returns [null], and
    writes nothing either. *)
Theorem checkFolderApproval_not_due `{Platform}
    (w : world) (folderId : string) (now : Z) :
  (∀ folder,
     retrievable w (GitHubStorage.silent_path folderId) folder →
     not_due w folderId folder now →
     GitHubStorage.checkFolderApproval folderId now w = (Ok (Some folder), w))
  ∧ (missing w (GitHubStorage.silent_path folderId) →
     GitHubStorage.checkFolderApproval folderId now w = (Ok None, w)).
Proof.
  split; [intros folder; apply checkFolderApproval_keeps|].
  intros [Hnone Hdir]. unfold GitHubStorage.checkFolderApproval, bind at 1.
  unfold GitHubStorage.loadData, try_catch, bind.
  by rewrite (GET_missing _ _ Hnone Hdir), is404_not_found.
Qed.

Lemma checkFolderApproval_not_due_example :
  ∃ folder,
    retrievable created_folder_world (GitHubStorage.silent_path "f-1") folder
    ∧ GitHubStorage.checkFolderApproval "f-1" 5000 created_folder_world
      = (Ok (Some folder), created_folder_world).
Proof.
  eexists. split.
  - split; vm_compute; reflexivity.
  - apply (proj1 (checkFolderApproval_not_due created_folder_world "f-1" 5000)).
    + split; by vm_compute.
    + split.
      * intros created Hcreated. vm_compute in Hcreated. injection Hcreated as <-. lia.
      * exists 0. split; [by vm_compute | lia].
Defined.

Lemma active_not_below_silent folderId rest :
  GitHubStorage.active_path folderId ≠ GitHubStorage.silent_path folderId +:+ "/" +:+ rest.
Proof.
  unfold GitHubStorage.active_path, GitHubStorage.silent_path. intros Heq.
  string_head Heq. discriminate.
Qed.

Lemma Obj_set_set_eq (k : string) (v v' : json) (o : object) :
  Obj.set k v (Obj.set k v' o) = Obj.set k v o.
Proof.
  induction o as [|[k0 v0] rest IH]; cbn.
  - by rewrite decide_True.
  - case_decide; cbn; [by rewrite decide_True | rewrite decide_False by done; by f_equal].
Qed.

(** X14.  The approval of a folder keeps the checksum of the silent
    document while it changes [status], [approvedAt] and [updatedAt].  So
    for a folder that carries a checksum -- every folder [createFolder]
    makes -- [checkFolderApproval] moves the document to the active path
    and then throws "Data integrity check failed" when it reads it back;
    from then on the folder cannot be loaded, and [deleteFolder] fails with
    the same error, whatever the password.  (The premise on the digest
    says that the approved document does not collide with the created
    one.) *)
Theorem checkFolderApproval_leaves_stale_checksum `{Platform}
    (w : world) (folderId : string) (fields : object) (c : string) (now : Z) :
  retrievable w (GitHubStorage.silent_path folderId) (JObj fields) →
  children (GitHubStorage.silent_path folderId) (repo w) = [] →
  missing w (GitHubStorage.active_path folderId) →
  due_for_approval w folderId (JObj fields) now →
  Obj.get "checksum" fields = Some (JStr c) →
  c ≠ "" →
  SecurityManager.generateChecksum (JObj (Obj.set "checksum" (JStr "") (approved fields now)))
    ≠ c →
  let w' := snd (GitHubStorage.checkFolderApproval folderId now w) in
  fst (GitHubStorage.checkFolderApproval folderId now w)
    = Throw GitHubStorage.integrity_failure
  ∧ repo w' !! GitHubStorage.silent_path folderId = None
  ∧ (∃ f, repo w' !! GitHubStorage.active_path folderId = Some f
          ∧ content f = Some (JObj (approved fields now)))
  ∧ GitHubStorage.loadData (GitHubStorage.active_path folderId) w'
    = (Throw GitHubStorage.integrity_failure, w')
  ∧ ∀ adminPassword, folderId ≠ "" → adminPassword ≠ "" →
      GitHubStorage.deleteFolder folderId adminPassword w'
      = (Throw GitHubStorage.integrity_failure, w').
Proof.
  intros [Hload Htruthy] Hnodir [Hnone Hdir] Hdue Hsum Hc Hdigest. cbn zeta.
  destruct (loadData_Some_inv _ _ _ Hload) as (f & Hf & Hcontent).
  destruct (getFolderInteractions_total w folderId) as [n Hcount].
  set (w1 := World (<[GitHubStorage.active_path folderId :=
                       File (blob_sha (Some (JObj (approved fields now))))
                            (Some (JObj (approved fields now)))]> (repo w))
               (rateLimitCache w) (blacklistedIPs w) (initialized w)).
  set (w2 := World (delete (GitHubStorage.silent_path folderId) (repo w1))
               (rateLimitCache w1) (blacklistedIPs w1) (initialized w1)).
  assert (repo w2 !! GitHubStorage.active_path folderId
          = Some (File (blob_sha (Some (JObj (approved fields now))))
                       (Some (JObj (approved fields now))))) as Hactive.
  { cbn. rewrite lookup_delete_ne by apply silent_path_ne_active_path.
    apply lookup_insert_eq. }
  assert (GitHubStorage.loadData (GitHubStorage.active_path folderId) w2
          = (Throw GitHubStorage.integrity_failure, w2)) as Hunreadable.
  { erewrite loadData_object by (first [exact Hactive | reflexivity]). cbn zeta.
    assert (Obj.get "checksum" (approved fields now) = Some (JStr c)) as ->
      by (unfold approved; by rewrite !Obj_get_set_ne by discriminate).
    rewrite (truthy_string c Hc). cbn.
    rewrite (proj2 (String.eqb_neq c _)) by congruence. reflexivity. }
  assert (GitHubStorage.checkFolderApproval folderId now w
          = (Throw GitHubStorage.integrity_failure, w2)) as Hrun.
  { unfold GitHubStorage.checkFolderApproval.
    erewrite bind_ok
      by (rewrite (readonly_run _ w (readonly_loadData _)), Hload; reflexivity).
    cbv beta iota. rewrite Htruthy. cbn [negb].
    erewrite bind_ok by exact Hcount.
    assert ((match (λ created : Z, now - created)
                     <$> GitHubStorage.getTime_of (member "createdAt" (JObj fields)) with
             | Some age => bool_decide (GitHubStorage.TIME_TO_APPROVE ≤ age)
             | None => false
             end || bool_decide (GitHubStorage.MIN_INTERACTIONS ≤ n)) = true) as ->.
    { destruct Hdue as [(created & -> & Hage) | (m & Hm & Hfive)].
      - cbn. rewrite bool_decide_eq_true_2; [done|]. unfold GitHubStorage.TIME_TO_APPROVE. lia.
      - rewrite Hcount in Hm. injection Hm as ->.
        rewrite (bool_decide_eq_true_2 (GitHubStorage.MIN_INTERACTIONS ≤ m)) by done.
        apply orb_true_r. }
    erewrite bind_ok by (by apply saveData_new).
    erewrite bind_ok.
    2:{ apply (deleteFile_existing _ _ f). cbn.
        rewrite lookup_insert_ne by (symmetry; apply silent_path_ne_active_path). exact Hf. }
    exact Hunreadable. }
  rewrite Hrun. cbn [fst snd].
  split; [done|]. split; [apply lookup_delete_eq|].
  split; [by eexists|]. split; [exact Hunreadable|].
  intros adminPassword Hid Hpw. unfold GitHubStorage.deleteFolder.
  rewrite (proj2 (String.eqb_neq folderId "")), (proj2 (String.eqb_neq adminPassword ""))
    by done.
  assert (GitHubStorage.loadData (GitHubStorage.silent_path folderId) w2 = (Ok None, w2))
    as Hsilent.
  { unfold GitHubStorage.loadData, try_catch, bind.
    rewrite GET_missing, is404_not_found; [done | apply lookup_delete_eq |].
    apply children_nil. intros rest. cbn.
    rewrite lookup_delete_ne.
    - rewrite lookup_insert_ne by apply active_not_below_silent.
      by apply children_nil.
    - intros Heq. apply (f_equal String.length) in Heq.
      rewrite !length_append in Heq. cbn in Heq. lia. }
  erewrite bind_ok by exact Hsilent. cbn [truthy].
  unfold bind at 1 2. by rewrite Hunreadable.
Qed.

(** The folder of the example, a day after its creation. *)
Lemma checkFolderApproval_leaves_stale_checksum_example :
  ∃ fields,
    retrievable created_folder_world (GitHubStorage.silent_path "f-1") (JObj fields)
    ∧ let w' := snd (GitHubStorage.checkFolderApproval "f-1" 86401000 created_folder_world) in
      fst (GitHubStorage.checkFolderApproval "f-1" 86401000 created_folder_world)
        = Throw GitHubStorage.integrity_failure
      ∧ repo w' !! GitHubStorage.silent_path "f-1" = None
      ∧ (∃ f, repo w' !! GitHubStorage.active_path "f-1" = Some f
              ∧ content f = Some (JObj (approved fields 86401000)))
      ∧ GitHubStorage.loadData (GitHubStorage.active_path "f-1") w'
        = (Throw GitHubStorage.integrity_failure, w')
      ∧ ∀ adminPassword, "f-1" ≠ "" → adminPassword ≠ "" →
          GitHubStorage.deleteFolder "f-1" adminPassword w'
          = (Throw GitHubStorage.integrity_failure, w').
Proof.
  eexists. split.
  - split; vm_compute; reflexivity.
  - eapply (checkFolderApproval_leaves_stale_checksum created_folder_world "f-1" _ _ 86401000).
    + split; by vm_compute.
    + by vm_compute.
    + split; by vm_compute.
    + left. exists 1000. split; [by vm_compute | lia].
    + vm_compute. reflexivity.
    + discriminate.
    + by vm_compute.
Defined.

(** ** Likes, by action *)



(** ** The validation of an email *)

Lemma utf16_units_ascii (c : ascii) : (N_of_ascii c < 128)%N → utf16_units c = 1.
Proof. intros Hc. unfold utf16_units. cbn zeta. by rewrite decide_True. Qed.

(** On a text of ASCII characters the length is the number of bytes. *)
Lemma js_length_ascii (s : string) :
  ascii_text s = true → js_length s = Z.of_nat (String.length s).
Proof.
  unfold ascii_text. induction s as [|c rest IH]; [done|].
  cbn [list_ascii_of_string js_length String.length forallb].
  intros [Hc%N.ltb_lt Hrest]%andb_true_iff.
  rewrite (utf16_units_ascii c Hc), (IH Hrest). lia.
Qed.

(** X16.  [validateEmail] accepts exactly the emails whose subject and
    body are both present, the subject with a [length] of at most 200 and
    the body with one of at most 50,000, where the [length] of a text is
    the number of its UTF-16 code units (its characters, for a text of the
    basic plane); the subject is checked first, so that an email with two
    faults is reported for its subject. *)
Theorem validateEmail_accepts_iff (email : emailData) :
  (ContentValidator.validateEmail email = Ok tt
   ↔ subject email ≠ "" ∧ js_length (subject email) ≤ 200
     ∧ body email ≠ "" ∧ js_length (body email) ≤ 50000)
  ∧ (subject email = "" →
     ContentValidator.validateEmail email = Throw (Error "Missing required field: subject"))
  ∧ (200 < js_length (subject email) →
     ContentValidator.validateEmail email
     = Throw (Error "subject exceeds maximum size of 200 characters")).
Proof.
  unfold ContentValidator.validateEmail. cbn [fold_right].
  destruct (String.eqb (subject email) "") eqn:Hs.
  { apply String.eqb_eq in Hs. rewrite Hs. cbn.
    split; [split; [discriminate | intros [? _]; done]|]. split; [done | lia]. }
  apply String.eqb_neq in Hs.
  destruct (decide (js_length (subject email) > 200)) as [Hlong|Hshort].
  { split; [split; [discriminate | lia]|]. split; [done | done]. }
  split; [|split; [done | lia]].
  destruct (String.eqb (body email) "") eqn:Hb.
  { apply String.eqb_eq in Hb. split; [discriminate | intros (_ & _ & ? & _); done]. }
  apply String.eqb_neq in Hb.
  destruct (decide (js_length (body email) > 50000)) as [Hblong|Hbshort].
  - split; [discriminate | lia].
  - split; [intros _; repeat split; [done | lia | done | lia] | done].
Qed.

(** A subject of 150 accented letters takes 300 bytes and has length 150:
    it is accepted.  An email without subject is reported for it. *)
Lemma validateEmail_accepts_iff_example :
  String.length accented_subject = 300%nat
  ∧ ContentValidator.validateEmail (EmailData accented_subject "Dear Sir" []) = Ok tt
  ∧ ContentValidator.validateEmail (EmailData "" "" [])
    = Throw (Error "Missing required field: subject").
Proof.
  split; [by vm_compute|]. split.
  - apply (proj1 (validateEmail_accepts_iff (EmailData accented_subject "Dear Sir" []))).
    cbn [subject body]. repeat split; [by vm_compute | by vm_compute | done | by vm_compute].
  - apply (proj1 (proj2 (validateEmail_accepts_iff (EmailData "" "" [])))). reflexivity.
Defined.

(** ** Emails: saving and deleting *)

Lemma touches_only_PUT `{Platform} (P : string → Prop) path c s :
  P path → touches_only P (PUT path c s).
Proof.
  intros HP w k Hk. unfold PUT, set_repo.
  assert (k ≠ path) as Hne by (by intros ->).
  repeat case_match; cbn; try done; by rewrite lookup_insert_ne.
Qed.

Lemma touches_only_put_with_retries `{Platform} (P : string → Prop) n last path c s :
  P path → touches_only P (GitHubStorage.put_with_retries n last path c s).
Proof.
  intros HP. revert last. induction n as [|n IH]; intros last;
    cbn [GitHubStorage.put_with_retries].
  - destruct last; by apply touches_only_readonly.
  - apply touches_only_try_catch; [by apply touches_only_PUT|].
    intros e. destruct (includes _ _); [by apply touches_only_readonly | apply IH].
Qed.

Lemma touches_only_saveData `{Platform} (P : string → Prop) path data :
  P path → touches_only P (GitHubStorage.saveData path data).
Proof.
  intros HP. unfold GitHubStorage.saveData.
  apply touches_only_bind; [apply touches_only_readonly, readonly_existing_sha|].
  intros s. by apply touches_only_put_with_retries.
Qed.

Lemma email_path_no_attachment folderId emailId :
  ¬ attachment_path (GitHubStorage.email_path folderId emailId).
Proof.
  intros [rest Heq]. unfold GitHubStorage.email_path in Heq. string_head Heq. discriminate.
Qed.

(** What [saveEmail] has stored when it returns. *)
Lemma saveEmail_ok_inv `{Platform}
    (folderId : string) (data : emailData) (ip : string) (now : Z) (rnd : randomness)
    (w w' : world) (returned : object) :
  GitHubStorage.saveEmail folderId data ip now rnd w = (Ok returned, w') →
  let password := SecurityManager.generateSecurePassword (passwordBytes rnd) in
  let credentials := SecurityManager.hashPassword password (saltBytes rnd) in
  ∃ doc,
    returned = (doc ++ [ ("password", JStr password) ])%list
    ∧ repo w' !! GitHubStorage.email_path folderId (uuid rnd)
      = Some (File (blob_sha (Some (JObj doc))) (Some (JObj doc)))
    ∧ verifiable doc
    ∧ Obj.get "password" doc = None
    ∧ Obj.get "id" doc = Some (JStr (uuid rnd))
    ∧ Obj.get "subject" doc = Some (JStr (subject data))
    ∧ Obj.get "body" doc = Some (JStr (body data))
    ∧ Obj.get "likes" doc = Some (JNum 0)
    ∧ Obj.get "passwordHash" doc = Some (JStr (SecurityManager.hash credentials))
    ∧ Obj.get "passwordSalt" doc = Some (JStr (SecurityManager.salt credentials)).
Proof.
  unfold GitHubStorage.saveEmail. intros Hrun. cbn zeta.
  apply bind_ok_inv in Hrun as (allowed & w1 & _ & Hrun).
  destruct allowed; cbn [negb] in Hrun; [|discriminate].
  apply bind_ok_inv in Hrun as (folder & w2 & _ & Hrun).
  destruct (negb (truthy folder)); [discriminate|]. cbn zeta in Hrun.
  apply bind_ok_inv in Hrun as ([] & w3 & Hsave & Hrun).
  apply bind_ok_inv in Hrun as ([] & w4 & Hattachments & Hrun).
  injection Hrun as <- <-.
  apply saveData_ok_inv in Hsave.
  match goal with |- ∃ doc, ?r = _ ∧ _ => exists (take 12 r) end.
  split; [reflexivity|]. cbn [take app]. split.
  { assert (touches_only attachment_path
              (for_each
                 (fun a =>
                    GitHubStorage.saveData
                      ("data/attachments/" +:+ folderId +:+ "/" +:+ uuid rnd +:+ "/" +:+ a_name a)
                      (Obj.set "checksum"
                         (JStr (SecurityManager.generateChecksum (JObj (json_of_attachment a))))
                         (json_of_attachment a)))
                 (attachments data))) as Hframe.
    { apply (touches_only_for_each _ _ (fun _ => True)); [by apply Forall_true|].
      intros a _. apply touches_only_saveData. by eexists. }
    specialize (Hframe w3 _ (email_path_no_attachment folderId (uuid rnd))).
    rewrite Hattachments in Hframe. cbn [snd] in Hframe. rewrite Hframe, Hsave. cbn [repo].
    apply lookup_insert_eq. }
  split; [right; reflexivity|].
  repeat split; reflexivity.
Qed.

(** X17.  What [saveEmail] returns is what it stored, the password apart:
    the document at the path of the email is the returned object without its
    last member [password], [loadData] accepts it, it holds the subject and
    the body as they were given -- no rule on their presence or length is
    applied -- and of the password only the hash and the salt, against
    which the returned password verifies. *)
Theorem saveEmail_then_loadData `{Platform}
    (folderId : string) (data : emailData) (ip : string) (now : Z) (rnd : randomness)
    (w w' : world) (returned : object) :
  GitHubStorage.saveEmail folderId data ip now rnd w = (Ok returned, w') →
  ∃ doc password,
    returned = (doc ++ [ ("password", JStr password) ])%list
    ∧ GitHubStorage.loadData (GitHubStorage.email_path folderId (uuid rnd)) w'
      = (Ok (Some (JObj doc)), w')
    ∧ Obj.get "password" doc = None
    ∧ Obj.get "subject" doc = Some (JStr (subject data))
    ∧ Obj.get "body" doc = Some (JStr (body data))
    ∧ Obj.get "likes" doc = Some (JNum 0)
    ∧ SecurityManager.verifyPassword password
        (Obj.get "passwordHash" doc) (Obj.get "passwordSalt" doc) = true.
Proof.
  intros Hrun. pose proof (saveEmail_ok_inv _ _ _ _ _ _ _ _ Hrun) as Hinv. cbn zeta in Hinv.
  destruct Hinv as (doc & -> & Hstored & Hok & Hnopw & _ & Hsubject & Hbody & Hlikes
                    & Hhash & Hsalt).
  exists doc, (SecurityManager.generateSecurePassword (passwordBytes rnd)).
  split; [reflexivity|]. split.
  { by eapply loadData_verifiable. }
  split; [exact Hnopw|]. split; [exact Hsubject|]. split; [exact Hbody|].
  split; [exact Hlikes|]. rewrite Hhash, Hsalt. apply verifyPassword_own_hash.
Qed.

(** An email without subject and body, with an attachment of 6,000,000
    bytes. *)
Lemma saveEmail_then_loadData_example :
  ∃ returned w' doc password,
    GitHubStorage.saveEmail "f-1"
      (EmailData "" "" [ Attachment "photo.png" "image/png" "" 6000000 ]) "1.2.3.4" 2000
      (Example.draw "e-1") active_folder_world = (Ok returned, w')
    ∧ returned = (doc ++ [ ("password", JStr password) ])%list
    ∧ GitHubStorage.loadData (GitHubStorage.email_path "f-1" "e-1") w'
      = (Ok (Some (JObj doc)), w')
    ∧ Obj.get "password" doc = None
    ∧ Obj.get "subject" doc = Some (JStr "")
    ∧ Obj.get "body" doc = Some (JStr "")
    ∧ Obj.get "likes" doc = Some (JNum 0)
    ∧ SecurityManager.verifyPassword password
        (Obj.get "passwordHash" doc) (Obj.get "passwordSalt" doc) = true.
Proof.
  assert (∃ returned w',
            GitHubStorage.saveEmail "f-1"
              (EmailData "" "" [ Attachment "photo.png" "image/png" "" 6000000 ]) "1.2.3.4"
              2000 (Example.draw "e-1") active_folder_world = (Ok returned, w'))
    as (returned & w' & Hrun) by (eexists _, _; vm_compute; reflexivity).
  exists returned, w'.
  destruct (saveEmail_then_loadData _ _ _ _ _ _ _ _ Hrun) as (doc & password & Hrest).
  exists doc, password. split; [exact Hrun | exact Hrest].
Defined.

Lemma verifyPassword_other_key `{Platform} (p p2 : string) (saltBytes : list Byte.byte) :
  PBKDF2 p2 saltBytes ≠ PBKDF2 p saltBytes →
  SecurityManager.verifyPassword p2
    (Some (JStr (SecurityManager.hash (SecurityManager.hashPassword p saltBytes))))
    (Some (JStr (SecurityManager.salt (SecurityManager.hashPassword p saltBytes)))) = false.
Proof.
  intros Hkey. unfold SecurityManager.verifyPassword, SecurityManager.hashPassword.
  cbn [SecurityManager.hash SecurityManager.salt].
  rewrite Hex_parse_stringify. apply String.eqb_neq. intros Heq.
  by apply Hkey, Hex_stringify_inj.
Qed.

(** X18.  The password [saveEmail] returns deletes the email:
    [deleteContent] on the path of the email removes the document, while a
    password that derives another key is refused with "Invalid password",
    and the admin override is refused with "Invalid admin password" as long
    as the environment configures no admin hash; a refusal deletes
    nothing. *)
Theorem deleteContent_with_returned_password `{Platform}
    (folderId : string) (data : emailData) (ip : string) (now : Z) (rnd : randomness)
    (w w' : world) (returned : object) (adminHash adminSalt : option string) :
  GitHubStorage.saveEmail folderId data ip now rnd w = (Ok returned, w') →
  let path := GitHubStorage.email_path folderId (uuid rnd) in
  ∃ password,
    Obj.get "password" returned = Some (JStr password)
    ∧ (∃ w'', GitHubStorage.deleteContent path password false adminHash adminSalt w'
              = (Ok tt, w'')
              ∧ repo w'' !! path = None)
    ∧ (∀ other, PBKDF2 other (saltBytes rnd) ≠ PBKDF2 password (saltBytes rnd) →
         GitHubStorage.deleteContent path other false adminHash adminSalt w'
         = (Throw (Error "Invalid password"), w'))
    ∧ (∀ other, GitHubStorage.deleteContent path other true None None w'
                = (Throw (Error "Invalid admin password"), w')).
Proof.
  intros Hrun. cbn zeta.
  pose proof (saveEmail_ok_inv _ _ _ _ _ _ _ _ Hrun) as Hinv. cbn zeta in Hinv.
  destruct Hinv as (doc & -> & Hstored & Hok & Hnopw & _ & _ & _ & _ & Hhash & Hsalt).
  set (password := SecurityManager.generateSecurePassword (passwordBytes rnd)) in *.
  set (path := GitHubStorage.email_path folderId (uuid rnd)) in *.
  assert (GitHubStorage.loadData path w' = (Ok (Some (JObj doc)), w')) as Hload
    by (by eapply loadData_verifiable).
  exists password. split; [by rewrite Obj_get_app_None|].
  split; [|split].
  - eexists. unfold GitHubStorage.deleteContent.
    erewrite bind_ok by exact Hload. cbv beta iota zeta. cbn [truthy negb default member]. unfold id. cbn [member].
    rewrite Hhash, Hsalt, verifyPassword_own_hash. cbn [negb].
    erewrite bind_ok by reflexivity.
    erewrite bind_ok by (by apply GET_file).
    unfold DELETE. rewrite Hstored. cbn [sha]. rewrite decide_True by done.
    split; [reflexivity|]. cbn. apply lookup_delete_eq.
  - intros other Hkey. unfold GitHubStorage.deleteContent.
    erewrite bind_ok by exact Hload. cbv beta iota zeta. cbn [truthy negb default member]. unfold id. cbn [member].
    rewrite Hhash, Hsalt, verifyPassword_other_key by done. reflexivity.
  - intros other. unfold GitHubStorage.deleteContent.
    erewrite bind_ok by exact Hload. cbv beta iota zeta. cbn [truthy negb default member]. unfold id. cbn [member]. reflexivity.
Qed.

Lemma deleteContent_with_returned_password_example :
  ∃ returned w' password,
    GitHubStorage.saveEmail "f-1" (EmailData "Hello" "Dear Sir" []) "1.2.3.4" 2000
      (Example.draw "e-1") active_folder_world = (Ok returned, w')
    ∧ Obj.get "password" returned = Some (JStr password)
    ∧ (∃ w'', GitHubStorage.deleteContent (GitHubStorage.email_path "f-1" "e-1") password
                false None None w' = (Ok tt, w'')
              ∧ repo w'' !! GitHubStorage.email_path "f-1" "e-1" = None)
    ∧ (∀ other, PBKDF2 other (saltBytes (Example.draw "e-1"))
                ≠ PBKDF2 password (saltBytes (Example.draw "e-1")) →
         GitHubStorage.deleteContent (GitHubStorage.email_path "f-1" "e-1") other false
           None None w' = (Throw (Error "Invalid password"), w'))
    ∧ (∀ other, GitHubStorage.deleteContent (GitHubStorage.email_path "f-1" "e-1") other true
                  None None w' = (Throw (Error "Invalid admin password"), w')).
Proof.
  assert (∃ returned w',
            GitHubStorage.saveEmail "f-1" (EmailData "Hello" "Dear Sir" []) "1.2.3.4" 2000
              (Example.draw "e-1") active_folder_world = (Ok returned, w'))
    as (returned & w' & Hrun) by (eexists _, _; vm_compute; reflexivity).
  exists returned, w'.
  destruct (deleteContent_with_returned_password _ _ _ _ _ _ _ _ None None Hrun)
    as (password & Hrest).
  exists password. split; [exact Hrun | exact Hrest].
Defined.

(** ** The versions of an email *)

Lemma Obj_get_modified (k : string) (modifications o : object) :
  k ∉ List.map fst modifications →
  Obj.get k (fold_left (fun o kv => Obj.set (fst kv) (snd kv) o) modifications o) = Obj.get k o.
Proof.
  revert o. induction modifications as [|[k0 v0] rest IH]; intros o Hk; [done|].
  cbn in *. rewrite not_elem_of_cons in Hk. destruct Hk as [Hne Hrest].
  rewrite IH by done. by apply Obj_get_set_ne.
Qed.

Lemma Obj_set_restore (k : string) (v v' : json) (o : object) :
  Obj.get k o = Some v → Obj.set k v (Obj.set k v' o) = o.
Proof. apply Obj_set_existing. Qed.

(** X19.  A version made by [createEmailVersion] starts with no likes and
    with the version number after the one of the original (2 when the
    original has none), whatever the modifications say: they are applied
    before these members are set.  Its checksum, however, is the digest of
    the document while it still holds the checksum copied from the
    original; so for an original that carries a checksum which the
    modifications leave alone, the stored version fails the integrity check
    of [loadData].  (The premise on the digest says that SHA-256 tells the
    version with the copied checksum from the version with the checksum
    cleared.) *)
Theorem createEmailVersion_stores_stale_checksum `{Platform}
    (w w' : world) (folderId emailId : string) (modifications : object) (now : Z)
    (versionId : string) (version : object) (f : file) (original : object) (c : string) :
  repo w !! GitHubStorage.email_path folderId emailId = Some f →
  content f = Some (JObj original) →
  GitHubStorage.createEmailVersion folderId emailId modifications now versionId w
    = (Ok version, w') →
  Obj.get "likes" version = Some (JNum 0)
  ∧ Obj.get "version" version = Some (GitHubStorage.next_version (Obj.get "version" original))
  ∧ Obj.get "updatedAt" version = Some (JStr (toISOString now))
  ∧ (Obj.get "checksum" original = Some (JStr c) → c ≠ "" →
     "checksum" ∉ List.map fst modifications →
     (∀ text, SHA256 text ≠ "") →
     SecurityManager.generateChecksum (JObj (Obj.set "checksum" (JStr "") version))
       ≠ SecurityManager.generateChecksum (JObj (Obj.set "checksum" (JStr c) version)) →
     GitHubStorage.loadData (version_path folderId versionId) w'
     = (Throw GitHubStorage.integrity_failure, w')).
Proof.
  intros Hf Hcontent Hrun. unfold GitHubStorage.createEmailVersion in Hrun.
  apply bind_ok_inv in Hrun as (loaded & w0 & Hload & Hrun).
  assert (w0 = w) as ->.
  { pose proof (readonly_loadData (GitHubStorage.email_path folderId emailId) w) as Hro.
    by rewrite Hload in Hro. }
  assert (loaded = Some (JObj original)) as ->.
  { destruct loaded as [d|]; [|discriminate].
    destruct (loadData_Some_inv w (GitHubStorage.email_path folderId emailId) d)
      as (f' & Hf' & Hc); [by rewrite Hload|]. congruence. }
  cbn [truthy negb default] in Hrun. cbv zeta in Hrun. unfold id in Hrun.
  apply bind_ok_inv in Hrun as ([] & w2 & Hsave & Hret).
  injection Hret as <- <-. apply saveData_ok_inv in Hsave as ->.
  cbn [member spread].
  set (pre := Obj.set "likes" (JNum 0) _).
  assert (∀ k, k ≠ "checksum" → Obj.get k (Obj.set "checksum"
                (JStr (SecurityManager.generateChecksum (JObj pre))) pre) = Obj.get k pre)
    as Hother by (intros k Hk; by apply Obj_get_set_ne).
  split; [rewrite Hother by discriminate; apply Obj_get_set_eq|].
  split.
  { rewrite Hother by discriminate. subst pre.
    rewrite Obj_get_set_ne by discriminate. apply Obj_get_set_eq. }
  split.
  { rewrite Hother by discriminate. subst pre.
    rewrite !Obj_get_set_ne by discriminate. apply Obj_get_set_eq. }
  intros Hsum Hc Hkept Hdigest Hdiffer.
  assert (Obj.get "checksum" pre = Some (JStr c)) as Hpre.
  { subst pre. rewrite !Obj_get_set_ne by discriminate.
    rewrite Obj_get_modified by done. by rewrite !Obj_get_set_ne by discriminate. }
  rewrite Obj_set_set_eq, Obj_set_restore in Hdiffer by done.
  erewrite loadData_object; [|cbn [repo]; apply lookup_insert_eq | reflexivity].
  cbn zeta. rewrite Obj_get_set_eq, Obj_set_set_eq.
  rewrite truthy_string by apply Hdigest. cbn [andb strict_eq].
  rewrite (proj2 (String.eqb_neq _ _)); [done|]. congruence.
Qed.

(** A version of the email of the example with another subject. *)
Lemma createEmailVersion_stores_stale_checksum_example :
  let create :=
    GitHubStorage.createEmailVersion "f-1" "e-1" [ ("subject", JStr "Hello again") ] 3000 "v-1" in
  let version := Example.returned [] create example_email_world in
  let w' := Example.after create example_email_world in
  create example_email_world = (Ok version, w')
  ∧ Obj.get "likes" version = Some (JNum 0)
  ∧ Obj.get "version" version = Some (JNum 2)
  ∧ GitHubStorage.loadData (version_path "f-1" "v-1") w'
    = (Throw GitHubStorage.integrity_failure, w').
Proof.
  cbn zeta.
  assert (GitHubStorage.createEmailVersion "f-1" "e-1" [ ("subject", JStr "Hello again") ] 3000
            "v-1" example_email_world
          = (Ok (Example.returned []
                   (GitHubStorage.createEmailVersion "f-1" "e-1"
                      [ ("subject", JStr "Hello again") ] 3000 "v-1") example_email_world),
             Example.after
               (GitHubStorage.createEmailVersion "f-1" "e-1"
                  [ ("subject", JStr "Hello again") ] 3000 "v-1") example_email_world))
    as Hrun by (by vm_compute).
  split; [exact Hrun|].
  destruct (createEmailVersion_stores_stale_checksum example_email_world _ "f-1" "e-1" _ 3000
              "v-1" _ (File (blob_sha (Some (JObj example_email))) (Some (JObj example_email)))
              example_email
              (SecurityManager.generateChecksum
                 (JObj (Obj.set "checksum" (JStr "") example_email)))
              ltac:(by vm_compute) eq_refl Hrun)
    as (Hlikes & Hversion & _ & Hstale).
  split; [exact Hlikes|]. split; [exact Hversion|].
  apply Hstale.
  - by vm_compute.
  - by vm_compute.
  - cbn. intros [Heq|Hin]%elem_of_cons; [discriminate | by apply elem_of_nil in Hin].
  - intros text. discriminate.
  - by vm_compute.
Defined.

(** ** Directory skeletons *)











(** ** Interactions *)

Lemma due_or_not_due `{Platform} (w : world) (folderId : string) (folder : json) (now : Z) :
  due_for_approval w folderId folder now ∨ not_due w folderId folder now.
Proof.
  destruct (getFolderInteractions_total w folderId) as [n Hn].
  destruct (decide (5 ≤ n)) as [Hmany|Hfew].
  { left. right. exists n. split; [by rewrite Hn | done]. }
  destruct (GitHubStorage.getTime_of (member "createdAt" folder)) as [created|] eqn:Hcreated.
  - destruct (decide (24 * 60 * 60 * 1000 ≤ now - created)) as [Hold|Hyoung].
    + left. left. exists created. by rewrite Hcreated.
    + right. split.
      * intros created' Heq. rewrite Hcreated in Heq. injection Heq as <-. lia.
      * exists n. split; [by rewrite Hn | lia].
  - right. split.
    + intros created' Heq. by rewrite Hcreated in Heq.
    + exists n. split; [by rewrite Hn | lia].
Qed.

(** X21.  [handleInteraction] writes only to approve: when it leaves the
    world changed, a folder was retrievable at the silent path with
    [status = 'silent'], and it was due for approval.  For a folder that is
    missing, that has another status or that is not yet due, the call
    changes nothing. *)
Theorem handleInteraction_writes_only_to_approve `{Platform}
    (w : world) (folderId : string) (now : Z) :
  snd (GitHubStorage.handleInteraction folderId now w) ≠ w →
  ∃ folder,
    retrievable w (GitHubStorage.silent_path folderId) folder
    ∧ member "status" folder = Some (JStr "silent")
    ∧ due_for_approval w folderId folder now.
Proof.
  intros Hchanged. unfold GitHubStorage.handleInteraction in Hchanged.
  pose proof (readonly_run _ w (readonly_loadData (GitHubStorage.silent_path folderId)))
    as Hload.
  unfold bind at 1 in Hchanged. rewrite Hload in Hchanged.
  destruct (fst (GitHubStorage.loadData (GitHubStorage.silent_path folderId) w))
    as [[folder|]|e|] eqn:Hresult; try done.
  destruct (truthy (Some folder)) eqn:Htruthy; [|done].
  cbn [andb default] in Hchanged. unfold id in Hchanged.
  destruct (member "status" folder) as [[| | |status| |]|] eqn:Hstatus; try done.
  cbn [strict_eq] in Hchanged.
  destruct (String.eqb status GitHubStorage.SILENT) eqn:Hsilent; [|done].
  apply String.eqb_eq in Hsilent. subst status.
  exists folder. split; [done|]. split; [done|].
  destruct (due_or_not_due w folderId folder now) as [|Hnot]; [done|].
  exfalso. apply Hchanged. unfold bind.
  by rewrite (checkFolderApproval_keeps w folderId folder now).
Qed.

(** The folder of the example, a day after its creation. *)
Lemma handleInteraction_writes_only_to_approve_example :
  ∃ folder,
    retrievable created_folder_world (GitHubStorage.silent_path "f-1") folder
    ∧ member "status" folder = Some (JStr "silent")
    ∧ due_for_approval created_folder_world "f-1" folder 86401000.
Proof.
  apply (handleInteraction_writes_only_to_approve created_folder_world "f-1" 86401000).
  intros Hsame. apply (f_equal (fun w => repo w !! GitHubStorage.silent_path "f-1")) in Hsame.
  vm_compute in Hsame. discriminate.
Defined.

(** ** Share links *)

Lemma readonly_loadFolderByShareToken `{Platform} `{Library} token :
  readonly (GitHubStorage.loadFolderByShareToken token).
Proof.
  unfold GitHubStorage.loadFolderByShareToken.
  repeat first [ apply readonly_loadData | readonly_step ].
Qed.

(** X22.  [loadFolderByShareToken] only reads, and it has one answer for
    every failure: a token without link, a link whose folder is gone, a
    document that fails the integrity check, a ciphertext that does not
    open -- each ends in the error "Invalid share token". *)
Theorem loadFolderByShareToken_fails_with_one_error `{Platform} `{Library}
    (w : world) (token : string) :
  snd (GitHubStorage.loadFolderByShareToken token w) = w
  ∧ (match fst (GitHubStorage.loadFolderByShareToken token w) with
     | Ok _ => True
     | Throw e => e = Error "Invalid share token"
     | Diverge => False
     end)
  ∧ (missing w (GitHubStorage.link_path token) →
     fst (GitHubStorage.loadFolderByShareToken token w) = Throw (Error "Invalid share token")).
Proof.
  split; [apply readonly_loadFolderByShareToken|]. split.
  - revert w. change (fails_only (fun e => e = Error "Invalid share token")
                        (GitHubStorage.loadFolderByShareToken token)).
    unfold GitHubStorage.loadFolderByShareToken.
    apply (fails_only_try_catch anything); [|intros e _; by apply fails_only_throw].
    apply fails_only_bind; [apply ends_loadData|]. intros linkData.
    destruct (negb (truthy linkData)); [by apply fails_only_throw|]. cbn zeta.
    apply fails_only_bind; [apply ends_loadData|]. intros active.
    apply fails_only_bind.
    { destruct (truthy active); [apply fails_only_ret | apply ends_loadData]. }
    intros folder. destruct (negb (truthy folder)); [by apply fails_only_throw|].
    destruct (AES_decrypt_parse _ _); [by apply fails_only_throw | apply fails_only_ret].
  - intros [Hnone Hdir]. unfold GitHubStorage.loadFolderByShareToken, try_catch, bind at 1.
    unfold GitHubStorage.loadData at 1, try_catch, bind.
    by rewrite (GET_missing _ _ Hnone Hdir), is404_not_found.
Qed.

Lemma loadFolderByShareToken_fails_with_one_error_example :
  missing Example.fresh (GitHubStorage.link_path "no-such-token")
  ∧ fst (GitHubStorage.loadFolderByShareToken "no-such-token" Example.fresh)
    = Throw (Error "Invalid share token").
Proof.
  assert (missing Example.fresh (GitHubStorage.link_path "no-such-token")) as Hmissing
    by (split; [apply lookup_empty | by vm_compute]).
  split; [exact Hmissing|].
  exact (proj2 (proj2 (loadFolderByShareToken_fails_with_one_error
                         Example.fresh "no-such-token")) Hmissing).
Defined.

Lemma link_path_ne_active_path a b : GitHubStorage.link_path a ≠ GitHubStorage.active_path b.
Proof.
  unfold GitHubStorage.link_path, GitHubStorage.active_path. intros Heq.
  string_head Heq. discriminate.
Qed.



(** ** Forks *)

(** X24.  [forkFolder] asks for no folder and no password.  Where the
    active path of [folderId] holds nothing, [...null] spreads nothing and
    the call still stores a silent folder made of the six members it sets
    itself; the folder belongs to whoever called: [deleteFolder] with the
    new id and the password passed to the fork deletes it. *)
Theorem forkFolder_of_missing_folder `{Platform}
    (w : world) (folderId newOwnerPassword : string) (now : Z) (rnd : randomness) :
  missing w (GitHubStorage.active_path folderId) →
  missing w (GitHubStorage.silent_path (uuid rnd)) →
  uuid rnd ≠ "" → newOwnerPassword ≠ "" →
  let credentials := SecurityManager.hashPassword newOwnerPassword (saltBytes rnd) in
  let forked : object :=
    [ ("id", JStr (uuid rnd)); ("forkedFrom", JStr folderId);
      ("forkedAt", JStr (toISOString now));
      ("adminHash", JStr (SecurityManager.hash credentials));
      ("adminSalt", JStr (SecurityManager.salt credentials));
      ("status", JStr "silent") ] in
  ∃ w1 w2,
    GitHubStorage.forkFolder folderId newOwnerPassword now rnd w
    = (Ok (forked ++ [ ("adminPassword", JStr newOwnerPassword) ])%list, w1)
    ∧ GitHubStorage.loadData (GitHubStorage.silent_path (uuid rnd)) w1
      = (Ok (Some (JObj forked)), w1)
    ∧ GitHubStorage.deleteFolder (uuid rnd) newOwnerPassword w1 = (Ok true, w2)
    ∧ repo w2 !! GitHubStorage.silent_path (uuid rnd) = None.
Proof.
  intros [Hnone Hdir] Hfree Hid Hpw. cbn zeta.
  set (credentials := SecurityManager.hashPassword newOwnerPassword (saltBytes rnd)).
  set (forked := [ ("id", JStr (uuid rnd)); ("forkedFrom", JStr folderId);
                   ("forkedAt", JStr (toISOString now));
                   ("adminHash", JStr (SecurityManager.hash credentials));
                   ("adminSalt", JStr (SecurityManager.salt credentials));
                   ("status", JStr "silent") ] : object).
  set (w1 := World (<[GitHubStorage.silent_path (uuid rnd) :=
                       File (blob_sha (Some (JObj forked))) (Some (JObj forked))]> (repo w))
               (rateLimitCache w) (blacklistedIPs w) (initialized w)).
  assert (GitHubStorage.loadData (GitHubStorage.silent_path (uuid rnd)) w1
          = (Ok (Some (JObj forked)), w1)) as Hload.
  { eapply loadData_verifiable; [cbn; apply lookup_insert_eq | reflexivity | by left]. }
  destruct (deleteFolder_valid w1 (uuid rnd) newOwnerPassword (JObj forked))
    as (w2 & Hdelete & Hgone); [done | done | | |].
  { split; [by rewrite Hload | done]. }
  { apply verifyPassword_own_hash. }
  exists w1, w2. split; [|done].
  unfold GitHubStorage.forkFolder.
  erewrite bind_ok.
  2:{ unfold GitHubStorage.loadData, try_catch, bind.
      rewrite (GET_missing _ _ Hnone Hdir), is404_not_found. reflexivity. }
  cbn zeta. cbn [default spread].
  erewrite bind_ok by (apply saveData_writable; by left). reflexivity.
Qed.

Lemma forkFolder_of_missing_folder_example :
  let credentials := SecurityManager.hashPassword "secret" (saltBytes (Example.draw "f-2")) in
  let forked : object :=
    [ ("id", JStr "f-2"); ("forkedFrom", JStr "no such folder");
      ("forkedAt", JStr (toISOString 5000));
      ("adminHash", JStr (SecurityManager.hash credentials));
      ("adminSalt", JStr (SecurityManager.salt credentials));
      ("status", JStr "silent") ] in
  ∃ w1 w2,
    GitHubStorage.forkFolder "no such folder" "secret" 5000 (Example.draw "f-2") Example.fresh
    = (Ok (forked ++ [ ("adminPassword", JStr "secret") ])%list, w1)
    ∧ GitHubStorage.loadData (GitHubStorage.silent_path "f-2") w1
      = (Ok (Some (JObj forked)), w1)
    ∧ GitHubStorage.deleteFolder "f-2" "secret" w1 = (Ok true, w2)
    ∧ repo w2 !! GitHubStorage.silent_path "f-2" = None.
Proof.
  apply (forkFolder_of_missing_folder Example.fresh "no such folder" "secret" 5000
           (Example.draw "f-2")).
  - split; [apply lookup_empty | by vm_compute].
  - split; [apply lookup_empty | by vm_compute].
  - discriminate.
  - discriminate.
Defined.

(** ** Country folders *)





(** ** Suspicious addresses, and the caller at the limit *)

Lemma rate_key_action_ne (ip action action' : string) :
  action ≠ action' → ip +:+ ":" +:+ action ≠ ip +:+ ":" +:+ action'.
Proof. intros Hne Heq. apply Hne. apply append_inv_head in Heq. by injection Heq. Qed.

(** X26.  The report [flagSuspiciousIP] stores is filed under the hash of
    the address alone, with the number of requests recorded for the action
    as [attempts]; a report for another action of the same address
    replaces it, so that the repository holds the last report only. *)
Theorem flagSuspiciousIP_keeps_last_report `{Platform}
    (w : world) (ip action action' : string) (now later : Z) (requests requests' : list Z) :
  rateLimitCache w !! (ip +:+ ":" +:+ action) = Some requests →
  rateLimitCache w !! (ip +:+ ":" +:+ action') = Some requests' →
  missing w (flag_path ip) →
  (∀ c, blob_sha c ≠ "") →
  ∃ w1 w2 f,
    GitHubStorage.flagSuspiciousIP ip action now w = (Ok tt, w1)
    ∧ GitHubStorage.flagSuspiciousIP ip action' later w1 = (Ok tt, w2)
    ∧ repo w2 !! flag_path ip = Some f
    ∧ content f = Some (JObj [ ("ipHash", JStr (SHA256 ip)); ("action", JStr action');
                               ("timestamp", JStr (toISOString later));
                               ("attempts", JNum (Z.of_nat (length requests'))) ])
    ∧ ∀ key, key ≠ flag_path ip → repo w2 !! key = repo w !! key.
Proof.
  intros Hrequests Hrequests' Hmissing Hsha.
  eexists _, _, _. split; [|split; [|split; [|split]]].
  - unfold GitHubStorage.flagSuspiciousIP, bind at 1, get_world. rewrite Hrequests.
    apply saveData_writable. by left.
  - unfold GitHubStorage.flagSuspiciousIP, bind at 1, get_world.
    cbn [rateLimitCache]. rewrite Hrequests'.
    apply saveData_writable. right. eexists _, _.
    split; [cbn; apply lookup_insert_eq|]. split; [apply Hsha|]. split; reflexivity.
  - cbn. apply lookup_insert_eq.
  - reflexivity.
  - intros key Hkey. cbn. unfold flag_path in Hkey. by rewrite !lookup_insert_ne.
Qed.

Lemma flagSuspiciousIP_keeps_last_report_example :
  let w := World ∅ {[ "1.2.3.4:CREATE_EMAIL" := [1; 2; 3]; "1.2.3.4:LIKE_ACTION" := [4; 5] ]}
                 ∅ true in
  ∃ w1 w2 f,
    GitHubStorage.flagSuspiciousIP "1.2.3.4" "CREATE_EMAIL" 10 w = (Ok tt, w1)
    ∧ GitHubStorage.flagSuspiciousIP "1.2.3.4" "LIKE_ACTION" 20 w1 = (Ok tt, w2)
    ∧ repo w2 !! flag_path "1.2.3.4" = Some f
    ∧ content f = Some (JObj [ ("ipHash", JStr (SHA256 "1.2.3.4")); ("action", JStr "LIKE_ACTION");
                               ("timestamp", JStr (toISOString 20));
                               ("attempts", JNum (Z.of_nat (length [4; 5]))) ])
    ∧ ∀ key, key ≠ flag_path "1.2.3.4" → repo w2 !! key = repo w !! key.
Proof.
  apply (flagSuspiciousIP_keeps_last_report
           (World ∅ {[ "1.2.3.4:CREATE_EMAIL" := [1; 2; 3]; "1.2.3.4:LIKE_ACTION" := [4; 5] ]}
                  ∅ true)
           "1.2.3.4" "CREATE_EMAIL" "LIKE_ACTION" 10 20 [1; 2; 3] [4; 5]).
  - by vm_compute.
  - by vm_compute.
  - split; [apply lookup_empty | by vm_compute].
  - by intros [d|].
Defined.

(** X27.  At the limit the callers of [checkRateLimit] do not see "Rate
    limit exceeded": for an address that is not blacklisted and has used up
    the 20 emails of the hour, [saveEmail] fails with the [TypeError] of the
    method [SecurityManager] does not have, and stores nothing; the message
    "Rate limit exceeded for email creation" is reserved to the addresses on
    the in-memory blacklist. *)
Theorem saveEmail_at_the_limit `{Platform}
    (w : world) (folderId : string) (data : emailData) (ip : string) (now : Z)
    (rnd : randomness) :
  (ip ∉ blacklistedIPs w →
   20 ≤ Z.of_nat (length (recent now (SecurityManager.Limit 20 3600000)
                            (recorded w ip "CREATE_EMAIL"))) →
   fst (GitHubStorage.saveEmail folderId data ip now rnd w)
     = Throw (TypeError "this.flagSuspiciousIP is not a function")
   ∧ repo (snd (GitHubStorage.saveEmail folderId data ip now rnd w)) = repo w)
  ∧ (ip ∈ blacklistedIPs w →
     GitHubStorage.saveEmail folderId data ip now rnd w
     = (Throw (Error "Rate limit exceeded for email creation"), w)).
Proof.
  split.
  - intros Hnot Hfull.
    assert (GitHubStorage.saveEmail folderId data ip now rnd w
            = (Throw (TypeError "this.flagSuspiciousIP is not a function"),
               touched w ip "CREATE_EMAIL")) as ->.
    { unfold GitHubStorage.saveEmail, bind at 1.
      rewrite (checkRateLimit_eq w ip "CREATE_EMAIL" now _ Hnot eq_refl). cbn zeta.
      by rewrite decide_True. }
    split; [done|]. cbn [snd]. unfold touched. by case_match.
  - intros Hin. unfold GitHubStorage.saveEmail, bind at 1.
    by rewrite checkRateLimit_blacklisted.
Qed.

Lemma saveEmail_at_the_limit_example :
  let w := World (repo active_folder_world)
                 {[ rate_key "1.2.3.4" "CREATE_EMAIL" := seqZ 1 20 ]} ∅ true in
  fst (GitHubStorage.saveEmail "f-1" (EmailData "Hello" "Dear Sir" []) "1.2.3.4" 100
         (Example.draw "e-1") w)
    = Throw (TypeError "this.flagSuspiciousIP is not a function")
  ∧ repo (snd (GitHubStorage.saveEmail "f-1" (EmailData "Hello" "Dear Sir" []) "1.2.3.4" 100
                 (Example.draw "e-1") w)) = repo w.
Proof.
  apply (proj1 (saveEmail_at_the_limit
                  (World (repo active_folder_world)
                         {[ rate_key "1.2.3.4" "CREATE_EMAIL" := seqZ 1 20 ]} ∅ true)
                  "f-1" (EmailData "Hello" "Dear Sir" []) "1.2.3.4" 100 (Example.draw "e-1"))).
  - cbn. set_solver.
  - by vm_compute.
Defined.

(** ** Reports below the threshold *)

Lemma blacklist_document_saved (r : gmap string file) (s : string) (doc : object) c b i :
  blacklist_document
    (World (<[GitHubStorage.blacklist_path := File s (Some (JObj doc))]> r) c b i) = doc.
Proof. unfold blacklist_document. cbn [repo]. by rewrite lookup_insert_eq. Qed.

(** X28.  Below the threshold a report is only filed.  When
    [addToBlacklist] succeeds and the reports pending for the address, the
    new one included, count fewer than 3 inside the window of 7 days, the
    stored list [ips] and the in-memory blacklist are as before, and the
    pending reports of the address are the earlier ones followed by the new
    one. *)
Theorem addToBlacklist_below_threshold `{Platform}
    (w w' : world) (ip : string) (evidence : json) (now : Z) :
  GitHubStorage.addToBlacklist ip evidence now w = (Ok tt, w') →
  (length (List.filter (GitHubStorage.is_recent now)
             (reports_on w ip ++ [new_report now evidence])) < 3)%nat →
  listed w' ip = listed w ip
  ∧ blacklistedIPs w' = blacklistedIPs w
  ∧ reports_on w' ip = (reports_on w ip ++ [new_report now evidence])%list.
Proof.
  intros Hrun Hcount. unfold GitHubStorage.addToBlacklist in Hrun.
  apply bind_ok_inv in Hrun as (loaded & w1 & Hload & Hrun).
  pose proof (readonly_loadData GitHubStorage.blacklist_path w) as Hro.
  rewrite Hload in Hro. cbn in Hro. subst w1.
  apply (f_equal fst) in Hload. cbn [fst] in Hload.
  cbn zeta in Hrun.
  pose proof (loaded_blacklist_document w loaded Hload) as Hdoc.
  unfold empty_blacklist at 1 in Hdoc. rewrite Hdoc in Hrun. clear Hdoc.
  unfold listed, reports_on in *.
  destruct (Obj.get "pendingReports" (blacklist_document w))
    as [[| | | | |pendingReports]|] eqn:Hpending; try discriminate.
  assert (∃ pending,
            Obj.get (SHA256 ip)
              (if truthy (Obj.get (SHA256 ip) pendingReports) then pendingReports
               else Obj.set (SHA256 ip)
                      (JObj [ ("reports", JArr []);
                              ("firstReportedAt", JStr (toISOString now)) ])
                      pendingReports)
            = Some (JObj pending)
            ∧ ∀ reports, Obj.get "reports" pending = Some (JArr reports) →
                         reports = match Obj.get (SHA256 ip) pendingReports with
                                   | Some (JObj pending0) =>
                                       match Obj.get "reports" pending0 with
                                       | Some (JArr reports0) => reports0
                                       | _ => []
                                       end
                                   | _ => []
                                   end) as (pending & Hrecord & Hreports).
  { destruct (truthy (Obj.get (SHA256 ip) pendingReports)) eqn:Htruthy.
    - destruct (Obj.get (SHA256 ip) pendingReports) as [[| | | | |pending]|];
        try discriminate.
      exists pending. split; [done|]. by intros reports ->.
    - eexists. split; [apply Obj_get_set_eq|].
      intros reports [= <-].
      by destruct (Obj.get (SHA256 ip) pendingReports) as [[| | | | |pending]|]. }
  rewrite Hrecord in Hrun.
  destruct (Obj.get "reports" pending) as [[| | | |reports|]|] eqn:Hget; try discriminate.
  rewrite <- (Hreports reports eq_refl) in *. clear Hreports.
  destruct (existsb _ _); [discriminate|].
  rewrite Obj_get_set_ne in Hrun by discriminate.
  unfold new_report in *.
  rewrite (bool_decide_eq_false_2
             (GitHubStorage.REPORTS_THRESHOLD ≤ Z.of_nat (length (List.filter _ _))))
    in Hrun by (unfold GitHubStorage.REPORTS_THRESHOLD; lia).
  assert (GitHubStorage.saveData GitHubStorage.blacklist_path
            (Obj.set "pendingReports"
               (JObj (Obj.set (SHA256 ip)
                        (JObj (Obj.set "reports"
                                 (JArr (reports ++
                                        [JObj [ ("timestamp", JStr (toISOString now));
                                                ("evidence", evidence) ]])%list) pending))
                        (if truthy (Obj.get (SHA256 ip) pendingReports) then pendingReports
                         else Obj.set (SHA256 ip)
                                (JObj [ ("reports", JArr []);
                                        ("firstReportedAt", JStr (toISOString now)) ])
                                pendingReports)))
               (blacklist_document w)) w = (Ok tt, w')) as Hsave.
  { destruct (Obj.get "ips" (blacklist_document w)) as [[| | | |ips|]|]; exact Hrun. }
  clear Hrun. apply saveData_ok_inv in Hsave. subst w'. cbn [blacklistedIPs].
  rewrite !blacklist_document_saved.
  rewrite Obj_get_set_ne by discriminate. rewrite !Obj_get_set_eq.
  split; [reflexivity|]. split; [reflexivity|]. reflexivity.
Qed.

Lemma addToBlacklist_below_threshold_example :
  let w' := perform (AddToBlacklist "6.6.6.6" (JStr "spam") 1000) Example.fresh in
  listed w' "6.6.6.6" = listed Example.fresh "6.6.6.6"
  ∧ blacklistedIPs w' = blacklistedIPs Example.fresh
  ∧ reports_on w' "6.6.6.6"
    = (reports_on Example.fresh "6.6.6.6" ++ [new_report 1000 (JStr "spam")])%list.
Proof.
  apply (addToBlacklist_below_threshold Example.fresh _ "6.6.6.6" (JStr "spam") 1000).
  - by vm_compute.
  - vm_compute. lia.
Defined.

(** ** The interactions of a folder *)





(** ** The emails of a folder *)

(** A step that only reads and always returns is a function of the
    world, and [map_all] applies it to every element. *)
Lemma map_all_of_function {A B} (f : A → M B) (g : A → B) (xs : list A) (w : world) :
  (∀ x, f x w = (Ok (g x), w)) →
  map_all f xs w = (Ok (List.map g xs), w).
Proof.
  intros Hf. induction xs as [|x rest IH]; [done|].
  cbn [map_all List.map]. unfold bind at 1. rewrite Hf.
  unfold bind at 1. by rewrite IH.
Qed.

(** X30.  [loadEmails] never fails and writes nothing, and it returns the
    verified emails only: an email is in the list exactly when it is what
    [loadData] returns for an entry [<name>.json] of the listing of
    [data/emails/<folderId>].  An email that fails the integrity check is
    left out in silence, as is every other failure; a folder without a
    directory of emails has the empty list. *)
Theorem loadEmails_returns_verified_emails `{Platform} (w : world) (folderId : string) :
  let dir := "data/emails/" +:+ folderId in
  ∃ emails,
    GitHubStorage.loadEmails folderId w = (Ok emails, w)
    ∧ (∀ email,
         email ∈ emails
         ↔ repo w !! dir = None
           ∧ ∃ e, e ∈ children dir (repo w)
                  ∧ endsWith ".json" (name e) = true
                  ∧ fst (GitHubStorage.loadData (dir +:+ "/" +:+ name e) w) = Ok (Some email))
    ∧ (missing w dir → emails = []).
Proof.
  cbn zeta. set (dir := "data/emails/" +:+ folderId).
  set (g := fun e : entry =>
              match fst (GitHubStorage.loadData (dir +:+ "/" +:+ name e) w) with
              | Ok v => v
              | _ => None
              end).
  assert (∀ e, try_catch (GitHubStorage.loadData (dir +:+ "/" +:+ name e)) (fun _ => ret None) w
               = (Ok (g e), w)) as Hstep.
  { intros e. unfold try_catch, g.
    rewrite (readonly_run _ w (readonly_loadData _)).
    pose proof (ends_loadData (dir +:+ "/" +:+ name e) w) as Hends.
    destruct (fst (GitHubStorage.loadData (dir +:+ "/" +:+ name e) w)); done. }
  assert (∀ e email, g e = Some email
                     ↔ fst (GitHubStorage.loadData (dir +:+ "/" +:+ name e) w) = Ok (Some email))
    as Hg.
  { intros e email. unfold g.
    destruct (fst (GitHubStorage.loadData (dir +:+ "/" +:+ name e) w)) as [v| |];
      split; intros Heq; try discriminate; congruence. }
  unfold GitHubStorage.loadEmails. fold dir.
  unfold try_catch at 1, bind at 1, try_catch at 1, bind at 1, GET.
  destruct (repo w !! dir) as [f|] eqn:Hfile.
  { exists []. split; [done|]. split.
    - intros email. split; [by intros Hin%elem_of_nil | by intros [? _]].
    - by intros [_ _]. }
  destruct (children dir (repo w)) as [|e0 entries] eqn:Hdir.
  { rewrite is404_not_found. exists []. split; [done|]. split.
    - intros email. split; [by intros Hin%elem_of_nil|].
      by intros (_ & e & Hin%elem_of_nil & _).
    - done. }
  unfold ret at 1. unfold bind at 1.
  rewrite (map_all_of_function _ g _ w) by (intros e; apply Hstep).
  eexists. split; [reflexivity|]. split.
  - intros email. rewrite list_elem_of_omap. split.
    + intros (v & Hin & Hv). cbn in Hv. subst v.
      apply list_elem_of_fmap in Hin as (e & Heq & Hin).
      apply list_elem_of_In, filter_In in Hin as [Hin%list_elem_of_In Hjson].
      split; [done|]. exists e. split; [done|]. split; [done|].
      by apply Hg.
    + intros (_ & e & Hin & Hjson & Hload). exists (Some email). split; [|done].
      apply list_elem_of_fmap. exists e. split; [symmetry; by apply Hg|].
      apply list_elem_of_In, filter_In. split; [by apply list_elem_of_In | done].
  - intros [_ Hnil]. rewrite Hdir in Hnil. discriminate.
Qed.

(** The email of the tampered world is stored, and [loadEmails] does not
    return it. *)
Lemma loadEmails_returns_verified_emails_example :
  is_Some (repo tampered_email_world !! GitHubStorage.email_path "f-1" "e-1")
  ∧ ∃ emails, GitHubStorage.loadEmails "f-1" tampered_email_world
              = (Ok emails, tampered_email_world)
              ∧ emails = [].
Proof.
  split; [vm_compute; eexists; reflexivity|].
  destruct (loadEmails_returns_verified_emails tampered_email_world "f-1")
    as (emails & Hrun & _).
  exists emails. split; [exact Hrun|].
  assert (fst (GitHubStorage.loadEmails "f-1" tampered_email_world) = Ok []) as Hvalue
    by (vm_compute; reflexivity).
  rewrite Hrun in Hvalue. cbn in Hvalue. by injection Hvalue.
Defined.
